(** * pycity_scheduling: Exchange ADMM coordinator and curtailable load

    A shallow embedding of

    - [ExchangeADMM] (algorithms/exchange_admm_algorithm.py): objective
      augmentation, one iteration of the exchange ADMM and its stopping test;
    - [CurtailableLoad] (classes/curtailable_load.py): construction,
      [populate_model] and the rolling-horizon [update_model];
    - [ThermalEntity] (classes/thermal_entity.py): [populate_model] and
      [update_schedule].

    Python [float]s and numpy arrays of floats are read as real numbers and
    lists of real numbers: rounding, overflow and NaN are outside the model.
    Python [int]s are [Z] (or [nat] where the code only counts).  The external
    solver is an oracle: a function from a node's objective to the values of
    its variables, about which nothing is assumed. *)

From Stdlib Require Import String.
From Stdlib Require Import Reals Lra Lia ZArith List Bool.
Import ListNotations.

Set Implicit Arguments.

(* ================================================================= *)
(** ** Python values: exceptions, ranges, indexing and slicing *)

Module Py.

(** The outcome of a call that may raise.  [OutOfFuel] is not a Python
    outcome: it marks a loop model that was given too few steps, and the
    totality lemmas show it does not occur. *)
Inductive result (A : Type) : Type :=
| Ok (a : A)
| AssertionError
| IndexError
| ValueError
| TypeError
| OutOfFuel.

Arguments Ok {A} a.
Arguments AssertionError {A}.
Arguments IndexError {A}.
Arguments ValueError {A}.
Arguments TypeError {A}.
Arguments OutOfFuel {A}.

Definition bind {A B} (m : result A) (k : A -> result B) : result B :=
  match m with
  | Ok a => k a
  | AssertionError => AssertionError
  | IndexError => IndexError
  | ValueError => ValueError
  | TypeError => TypeError
  | OutOfFuel => OutOfFuel
  end.

(** [assert c]. *)
Definition assert (c : bool) : result unit :=
  if c then Ok tt else AssertionError.

Definition len {A} (l : list A) : Z := Z.of_nat (length l).

(** [range(n)] and [range(a, b)]. *)
Definition range (n : Z) : list Z :=
  map Z.of_nat (seq 0 (Z.to_nat n)).

Definition range2 (a b : Z) : list Z :=
  map (fun k => a + Z.of_nat k)%Z (seq 0 (Z.to_nat (b - a))).

(** A slice bound is clipped into [0, len]; a negative one counts from the
    end. *)
Definition clip (n i : Z) : Z :=
  if (i <? 0)%Z then Z.max 0 (i + n) else Z.min i n.

(** [l[start:stop]]. *)
Definition slice {A} (l : list A) (start stop : Z) : list A :=
  let a := clip (len l) start in
  let b := clip (len l) stop in
  firstn (Z.to_nat (b - a)) (skipn (Z.to_nat a) l).

(** [l[:stop]] and [l[start:]]. *)
Definition slice_to {A} (l : list A) (stop : Z) : list A := slice l 0 stop.
Definition slice_from {A} (l : list A) (start : Z) : list A :=
  slice l start (len l).

(** An index is taken from the end when negative and raises when it falls
    outside the list. *)
Definition norm_index (n i : Z) : option nat :=
  let j := if (i <? 0)%Z then (i + n)%Z else i in
  if ((0 <=? j) && (j <? n))%Z then Some (Z.to_nat j) else None.

(** [l[i]]. *)
Definition index {A} (l : list A) (i : Z) : result A :=
  match norm_index (len l) i with
  | Some j => match nth_error l j with
              | Some a => Ok a
              | None => IndexError
              end
  | None => IndexError
  end.

Fixpoint set_nth {A} (l : list A) (j : nat) (f : A -> A) : list A :=
  match l, j with
  | [], _ => []
  | a :: l', O => f a :: l'
  | a :: l', S j' => a :: set_nth l' j' f
  end.

(** [l[i].field = v]: the element at index [i] is updated in place. *)
Definition update {A} (l : list A) (i : Z) (f : A -> A) : result (list A) :=
  match norm_index (len l) i with
  | Some j => Ok (set_nth l j f)
  | None => IndexError
  end.

(** [l[-1]] on a list that may be empty. *)
Definition last_item {A} (l : list A) : result A := index l (-1).

End Py.

Notation "x <- m ;; k" := (Py.bind m (fun x => k))
  (at level 61, m at next level, right associativity).

(* ================================================================= *)
(** ** numpy arrays of floats *)

Module NumPy.

Local Open Scope R_scope.

Fixpoint zipWith (f : R -> R -> R) (a b : list R) : list R :=
  match a, b with
  | x :: a', y :: b' => f x y :: zipWith f a' b'
  | _, _ => []
  end.

(** [np.zeros(n)]. *)
Definition zeros (n : nat) : list R := repeat 0 n.

(** Elementwise [a + b], [a - b], [-a], [c * a] and [a / c] on arrays of
    one shape (shapes are an invariant of the algorithm, see
    [ExchangeADMM.wf_params]). *)
Definition add (a b : list R) : list R := zipWith Rplus a b.
Definition sub (a b : list R) : list R := zipWith Rminus a b.
Definition neg (a : list R) : list R := map Ropp a.
Definition scale (c : R) (a : list R) : list R := map (Rmult c) a.
Definition div (a : list R) (c : R) : list R := map (fun x => x / c) a.

(** Python's [sum(rows)] over the rows of a 2-d array: [0 + r1 + r2 + ...].
    The integer start value broadcasts to a row of zeros. *)
Definition sum_rows (n : nat) (rows : list (list R)) : list R :=
  fold_left add rows (zeros n).

(** [sum(l)] of a list of floats. *)
Definition sum (l : list R) : R := fold_left Rplus l 0.

(** The same sum taken from the right. *)
Definition total (l : list R) : R := fold_right Rplus 0 l.

Definition sum_squares (a : list R) : R :=
  fold_right (fun x acc => x * x + acc) 0 a.

(** [np.linalg.norm(a)] of a 1-d array. *)
Definition norm (a : list R) : R := sqrt (sum_squares a).

(** [a.flatten()] of a 2-d array. *)
Definition flatten (a : list (list R)) : list R := concat a.

End NumPy.

(* ================================================================= *)
(** ** ExchangeADMM (algorithms/exchange_admm_algorithm.py) *)

Module ExchangeADMM.

Local Open Scope R_scope.

(** A threshold [eps_primal] / [eps_dual]: a float that may be infinite. *)
Inductive threshold : Type :=
| NegInf
| Fin (r : R)
| PosInf.

(** [norm <= eps] on floats. *)
Definition le_threshold (norm : R) (eps : threshold) : bool :=
  match eps with
  | NegInf => false
  | Fin e => if Rle_dec norm e then true else false
  | PosInf => true
  end.

(** The mutable pyomo parameters of one node ([node.model.beta], [xs_],
    [us], [last_p_el_schedules]); an indexed parameter is a list over the
    time steps, initialised with zeros. *)
Record Node : Type := mkNode {
  beta : R;
  xs_ : list R;
  us : list R;
  last_p_el_schedules : list R
}.

(** [params]: the keys [p_el], [x_] and [u] are absent before the first
    iteration. *)
Record Params : Type := mkParams {
  p_el : option (list (list R));
  x_ : option (list R);
  u : option (list R)
}.

(** [results]: the diagnostics the algorithm appends to. *)
Record Results : Type := mkResults {
  iterations : list Z;
  r_norms : list R;
  s_norms : list R
}.

Definition param (l : list R) (t : nat) : R := nth t l 0.

Section Algorithm.

(** [self.rho], [self.op_horizon], [self.eps_primal], [self.eps_dual],
    [self.max_iterations]. *)
Variable rho : R.
Variable op_horizon : nat.
Variable eps_primal eps_dual : threshold.
Variable max_iterations : Z.

(** [self._entities]: each entity is given by its local objective
    [entity.get_objective()], a function of the values of its
    [p_el_vars]; entity 0 is the city district. *)
Variable entities : list ((nat -> R) -> R).

(** [node.model.beta] of node [i], set in [_presolve]. *)
Variable betas : nat -> R.

(** The external solver: the values of [p_el_vars] it returns for node
    [i] when given the node's objective. *)
Variable solve_node : nat -> ((nat -> R) -> R) -> nat -> R.

(** [_add_objective], for node [i]: the objective expression, read as a
    function of the node parameters and of the values of [p_el_vars]. *)
Definition _add_objective (i : nat) (get_objective : (nat -> R) -> R)
    (node : Node) (p_el_vars : nat -> R) : R :=
  let obj := beta node * get_objective p_el_vars in
  let obj :=
    fold_left (fun obj t => obj + rho / 2 * p_el_vars t * p_el_vars t)
              (seq 0 op_horizon) obj in
  if Nat.eqb i 0 then
    let penalty :=
      map (fun t => - param (last_p_el_schedules node) t
                    - param (xs_ node) t - param (us node) t)
          (seq 0 op_horizon) in
    fold_left (fun obj t => obj + rho * nth t penalty 0 * p_el_vars t)
              (seq 0 op_horizon) obj
  else
    let penalty :=
      map (fun t => - param (last_p_el_schedules node) t
                    + param (xs_ node) t + param (us node) t)
          (seq 0 op_horizon) in
    fold_left (fun obj t => obj + rho * nth t penalty 0 * p_el_vars t)
              (seq 0 op_horizon) obj.

(** The parameter values [_iteration] writes into node [i] before it is
    solved. *)
Definition push_params (i : nat) (last_p_el : list (list R))
    (last_x_ last_u : list R) : Node :=
  {| beta := betas i;
     xs_ := map (fun t => param last_x_ t) (seq 0 op_horizon);
     us := map (fun t => param last_u t) (seq 0 op_horizon);
     last_p_el_schedules :=
       map (fun t => param (nth i last_p_el []) t) (seq 0 op_horizon) |}.

(** [extract_pyomo_values(entity.model.p_el_vars, float)]. *)
Definition extract_pyomo_values (vars : nat -> R) : list R :=
  map vars (seq 0 op_horizon).

(** Step 1 of [_iteration]: every node receives its parameters and is
    solved; the result is the array [p_el_schedules]. *)
Definition solve_nodes (last_p_el : list (list R))
    (last_x_ last_u : list R) : list (list R) :=
  map (fun ie : nat * ((nat -> R) -> R) =>
         let (i, entity) := ie in
         extract_pyomo_values
           (solve_node i
              (_add_objective i entity
                 (push_params i last_p_el last_x_ last_u))))
      (combine (seq 0 (length entities)) entities).

(** Modelled from the spec: [IterationAlgorithm._iteration]
    (algorithms/algorithm.py is not among the sources).  Each iteration
    step appends exactly one entry, the iteration index, to the result. *)
Definition IterationAlgorithm_iteration (results : Results) : Results :=
  {| iterations :=
       iterations results ++ [Z.of_nat (length (iterations results)) + 1]%Z;
     r_norms := r_norms results;
     s_norms := s_norms results |}.

Definition fill_p_el (params : Params) : list (list R) :=
  match p_el params with
  | Some v => v
  | None => repeat (NumPy.zeros op_horizon) (length entities)
  end.

Definition fill_x_ (params : Params) : list R :=
  match x_ params with Some v => v | None => NumPy.zeros op_horizon end.

Definition fill_u (params : Params) : list R :=
  match u params with Some v => v | None => NumPy.zeros op_horizon end.

(** The schedules [p_el_schedules] extracted in an iteration started
    from [params]. *)
Definition fresh_schedules (params : Params) : list (list R) :=
  solve_nodes (fill_p_el params) (fill_x_ params) (fill_u params).

(** The new incentive signal:
    [(-p_el_schedules[0] + sum(p_el_schedules[1:])) / len(self._entities)]. *)
Definition incentive_signal (p_el_schedules : list (list R)) : list R :=
  NumPy.div
    (NumPy.add (NumPy.neg (nth 0 p_el_schedules []))
               (NumPy.sum_rows op_horizon (skipn 1 p_el_schedules)))
    (INR (length entities)).

(** The array [s] of dual residuals. *)
Definition dual_residuals (p_el_schedules last_p_el : list (list R))
    (last_x_ x' : list R) : list (list R) :=
  NumPy.scale (- rho)
    (NumPy.sub
       (NumPy.add
          (NumPy.add (NumPy.neg (nth 0 p_el_schedules []))
                     (nth 0 last_p_el []))
          last_x_)
       x')
  :: map (fun i =>
            NumPy.scale (- rho)
              (NumPy.sub
                 (NumPy.add
                    (NumPy.sub (nth i p_el_schedules [])
                               (nth i last_p_el []))
                    last_x_)
                 x'))
         (seq 1 (length entities - 1)).

(** [_iteration]. *)
Definition _iteration (st : Results * Params) : Results * Params :=
  let (results, params) := st in
  let results := IterationAlgorithm_iteration results in
  let last_u := fill_u params in
  let last_p_el := fill_p_el params in
  let last_x_ := fill_x_ params in
  let p_el_schedules := solve_nodes last_p_el last_x_ last_u in
  let x' := incentive_signal p_el_schedules in
  let r := sqrt (INR (length entities)) * NumPy.norm x' in
  let s := dual_residuals p_el_schedules last_p_el last_x_ x' in
  ({| iterations := iterations results;
      r_norms := r_norms results ++ [r];
      s_norms := s_norms results ++ [NumPy.norm (NumPy.flatten s)] |},
   {| p_el := Some p_el_schedules;
      x_ := Some x';
      u := Some (NumPy.add last_u x') |}).

(** Modelled from the spec: [IterationAlgorithm._is_last_iteration]
    (algorithms/algorithm.py is not among the sources).  The iteration
    cap is reached when the iteration count reaches [max_iterations]. *)
Definition IterationAlgorithm_is_last_iteration (results : Results) : bool :=
  (max_iterations <=? Z.of_nat (length (iterations results)))%Z.

(** [_is_last_iteration]; [and] evaluates its right operand only when the
    left one is true. *)
Definition _is_last_iteration (results : Results) : Py.result bool :=
  if IterationAlgorithm_is_last_iteration results then Py.Ok true
  else
    r <- Py.last_item (r_norms results) ;;
    if le_threshold r eps_primal then
      s <- Py.last_item (s_norms results) ;;
      Py.Ok (le_threshold s eps_dual)
    else Py.Ok false.

(** Modelled from the spec: the driver loop of [IterationAlgorithm]
    (algorithms/algorithm.py is not among the sources): repeatedly one
    iteration step, then the termination test. *)
Fixpoint iterate (fuel : nat) (st : Results * Params)
    : Py.result (Results * Params) :=
  match fuel with
  | O => Py.OutOfFuel
  | S fuel' =>
      let st' := _iteration st in
      last <- _is_last_iteration (fst st') ;;
      if (last : bool) then Py.Ok st' else iterate fuel' st'
  end.

(** [_presolve] leaves [params] without the ADMM keys and resets the
    residual logs. *)
Definition _presolve : Results * Params :=
  ({| iterations := []; r_norms := []; s_norms := [] |},
   {| p_el := None; x_ := None; u := None |}).

Definition solve : Py.result (Results * Params) :=
  iterate (Nat.max 1 (Z.to_nat max_iterations)) _presolve.

End Algorithm.

End ExchangeADMM.

(* ================================================================= *)
(** ** The part of a gurobi model a curtailable load touches *)

Module Gurobi.

Local Open Scope R_scope.

(** A bound or right-hand side: a float, or plus or minus
    [gurobi.GRB.INFINITY]. *)
Inductive bound : Type :=
| NegInfinity
| Num (r : R)
| Infinity.

(** The variables of the entity: [P_El_vars[t]] and the binary
    [P_State_vars[t]]. *)
Inductive var : Type :=
| P_El (t : nat)
| P_State (t : nat).

Inductive sense : Type :=
| GreaterEqual
| LessEqual.

(** A linear expression is a list of terms [coefficient * variable]. *)
Definition LinExpr : Type := list (R * var).

(** A linear constraint [lhs >= RHS] or [lhs <= RHS]; an inequality
    between two expressions is stored with everything on the left. *)
Record Constr : Type := mkConstr {
  lhs : LinExpr;
  sns : sense;
  RHS : bound
}.

(** [constr.RHS = b]. *)
Definition set_RHS (b : bound) (c : Constr) : Constr :=
  {| lhs := lhs c; sns := sns c; RHS := b |}.

(** [gurobi.quicksum(vars)] and its negation. *)
Definition quicksum (vars : list var) : LinExpr :=
  map (fun v => (1, v)) vars.

Definition minus_quicksum (vars : list var) : LinExpr :=
  map (fun v => (-1, v)) vars.

Definition eval (a : var -> R) (e : LinExpr) : R :=
  fold_right (fun cv acc => fst cv * a (snd cv) + acc) 0 e.

Definition ge_bound (x : R) (b : bound) : Prop :=
  match b with
  | NegInfinity => True
  | Num r => r <= x
  | Infinity => False
  end.

Definition le_bound (x : R) (b : bound) : Prop :=
  match b with
  | NegInfinity => False
  | Num r => x <= r
  | Infinity => True
  end.

(** The assignment [a] satisfies the constraint [c]. *)
Definition satisfies (a : var -> R) (c : Constr) : Prop :=
  match sns c with
  | GreaterEqual => ge_bound (eval a (lhs c)) (RHS c)
  | LessEqual => le_bound (eval a (lhs c)) (RHS c)
  end.

End Gurobi.

(* ================================================================= *)
(** ** CurtailableLoad (classes/curtailable_load.py) *)

Module CurtailableLoad.

Import Gurobi.
Local Open Scope Z_scope.

(** The entity together with the part of the gurobi model it owns.  A
    constraint whose handle the entity keeps ([constr_previous_state],
    [constr_previous], [constr_previous_start]) is one object shared with
    the model: it is stored once, in the handle list, and
    [model_constraints] reads it from there, so that a write to [RHS]
    through the handle is a write to the model.  [constrs] holds the
    constraints added without keeping a handle. *)
Record t : Type := mk {
  P_El_Nom : R;
  max_curt : R;
  max_low : option Z;
  min_full : option Z;
  P_El_Curt : R;
  op_horizon : Z;
  P_El_vars : list (bound * bound);
  P_State_vars : list var;
  constrs : list Constr;
  constr_previous_state : list Constr;
  constr_previous : list Constr;
  constr_previous_start : option Constr;
  P_State_Schedule : list bool;
  P_El_Schedule : list R
}.

(** [self.op_time_vec]. *)
Definition op_time_vec (self : t) : list Z := Py.range (op_horizon self).

(** The checks of [__init__] on [max_low] and [min_full]. *)
Definition check_arguments (max_low min_full : option Z) : Py.result unit :=
  match max_low, min_full with
  | None, None => Py.Ok tt
  | None, Some _ => Py.AssertionError
  | Some _, None => Py.AssertionError
  | Some l, Some f =>
      _ <- Py.assert (1 <=? f) ;;
      Py.assert (0 <=? l)
  end.

(** [__init__]; the environment contributes the horizons
    [timer.timestepsUsedHorizon] and [timer.timestepsTotal]. *)
Definition __init__ (op_horizon simu_horizon : Z) (P_El_Nom max_curtailment : R)
    (max_low min_full : option Z) : Py.result t :=
  _ <- check_arguments max_low min_full ;;
  Py.Ok {| P_El_Nom := P_El_Nom;
           max_curt := max_curtailment;
           max_low := max_low;
           min_full := min_full;
           P_El_Curt := (P_El_Nom * max_curtailment)%R;
           op_horizon := op_horizon;
           P_El_vars := [];
           P_State_vars := [];
           constrs := [];
           constr_previous_state := [];
           constr_previous := [];
           constr_previous_start := None;
           P_State_Schedule := repeat false (Z.to_nat simu_horizon);
           P_El_Schedule := repeat 0%R (Z.to_nat simu_horizon) |}.

Definition with_model (self : t) (vars : list (bound * bound))
    (states : list var) (cs prev_state prev : list Constr)
    (start : option Constr) : t :=
  {| P_El_Nom := P_El_Nom self;
     max_curt := max_curt self;
     max_low := max_low self;
     min_full := min_full self;
     P_El_Curt := P_El_Curt self;
     op_horizon := op_horizon self;
     P_El_vars := vars;
     P_State_vars := states;
     constrs := cs;
     constr_previous_state := prev_state;
     constr_previous := prev;
     constr_previous_start := start;
     P_State_Schedule := P_State_Schedule self;
     P_El_Schedule := P_El_Schedule self |}.

(** The realised schedules, as written by [update_schedule] in earlier
    windows. *)
Definition with_schedule (self : t) (states : list bool) (powers : list R) : t :=
  {| P_El_Nom := P_El_Nom self;
     max_curt := max_curt self;
     max_low := max_low self;
     min_full := min_full self;
     P_El_Curt := P_El_Curt self;
     op_horizon := op_horizon self;
     P_El_vars := P_El_vars self;
     P_State_vars := P_State_vars self;
     constrs := constrs self;
     constr_previous_state := constr_previous_state self;
     constr_previous := constr_previous self;
     constr_previous_start := constr_previous_start self;
     P_State_Schedule := states;
     P_El_Schedule := powers |}.

(** [ElectricalEntity.populate_model] is not among the sources; it is
    modelled after its sibling [ThermalEntity.populate_model]: the list of
    power variables is rebuilt with one new variable per time step of the
    window, with gurobi's default bounds. *)
Definition ElectricalEntity_populate_model (self : t) : t :=
  with_model self
    (map (fun _ => (Num 0, Infinity)) (op_time_vec self))
    (P_State_vars self) (constrs self) (constr_previous_state self)
    (constr_previous self) (constr_previous_start self).

(** [for x in xs: ...] where each pass may add constraints or fail. *)
Fixpoint for_each (xs : list Z) (body : Z -> Py.result (list Constr))
    : Py.result (list Constr) :=
  match xs with
  | [] => Py.Ok []
  | x :: xs' =>
      cs <- body x ;;
      cs' <- for_each xs' body ;;
      Py.Ok (cs ++ cs')
  end.

Definition RLen {A} (l : list A) : R := IZR (Py.len l).

(** The integer branch of [populate_model]. *)
Definition populate_integer (self : t) (max_low min_full : Z) : Py.result t :=
  let states :=
    P_State_vars self
    ++ map (fun t => P_State (Z.to_nat t)) (op_time_vec self) in
  coupling <- for_each (op_time_vec self) (fun t =>
    s <- Py.index states t ;;
    Py.Ok [ {| lhs := [(P_El_Nom self, s); ((-1)%R, P_El (Z.to_nat t))];
               sns := LessEqual; RHS := Num 0 |} ]) ;;
  let max_overlap := Z.min (Z.max max_low (min_full - 1)) (op_horizon self) in
  let prev_state :=
    map (fun t => {| lhs := quicksum (Py.slice_to states t);
                     sns := GreaterEqual; RHS := NegInfinity |})
        (Py.range2 1 (max_overlap + 1)) in
  windows <- for_each (op_time_vec self) (fun t =>
    let next_states := Py.slice states t (t + max_low + 1) in
    _ <- Py.assert ((1 <=? Py.len next_states)
                    && (Py.len next_states <=? max_low + 1)) ;;
    if Py.len next_states =? max_low + 1 then
      Py.Ok [ {| lhs := quicksum next_states;
                 sns := GreaterEqual; RHS := Num 1 |} ]
    else Py.Ok []) ;;
  if 1 <? min_full then
    let next_states := Py.slice states 1 min_full in
    s0 <- Py.index states 0 ;;
    let start :=
      {| lhs := (RLen next_states, s0) :: minus_quicksum next_states;
         sns := LessEqual; RHS := Infinity |} in
    runs <- for_each (Py.slice_to (op_time_vec self) (-2)) (fun t =>
      let next_states := Py.slice states (t + 2) (t + min_full + 1) in
      _ <- Py.assert ((1 <=? Py.len next_states)
                      && (Py.len next_states <=? min_full - 1)) ;;
      s1 <- Py.index states (t + 1) ;;
      s <- Py.index states t ;;
      Py.Ok [ {| lhs := (RLen next_states, s1)
                        :: ((- RLen next_states)%R, s)
                        :: minus_quicksum next_states;
                 sns := LessEqual; RHS := Num 0 |} ]) ;;
    Py.Ok (with_model self (P_El_vars self) states
             (constrs self ++ coupling ++ windows ++ runs)
             (constr_previous_state self ++ prev_state)
             (constr_previous self) (Some start))
  else
    Py.Ok (with_model self (P_El_vars self) states
             (constrs self ++ coupling ++ windows)
             (constr_previous_state self ++ prev_state)
             (constr_previous self) (constr_previous_start self)).

Definition power_vars (self : t) : list var :=
  map P_El (seq 0 (length (P_El_vars self))).

(** The relaxed branch of [populate_model]. *)
Definition populate_convex (self : t) (max_low min_full : Z) : Py.result t :=
  let width := min_full + max_low in
  windows <- for_each (Py.slice_to (op_time_vec self) (- width + 1)) (fun t =>
    let next_vars := Py.slice (power_vars self) t (t + width) in
    _ <- Py.assert (Py.len next_vars =? width) ;;
    Py.Ok [ {| lhs := quicksum next_vars; sns := GreaterEqual;
               RHS := Num (P_El_Nom self * IZR min_full
                           + P_El_Curt self * IZR max_low) |} ]) ;;
  let max_overlap := Z.min (max_low + min_full - 1) (op_horizon self) in
  let prev :=
    map (fun overlap =>
           {| lhs := quicksum (Py.slice_to (power_vars self) (overlap + 1));
              sns := GreaterEqual; RHS := NegInfinity |})
        (Py.range2 0 max_overlap) in
  Py.Ok (with_model self (P_El_vars self) (P_State_vars self)
           (constrs self ++ windows) (constr_previous_state self)
           (constr_previous self ++ prev) (constr_previous_start self)).

Definition set_bounds (self : t) (lb ub : bound) : t :=
  with_model self (map (fun _ => (lb, ub)) (P_El_vars self))
    (P_State_vars self) (constrs self) (constr_previous_state self)
    (constr_previous self) (constr_previous_start self).

Definition set_lb (self : t) (lb : bound) : t :=
  with_model self (map (fun b => (lb, snd b)) (P_El_vars self))
    (P_State_vars self) (constrs self) (constr_previous_state self)
    (constr_previous self) (constr_previous_start self).

(** [populate_model]. *)
Definition populate_model (self : t) (mode : string) : Py.result t :=
  let self := ElectricalEntity_populate_model self in
  if (String.eqb mode "convex" || String.eqb mode "integer")%bool then
    let self := set_bounds self (Num (P_El_Curt self)) (Num (P_El_Nom self)) in
    match max_low self with
    | None => Py.Ok self
    | Some l =>
        if l =? 0 then Py.Ok (set_lb self (Num (P_El_Nom self)))
        else
          match min_full self with
          | None => Py.TypeError
          | Some f =>
              if String.eqb mode "integer" then populate_integer self l f
              else populate_convex self l f
          end
    end
  else Py.ValueError.

(** The loop counting the time steps at full output before the window:
    [while (timestep - full_ts - 1) >= 0 and
           self.P_State_Schedule[timestep - full_ts - 1]: full_ts += 1]. *)
Fixpoint count_full (fuel : nat) (schedule : list bool) (timestep full_ts : Z)
    : Py.result Z :=
  match fuel with
  | O => Py.OutOfFuel
  | S fuel' =>
      if 0 <=? timestep - full_ts - 1 then
        state <- Py.index schedule (timestep - full_ts - 1) ;;
        if (state : bool) then count_full fuel' schedule timestep (full_ts + 1)
        else Py.Ok full_ts
      else Py.Ok full_ts
  end.

(** The loop counting the time steps below full output before the window,
    with its assertion:
    [while (timestep - low_ts - 1) >= 0 and
           not self.P_State_Schedule[timestep - low_ts - 1]:
         assert low_ts <= self.max_low; low_ts += 1]. *)
Fixpoint count_low (fuel : nat) (schedule : list bool) (max_low : Z)
    (timestep low_ts : Z) : Py.result Z :=
  match fuel with
  | O => Py.OutOfFuel
  | S fuel' =>
      if 0 <=? timestep - low_ts - 1 then
        state <- Py.index schedule (timestep - low_ts - 1) ;;
        if negb state then
          _ <- Py.assert (low_ts <=? max_low) ;;
          count_low fuel' schedule max_low timestep (low_ts + 1)
        else Py.Ok low_ts
      else Py.Ok low_ts
  end.

(** The first block of [update_model]: the bounds of the state
    constraints, entered when [timestep != 0] and
    [len(self.constr_previous_state) > 0]. *)
Definition update_integer (self : t) (timestep : Z) : Py.result t :=
  let prev_state := map (set_RHS NegInfinity) (constr_previous_state self) in
  previous <- Py.index (P_State_Schedule self) (timestep - 1) ;;
  let start :=
    match constr_previous_start self with
    | Some c =>
        Some (if (previous : bool) then set_RHS Infinity c
              else set_RHS (Num 0) c)
    | None => None
    end in
  prev_state <-
    (if (previous : bool) then
       full_ts <- count_full (Z.to_nat timestep) (P_State_Schedule self)
                    timestep 1 ;;
       if timestep - full_ts - 1 <? 0 then Py.Ok prev_state
       else
         match min_full self with
         | None => Py.TypeError
         | Some f =>
             let remaining_fulls := f - full_ts in
             if remaining_fulls <=? 0 then Py.Ok prev_state
             else if op_horizon self <? remaining_fulls then
               Py.update prev_state (-1)
                 (set_RHS (Num (IZR (op_horizon self))))
             else
               Py.update prev_state (remaining_fulls - 1)
                 (set_RHS (Num (IZR remaining_fulls)))
         end
     else
       match max_low self with
       | None => Py.TypeError
       | Some l =>
           low_ts <- count_low (Z.to_nat timestep) (P_State_Schedule self) l
                       timestep 1 ;;
           let overlap := l - low_ts + 1 in
           if overlap <=? op_horizon self then
             Py.update prev_state (overlap - 1) (set_RHS (Num 1))
           else Py.Ok prev_state
       end) ;;
  Py.Ok (with_model self (P_El_vars self) (P_State_vars self) (constrs self)
           prev_state (constr_previous self) start).

(** One pass of the loop over [enumerate(self.constr_previous, start=1)]:
    the new right-hand side for the given overlap. *)
Definition previous_bound (self : t) (max_low min_full timestep overlap : Z)
    : Py.result bound :=
  let width := min_full + max_low in
  let required :=
    repeat (P_El_Curt self) (Z.to_nat max_low)
    ++ repeat (P_El_Nom self) (Z.to_nat min_full) in
  let start_t := timestep - (width - overlap) in
  let required := if start_t <? 0 then Py.slice_to required start_t
                  else required in
  let start_t := if start_t <? 0 then 0 else start_t in
  let already_done := Py.slice (P_El_Schedule self) start_t timestep in
  _ <- Py.assert (Py.len already_done + overlap =? Py.len required) ;;
  Py.Ok (Num (NumPy.sum required - NumPy.sum already_done)%R).

Fixpoint update_previous (self : t) (max_low min_full timestep overlap : Z)
    (cs : list Constr) : Py.result (list Constr) :=
  match cs with
  | [] => Py.Ok []
  | constr :: cs' =>
      b <- previous_bound self max_low min_full timestep overlap ;;
      cs'' <- update_previous self max_low min_full timestep (overlap + 1) cs' ;;
      Py.Ok (set_RHS b constr :: cs'')
  end.

(** The second block of [update_model]: the bounds of the energy
    constraints, entered when [len(self.constr_previous) > 0]. *)
Definition update_convex (self : t) (timestep : Z) : Py.result t :=
  match min_full self, max_low self with
  | Some f, Some l =>
      prev <- update_previous self l f timestep 1 (constr_previous self) ;;
      Py.Ok (with_model self (P_El_vars self) (P_State_vars self)
               (constrs self) (constr_previous_state self) prev
               (constr_previous_start self))
  | _, _ => Py.TypeError
  end.

(** [update_model] at [self.timer.currentTimestep = timestep]. *)
Definition update_model (self : t) (timestep : Z) : Py.result t :=
  self <-
    (if (negb (timestep =? 0)
         && (0 <? Py.len (constr_previous_state self)))%bool
     then update_integer self timestep else Py.Ok self) ;;
  if 0 <? Py.len (constr_previous self) then update_convex self timestep
  else Py.Ok self.

(** *** The feasible region of the model *)

Definition option_list {A} (o : option A) : list A :=
  match o with Some a => [a] | None => [] end.

(** The constraints that depend on the history before the window. *)
Definition history_constraints (self : t) : list Constr :=
  constr_previous_state self ++ constr_previous self
  ++ option_list (constr_previous_start self).

Definition model_constraints (self : t) : list Constr :=
  constrs self ++ history_constraints self.

Definition within_bounds (self : t) (a : var -> R) : Prop :=
  forall t lb ub, nth_error (P_El_vars self) t = Some (lb, ub) ->
    ge_bound (a (P_El t)) lb /\ le_bound (a (P_El t)) ub.

Definition binary_states (self : t) (a : var -> R) : Prop :=
  forall v, In v (P_State_vars self) -> a v = 0%R \/ a v = 1%R.

(** The assignments allowed by the variable bounds and the constraints
    of the window alone. *)
Definition feasible_in_window (self : t) (a : var -> R) : Prop :=
  within_bounds self a /\ binary_states self a
  /\ Forall (satisfies a) (constrs self).

(** The assignments allowed by the whole model. *)
Definition feasible (self : t) (a : var -> R) : Prop :=
  feasible_in_window self a
  /\ Forall (satisfies a) (history_constraints self).

(** A bound that excludes nothing: [>= -infinity] or [<= infinity]. *)
Definition unconstraining (c : Constr) : Prop :=
  match sns c with
  | GreaterEqual => RHS c = NegInfinity
  | LessEqual => RHS c = Infinity
  end.

End CurtailableLoad.

(* ================================================================= *)
(** ** The exchange ADMM step as the specification words it *)

Module ExchangeADMMSpec.

Local Open Scope R_scope.

(** The sum of [f] over a list of indices. *)
Definition big_sum {A} (f : A -> R) (l : list A) : R :=
  fold_right (fun i acc => f i + acc) 0 l.

(** The sign convention: entity 0, the coordinating entity, has the
    opposite sign from all others. *)
Definition sign (i : nat) : R := if Nat.eqb i 0 then -1 else 1.

(** Entry [t] of row [i] of a 2-d array. *)
Definition entry (p : list (list R)) (i t : nat) : R := nth t (nth i p []) 0.

Section Spec.

Variable rho : R.
Variable op_horizon : nat.
Variable numEntities : nat.

Definition window : list nat := seq 0 op_horizon.

(** [local_objective(p_i) + rho/2 * ||p_i||^2
     + rho * < sign(i) * (x + u), p_i >]. *)
Definition augmented_objective (i : nat) (local_objective : (nat -> R) -> R)
    (x u : nat -> R) (p : nat -> R) : R :=
  local_objective p
  + rho / 2 * big_sum (fun t => p t * p t) window
  + rho * big_sum (fun t => sign i * (x t + u t) * p t) window.

(** The objective with the two further ingredients of the code: the
    weight [beta] of the local objective and the last schedule of the
    entity inside the linear term. *)
Definition expanded_objective (i : nat) (beta : R)
    (local_objective : (nat -> R) -> R) (last_p x u : nat -> R)
    (p : nat -> R) : R :=
  beta * local_objective p
  + rho / 2 * big_sum (fun t => p t * p t) window
  + rho * big_sum (fun t => (sign i * (x t + u t) - last_p t) * p t) window.

(** [x' = (-p[0] + sum over i >= 1 of p[i]) / numEntities], at time
    step [t]. *)
Definition consensus (p : list (list R)) (t : nat) : R :=
  (- entry p 0 t + big_sum (fun i => entry p i t) (seq 1 (numEntities - 1)))
  / INR numEntities.

(** [s[i] = -rho * (sign(i)*p[i] - sign(i)*lastP[i] + lastX - x')], at
    time step [t]. *)
Definition dual_residual (p lastP : list (list R)) (lastX x' : list R)
    (i t : nat) : R :=
  - rho * (sign i * entry p i t - sign i * entry lastP i t
           + nth t lastX 0 - nth t x' 0).

(** The vectors [s[i]] stacked into one. *)
Definition stacked_dual_residuals (p lastP : list (list R))
    (lastX x' : list R) : list R :=
  concat (map (fun i => map (dual_residual p lastP lastX x' i) window)
              (seq 0 numEntities)).

End Spec.

(** [norm <= eps] for a threshold that may be infinite. *)
Definition within (norm : R) (eps : ExchangeADMM.threshold) : Prop :=
  match eps with
  | ExchangeADMM.NegInf => False
  | ExchangeADMM.Fin e => norm <= e
  | ExchangeADMM.PosInf => True
  end.

(** The state after [k] iterations. *)
Fixpoint after (step : ExchangeADMM.Results * ExchangeADMM.Params ->
                       ExchangeADMM.Results * ExchangeADMM.Params)
    (k : nat) (st : ExchangeADMM.Results * ExchangeADMM.Params)
    : ExchangeADMM.Results * ExchangeADMM.Params :=
  match k with
  | O => st
  | S k' => step (after step k' st)
  end.

(** The shapes of the arrays in [params]: an invariant of the iteration. *)
Definition wf_params (op_horizon numEntities : nat)
    (params : ExchangeADMM.Params) : Prop :=
  (forall v, ExchangeADMM.p_el params = Some v ->
     length v = numEntities /\ Forall (fun row => length row = op_horizon) v)
  /\ (forall v, ExchangeADMM.x_ params = Some v -> length v = op_horizon)
  /\ (forall v, ExchangeADMM.u params = Some v -> length v = op_horizon).

(** What an iteration reads under a key of [params]: the stored value, or
    the array of zeros where the key is absent. *)
Definition stored {A} (key : option A) (zero value : A) : Prop :=
  key = Some value \/ (key = None /\ value = zero).

(** The state an iteration starts from: the last schedules [lastP], the
    last consensus signal [lastX] and the scaled dual [lastU]. *)
Definition last_state (op_horizon numEntities : nat)
    (params : ExchangeADMM.Params) (lastP : list (list R))
    (lastX lastU : list R) : Prop :=
  stored (ExchangeADMM.p_el params)
    (repeat (NumPy.zeros op_horizon) numEntities) lastP
  /\ stored (ExchangeADMM.x_ params) (NumPy.zeros op_horizon) lastX
  /\ stored (ExchangeADMM.u params) (NumPy.zeros op_horizon) lastU.

End ExchangeADMMSpec.

(* ================================================================= *)
(** ** The rules of a curtailable load as the specification words them *)

Module CurtailableLoadSpec.

Local Open Scope Z_scope.

(** The configuration is invalid: exactly one of [max_low] and [min_full]
    is supplied, or [min_full < 1], or [max_low < 0]. *)
Definition invalid_configuration (max_low min_full : option Z) : Prop :=
  (max_low = None /\ min_full <> None)
  \/ (max_low <> None /\ min_full = None)
  \/ (exists f, min_full = Some f /\ f < 1)
  \/ (exists l, max_low = Some l /\ l < 0).

(** The realised states before [timestep] never stay below full output
    for more than [max_low] consecutive time steps. *)
Definition max_low_rule (schedule : list bool) (timestep max_low : Z) : Prop :=
  forall start n, 0 <= start -> 0 <= n -> start + n <= timestep ->
    (forall j, start <= j < start + n -> Py.index schedule j = Py.Ok false) ->
    n <= max_low.


(** The energy constraint of the first [min_full + max_low] steps of the
    window, as the relaxed branch of [populate_model] adds it. *)
Definition first_window (self : CurtailableLoad.t) (max_low min_full : Z)
    : Gurobi.Constr :=
  {| Gurobi.lhs :=
       Gurobi.quicksum
         (Py.slice (CurtailableLoad.power_vars self) 0
            (0 + (min_full + max_low)));
     Gurobi.sns := Gurobi.GreaterEqual;
     Gurobi.RHS :=
       Gurobi.Num (CurtailableLoad.P_El_Nom self * IZR min_full
                   + CurtailableLoad.P_El_Curt self * IZR max_low)%R |}.


(** Full output at time step [t] of the window and sustained over the
    next one: the state indicator is 1 and the power is nominal at [t] and
    [t + 1]. *)
Definition full_run_of_two (nominal : R) (a : Gurobi.var -> R) (t : nat) : Prop :=
  a (Gurobi.P_State t) = 1%R /\ a (Gurobi.P_State (S t)) = 1%R
  /\ a (Gurobi.P_El t) = nominal /\ a (Gurobi.P_El (S t)) = nominal.

End CurtailableLoadSpec.

(* ================================================================= *)
(** ** Concrete runs *)

Module Examples.

Local Open Scope R_scope.

(** Two entities without local objective on a window of one time step,
    with a solver that sets every power variable to 1. *)
Definition two_entities : list ((nat -> R) -> R) :=
  [fun _ => 0; fun _ => 0].

Definition unit_weights : nat -> R := fun _ => 1.

Definition solver_one : nat -> ((nat -> R) -> R) -> nat -> R :=
  fun _ _ _ => 1.

(** The load of the rolling-horizon example: nominal power 10, curtailed
    power [10 * 0.2 = 2], [max_low = 2], [min_full = 2], a window of 6
    time steps in a simulation of 12. *)
Definition example_load : Py.result CurtailableLoad.t :=
  CurtailableLoad.__init__ 6 12 10 (2 / 10) (Some 2%Z) (Some 2%Z).

(** Its model in integer mode. *)
Definition example_model : Py.result CurtailableLoad.t :=
  self <- example_load ;;
  CurtailableLoad.populate_model self "integer".

(** The model after [update_model] at [timestep], the realised schedules
    being [states] and [powers]. *)
Definition example_update (states : list bool) (powers : list R)
    (timestep : Z) : Py.result CurtailableLoad.t :=
  self <- example_model ;;
  CurtailableLoad.update_model
    (CurtailableLoad.with_schedule self states powers) timestep.

(** Full output in the first step, reduced output in the second. *)
Definition one_low_step : list bool :=
  [true; false; false; false; false; false;
   false; false; false; false; false; false].

Definition some_powers : list R := [10; 2; 0; 0; 0; 0; 0; 0; 0; 0; 0; 0].

(** Every state indicator 1 and every power nominal. *)
Definition always_full (nominal : R) : Gurobi.var -> R :=
  fun v => match v with
           | Gurobi.P_El _ => nominal
           | Gurobi.P_State _ => 1
           end.


(** Nominal power in every step, the indicator of step 0 left at 0 and
    every other indicator at 1. *)
Definition full_unnoticed (nominal : R) : Gurobi.var -> R :=
  fun v => match v with
           | Gurobi.P_El _ => nominal
           | Gurobi.P_State O => 0
           | Gurobi.P_State (S _) => 1
           end.

(** A load with [max_low = 1] and [min_full = 2] on a window of only 2
    time steps, shorter than [min_full + max_low]. *)
Definition short_window_load : Py.result CurtailableLoad.t :=
  CurtailableLoad.__init__ 2 12 10 (2 / 10) (Some 1%Z) (Some 2%Z).

(** A solver that sets the power of entity 0 to 1 and that of every other
    entity to 4. *)
Definition solver_by_node : nat -> ((nat -> R) -> R) -> nat -> R :=
  fun i _ _ => match i with O => 1 | S _ => 4 end.

(** Two entities on one time step in the middle of a run: the last
    schedules are 1 and 2, the last consensus signal is 3 and the scaled
    dual is 5. *)
Definition running_params : ExchangeADMM.Params :=
  {| ExchangeADMM.p_el := Some [[1]; [2]];
     ExchangeADMM.x_ := Some [3];
     ExchangeADMM.u := Some [5] |}.

Definition running_results : ExchangeADMM.Results :=
  {| ExchangeADMM.iterations := [1%Z];
     ExchangeADMM.r_norms := [1];
     ExchangeADMM.s_norms := [1] |}.

(** Full output in the first step, two reduced steps after it. *)
Definition two_low_steps : list bool := [true; false; false; true].


End Examples.

(* ================================================================= *)
(** ** ThermalEntity (classes/thermal_entity.py) *)

Module ThermalEntity.

Local Open Scope Z_scope.

(** [a[start:stop] = values] on a 1-d numpy array: the values are written
    into the slice when there are as many of them as the slice is long, a
    single value is broadcast, and every other length raises. *)
Definition assign_slice (a : list R) (start stop : Z) (values : list R)
    : Py.result (list R) :=
  let i := Z.to_nat (Py.clip (Py.len a) start) in
  let m := Z.to_nat (Py.clip (Py.len a) stop - Py.clip (Py.len a) start) in
  if Nat.eqb (length values) m then
    Py.Ok (firstn i a ++ values ++ skipn (i + m) a)
  else
    match values with
    | [v] => Py.Ok (firstn i a ++ repeat v m ++ skipn (i + m) a)
    | _ => Py.ValueError
    end.

(** The entity: the horizons of its timer, the variables of the current
    model (one per time step of the window, named by that time step) and
    the two schedules over the whole simulation. *)
Record t : Type := mk {
  op_horizon : Z;
  simu_horizon : Z;
  P_Th_vars : list nat;
  P_Th_Schedule : list R;
  P_Th_Ref_Schedule : list R
}.

(** [__init__]. *)
Definition __init__ (op_horizon simu_horizon : Z) : t :=
  {| op_horizon := op_horizon;
     simu_horizon := simu_horizon;
     P_Th_vars := [];
     P_Th_Schedule := NumPy.zeros (Z.to_nat simu_horizon);
     P_Th_Ref_Schedule := NumPy.zeros (Z.to_nat simu_horizon) |}.

(** [populate_model]: the list of variables is emptied and refilled with
    one new variable per time step of the window. *)
Definition populate_model (self : t) : t :=
  {| op_horizon := op_horizon self;
     simu_horizon := simu_horizon self;
     P_Th_vars := [] ++ map Z.to_nat (Py.range (op_horizon self));
     P_Th_Schedule := P_Th_Schedule self;
     P_Th_Ref_Schedule := P_Th_Ref_Schedule self |}.

(** [update_schedule] at [self.timer.currentTimestep = timestep], the
    solution of the model being [x]. *)
Definition update_schedule (self : t) (x : nat -> R) (timestep : Z)
    : Py.result t :=
  let t1 := timestep in
  let t2 := t1 + op_horizon self in
  schedule <- assign_slice (P_Th_Schedule self) t1 t2
                (map x (P_Th_vars self)) ;;
  Py.Ok {| op_horizon := op_horizon self;
           simu_horizon := simu_horizon self;
           P_Th_vars := P_Th_vars self;
           P_Th_Schedule := schedule;
           P_Th_Ref_Schedule := P_Th_Ref_Schedule self |}.

End ThermalEntity.

(* ================================================================= *)
(** ** A curtailable load over its life: construction, model, update *)

Module RollingHorizon.

Import Gurobi.
Local Open Scope Z_scope.

(** A new load and its model. *)
Definition populated (op_horizon simu_horizon : Z)
    (P_El_Nom max_curtailment : R) (max_low min_full : option Z)
    (mode : string) : Py.result CurtailableLoad.t :=
  self <- CurtailableLoad.__init__ op_horizon simu_horizon P_El_Nom
            max_curtailment max_low min_full ;;
  CurtailableLoad.populate_model self mode.

(** The model after [update_model] at [timestep], the realised schedules
    being [states] and [powers]. *)
Definition updated (op_horizon simu_horizon : Z)
    (P_El_Nom max_curtailment : R) (max_low min_full : option Z)
    (mode : string) (states : list bool) (powers : list R) (timestep : Z)
    : Py.result CurtailableLoad.t :=
  self <- populated op_horizon simu_horizon P_El_Nom max_curtailment
            max_low min_full mode ;;
  CurtailableLoad.update_model
    (CurtailableLoad.with_schedule self states powers) timestep.

(** The function given to [new_var("P_State", ...)] in [__init__]:
    [lambda t: self.P_El_vars[t].x > 0.99*P_El_Nom], [x] being the solution
    of the model. *)
Definition P_State_func (P_El_Nom : R) (x : nat -> R) (t : nat) : bool :=
  if Rlt_dec (99 / 100 * P_El_Nom) (x t) then true else false.

(** The realised states before [timestep] end with exactly [n] steps in
    state [state]: the [n] steps before [timestep] are in that state, and
    the step before them, if there is one, is not. *)
Definition run_before (schedule : list bool) (timestep n : Z) (state : bool)
    : Prop :=
  1 <= n <= timestep
  /\ (forall j, timestep - n <= j < timestep ->
        Py.index schedule j = Py.Ok state)
  /\ (timestep - n - 1 < 0
      \/ Py.index schedule (timestep - n - 1) = Py.Ok (negb state)).

(** A constraint without its bound. *)
Definition shape (c : Constr) : LinExpr * sense := (lhs c, sns c).

(** Two loads that differ at most in the bounds [update_model] rewrites:
    those of the state constraints and of the energy constraints, and
    that of the start constraint when there are state constraints. *)
Definition same_up_to_bounds (self self' : CurtailableLoad.t) : Prop :=
  CurtailableLoad.P_El_Nom self = CurtailableLoad.P_El_Nom self'
  /\ CurtailableLoad.max_curt self = CurtailableLoad.max_curt self'
  /\ CurtailableLoad.max_low self = CurtailableLoad.max_low self'
  /\ CurtailableLoad.min_full self = CurtailableLoad.min_full self'
  /\ CurtailableLoad.P_El_Curt self = CurtailableLoad.P_El_Curt self'
  /\ CurtailableLoad.op_horizon self = CurtailableLoad.op_horizon self'
  /\ CurtailableLoad.P_El_vars self = CurtailableLoad.P_El_vars self'
  /\ CurtailableLoad.P_State_vars self = CurtailableLoad.P_State_vars self'
  /\ CurtailableLoad.constrs self = CurtailableLoad.constrs self'
  /\ CurtailableLoad.P_State_Schedule self
     = CurtailableLoad.P_State_Schedule self'
  /\ CurtailableLoad.P_El_Schedule self = CurtailableLoad.P_El_Schedule self'
  /\ map shape (CurtailableLoad.constr_previous_state self)
     = map shape (CurtailableLoad.constr_previous_state self')
  /\ map shape (CurtailableLoad.constr_previous self)
     = map shape (CurtailableLoad.constr_previous self')
  /\ option_map shape (CurtailableLoad.constr_previous_start self)
     = option_map shape (CurtailableLoad.constr_previous_start self')
  /\ (CurtailableLoad.constr_previous_state self = [] ->
      CurtailableLoad.constr_previous_start self
      = CurtailableLoad.constr_previous_start self').

(** The sum of the realised powers of the steps [a, ..., b - 1]. *)
Definition delivered (powers : list R) (a b : Z) : R :=
  NumPy.sum (Py.slice powers a b).

(** The state indicators of the steps [start, ..., start + n - 1] of the
    window. *)
Definition indicators (start n : nat) : list var :=
  map P_State (seq start n).

(** The constraints of the integer model, named by the time step of the
    window they belong to: the coupling of the indicator of step [k] to
    the power of step [k]; at least one indicator among those of the
    [n] steps from [k] on; when the indicator rises from step [k] to step
    [k + 1], the indicators of the [n] steps after step [k + 1]. *)
Definition coupling_at (P_El_Nom : R) (k : nat) : Constr :=
  {| lhs := [(P_El_Nom, P_State k); ((-1)%R, P_El k)];
     sns := LessEqual; RHS := Num 0 |}.

Definition one_full_among (k n : nat) : Constr :=
  {| lhs := quicksum (indicators k n); sns := GreaterEqual; RHS := Num 1 |}.

Definition stay_full_after (k n : nat) : Constr :=
  {| lhs := (IZR (Z.of_nat n), P_State (S k))
            :: ((- IZR (Z.of_nat n))%R, P_State k)
            :: minus_quicksum (indicators (k + 2) n);
     sns := LessEqual; RHS := Num 0 |}.

(** The history constraints of the integer model: the one on the first
    [n] indicators, and the one that ties the [n] indicators after step 0
    to the indicator of step 0. *)
Definition first_states (n : nat) (b : bound) : Constr :=
  {| lhs := quicksum (indicators 0 n); sns := GreaterEqual; RHS := b |}.

Definition stay_full_from_start (n : nat) (b : bound) : Constr :=
  {| lhs := (IZR (Z.of_nat n), P_State 0) :: minus_quicksum (indicators 1 n);
     sns := LessEqual; RHS := b |}.

(** The history constraint of the relaxed model on the powers of the
    first [n] steps of the window. *)
Definition first_powers (n : nat) (b : bound) : Constr :=
  {| lhs := quicksum (map P_El (seq 0 n)); sns := GreaterEqual; RHS := b |}.

(** The indicators of the steps [start, ..., start + n - 1] are binary. *)
Definition binary_on (a : var -> R) (start n : nat) : Prop :=
  forall k, (start <= k < start + n)%nat ->
    a (P_State k) = 0%R \/ a (P_State k) = 1%R.

(** The integer model of a new load with [max_low >= 1], its anonymous
    constraints being [cs]. *)
Definition integer_model (op_horizon simu_horizon : Z)
    (P_El_Nom max_curtailment : R) (max_low min_full : Z)
    (cs : list Constr) : CurtailableLoad.t :=
  {| CurtailableLoad.P_El_Nom := P_El_Nom;
     CurtailableLoad.max_curt := max_curtailment;
     CurtailableLoad.max_low := Some max_low;
     CurtailableLoad.min_full := Some min_full;
     CurtailableLoad.P_El_Curt := (P_El_Nom * max_curtailment)%R;
     CurtailableLoad.op_horizon := op_horizon;
     CurtailableLoad.P_El_vars :=
       map (fun _ => (Num (P_El_Nom * max_curtailment), Num P_El_Nom))
           (seq 0 (Z.to_nat op_horizon));
     CurtailableLoad.P_State_vars := indicators 0 (Z.to_nat op_horizon);
     CurtailableLoad.constrs := cs;
     CurtailableLoad.constr_previous_state :=
       map (fun k => first_states k NegInfinity)
           (seq 1 (Z.to_nat (Z.min (Z.max max_low (min_full - 1))
                               op_horizon)));
     CurtailableLoad.constr_previous := [];
     CurtailableLoad.constr_previous_start :=
       (if 1 <? min_full
        then Some (stay_full_from_start
                     (Z.to_nat (Z.min min_full op_horizon - 1)) Infinity)
        else None);
     CurtailableLoad.P_State_Schedule :=
       repeat false (Z.to_nat simu_horizon);
     CurtailableLoad.P_El_Schedule := repeat 0%R (Z.to_nat simu_horizon) |}.

(** The integer model after [update_model]: the realised schedules are
    [states] and [powers], the state constraints are [prev_state] and the
    start constraint, present when [min_full > 1], has the bound [b]. *)
Definition updated_model (op_horizon simu_horizon : Z)
    (P_El_Nom max_curtailment : R) (max_low min_full : Z)
    (cs : list Constr) (states : list bool) (powers : list R)
    (prev_state : list Constr) (b : bound) : CurtailableLoad.t :=
  let self :=
    CurtailableLoad.with_schedule
      (integer_model op_horizon simu_horizon P_El_Nom max_curtailment
         max_low min_full cs) states powers in
  CurtailableLoad.with_model self (CurtailableLoad.P_El_vars self)
    (CurtailableLoad.P_State_vars self) cs prev_state []
    (if 1 <? min_full
     then Some (stay_full_from_start
                  (Z.to_nat (Z.min min_full op_horizon - 1)) b)
     else None).

(** The relaxed model of a new load with [max_low >= 1], its anonymous
    constraints being [cs] and its energy constraints carrying the bounds
    [b 1], [b 2], ... *)
Definition convex_model (op_horizon simu_horizon : Z)
    (P_El_Nom max_curtailment : R) (max_low min_full : Z)
    (cs : list Constr) (b : nat -> bound) : CurtailableLoad.t :=
  {| CurtailableLoad.P_El_Nom := P_El_Nom;
     CurtailableLoad.max_curt := max_curtailment;
     CurtailableLoad.max_low := Some max_low;
     CurtailableLoad.min_full := Some min_full;
     CurtailableLoad.P_El_Curt := (P_El_Nom * max_curtailment)%R;
     CurtailableLoad.op_horizon := op_horizon;
     CurtailableLoad.P_El_vars :=
       map (fun _ => (Num (P_El_Nom * max_curtailment), Num P_El_Nom))
           (seq 0 (Z.to_nat op_horizon));
     CurtailableLoad.P_State_vars := [];
     CurtailableLoad.constrs := cs;
     CurtailableLoad.constr_previous_state := [];
     CurtailableLoad.constr_previous :=
       map (fun k => first_powers k (b k))
           (seq 1 (Z.to_nat (Z.min (max_low + min_full - 1) op_horizon)));
     CurtailableLoad.constr_previous_start := None;
     CurtailableLoad.P_State_Schedule :=
       repeat false (Z.to_nat simu_horizon);
     CurtailableLoad.P_El_Schedule := repeat 0%R (Z.to_nat simu_horizon) |}.

(** The energy a window of [max_low + min_full] steps has to deliver,
    step by step: [[P_El_Curt] * max_low + [P_El_Nom] * min_full]. *)
Definition required (P_El_Nom max_curtailment : R) (max_low min_full : Z)
    : list R :=
  repeat (P_El_Nom * max_curtailment)%R (Z.to_nat max_low)
  ++ repeat P_El_Nom (Z.to_nat min_full).

(** The energy an assignment plans for the first [k] steps of the
    window. *)
Definition planned (a : var -> R) (k : nat) : R :=
  NumPy.total (map a (map P_El (seq 0 k))).

(** The bound [update_model] writes at [timestep] into the energy
    constraint on the first [k] steps of the window: the energy required
    of the [max_low + min_full] steps that end with them, or of as many
    as lie within the simulation, less the energy delivered in those
    before the window. *)
Definition energy_due (P_El_Nom max_curtailment : R) (max_low min_full : Z)
    (powers : list R) (timestep : Z) (k : nat) : R :=
  (NumPy.sum
     (firstn (Z.to_nat (Z.min (max_low + min_full) (timestep + Z.of_nat k)))
        (required P_El_Nom max_curtailment max_low min_full))
   - delivered powers
       (Z.max 0 (timestep - (max_low + min_full - Z.of_nat k))) timestep)%R.

(** The anonymous constraints of the integer model of a window of [n]
    steps: the coupling of every step, the rule on [max_low] for every
    [max_low + 1] steps in a row, the rule on [min_full] for every step
    but the last two, and nothing else. *)
Definition integer_constraints (P_El_Nom : R) (max_low min_full : Z)
    (n : nat) (cs : list Constr) : Prop :=
  (forall k, (k < n)%nat -> In (coupling_at P_El_Nom k) cs)
  /\ (forall k, (k + Z.to_nat max_low + 1 <= n)%nat ->
        In (one_full_among k (Z.to_nat max_low + 1)) cs)
  /\ (1 < min_full -> forall k, (k + 2 < n)%nat ->
        In (stay_full_after k
              (Nat.min (Z.to_nat min_full - 1) (n - (k + 2)))) cs)
  /\ (forall c, In c cs ->
        (exists k, c = coupling_at P_El_Nom k)
        \/ (exists k, c = one_full_among k (Z.to_nat max_low + 1))
        \/ (exists k j, c = stay_full_after k j)).

End RollingHorizon.

(* ================================================================= *)
(** ** Lemmas on arrays *)

Module ArrayLemmas.

Import NumPy ExchangeADMMSpec.
Local Open Scope R_scope.

Lemma as_map_seq (v : list R) :
  v = map (fun t => nth t v 0) (seq 0 (length v)).
Proof.
  induction v as [|x v IH]; simpl; [reflexivity|].
  f_equal. rewrite <- seq_shift, map_map. exact IH.
Qed.

Lemma zipWith_map {A} (f : R -> R -> R) (g k : A -> R) (l : list A) :
  zipWith f (map g l) (map k l) = map (fun t => f (g t) (k t)) l.
Proof. induction l; simpl; congruence. Qed.

Lemma zipWith_length (f : R -> R -> R) (a b : list R) :
  length (zipWith f a b) = Nat.min (length a) (length b).
Proof.
  revert b; induction a as [|x a IH]; intros [|y b]; simpl; auto.
Qed.

Lemma zeros_map (n : nat) : zeros n = map (fun _ => 0) (seq 0 n).
Proof.
  unfold zeros. generalize 0%nat. induction n; intro; simpl; congruence.
Qed.

Lemma fold_left_plus {A} (f : A -> R) (l : list A) (a : R) :
  fold_left (fun obj t => obj + f t) l a = a + big_sum f l.
Proof.
  revert a; induction l as [|x l IH]; intro a; simpl; [lra|].
  rewrite IH. lra.
Qed.

Lemma big_sum_ext {A} (f g : A -> R) (l : list A) :
  (forall x, In x l -> f x = g x) -> big_sum f l = big_sum g l.
Proof.
  induction l as [|x l IH]; intro H; simpl; [reflexivity|].
  rewrite (H x (or_introl eq_refl)), IH; auto.
  intros; apply H; right; assumption.
Qed.

Lemma big_sum_scale {A} (c : R) (f : A -> R) (l : list A) :
  big_sum (fun x => c * f x) l = c * big_sum f l.
Proof. induction l; simpl; [lra|]. rewrite IHl. lra. Qed.

Lemma big_sum_plus {A} (f g : A -> R) (l : list A) :
  big_sum (fun x => f x + g x) l = big_sum f l + big_sum g l.
Proof. induction l; simpl; [lra|]. rewrite IHl. lra. Qed.

Lemma big_sum_map {A B} (f : B -> R) (g : A -> B) (l : list A) :
  big_sum f (map g l) = big_sum (fun x => f (g x)) l.
Proof. induction l; simpl; congruence. Qed.

(** Adding up rows of one length, entry by entry. *)
Lemma fold_left_add_rows (h : nat) (rows : list (list R)) (g : nat -> R) :
  Forall (fun row => length row = h) rows ->
  fold_left add rows (map g (seq 0 h))
  = map (fun t => g t + big_sum (fun row => nth t row 0) rows) (seq 0 h).
Proof.
  revert g; induction rows as [|r rows IH]; intros g Hall; simpl.
  - apply map_ext; intro; lra.
  - apply Forall_cons_iff in Hall as [Hr Hrows].
    rewrite (as_map_seq r) at 1. rewrite Hr.
    unfold add at 2. rewrite zipWith_map.
    fold add. rewrite IH by assumption.
    apply map_ext; intro; lra.
Qed.

Lemma skipn_1_indices {A} (d : A) (l : list A) :
  skipn 1 l = map (fun i => nth i l d) (seq 1 (length l - 1)).
Proof.
  destruct l as [|x l]; [reflexivity|].
  simpl. rewrite Nat.sub_0_r, <- seq_shift, map_map. simpl.
  clear x. induction l as [|y l IH]; simpl; [reflexivity|].
  f_equal. rewrite <- seq_shift, map_map. exact IH.
Qed.

Lemma nth_map_seq (g : nat -> R) (h t : nat) :
  (t < h)%nat -> nth t (map g (seq 0 h)) 0 = g t.
Proof.
  intro H. rewrite (nth_indep _ 0 (g 0%nat)) by (rewrite length_map, length_seq; lia).
  rewrite (map_nth g), seq_nth by assumption. reflexivity.
Qed.

End ArrayLemmas.

(* ================================================================= *)
(** ** The objective pushed into a node *)

Module ObjectiveProofs.

Import NumPy ExchangeADMMSpec ArrayLemmas.
Import ExchangeADMM.
Local Open Scope R_scope.

Lemma param_pushed (h t : nat) (g : nat -> R) :
  In t (seq 0 h) -> param (map g (seq 0 h)) t = g t.
Proof.
  intro H. apply in_seq in H. apply nth_map_seq. lia.
Qed.

Lemma linear_term (rho : R) (h : nat) (pen p : nat -> R) (a : R) :
  fold_left
    (fun obj t => obj + rho * nth t (map pen (seq 0 h)) 0 * p t)
    (seq 0 h) a
  = a + rho * big_sum (fun t => pen t * p t) (seq 0 h).
Proof.
  rewrite fold_left_plus. f_equal.
  rewrite <- big_sum_scale. apply big_sum_ext.
  intros t Ht. apply in_seq in Ht.
  rewrite nth_map_seq by lia. lra.
Qed.

Lemma quadratic_term (rho : R) (h : nat) (p : nat -> R) (a : R) :
  fold_left (fun obj t => obj + rho / 2 * p t * p t) (seq 0 h) a
  = a + rho / 2 * big_sum (fun t => p t * p t) (seq 0 h).
Proof.
  rewrite fold_left_plus. f_equal.
  rewrite <- big_sum_scale. apply big_sum_ext. intros; lra.
Qed.

(** C1 (amended).  In every iteration the objective pushed into the node of
    entity [i] is
    [beta_i * local_objective(p_i) + rho/2 * ||p_i||^2
     + rho * < sign(i) * (x + u) - lastP_i, p_i >]:
    next to the terms of the claim, the local objective carries the weight
    [beta_i] and the linear term carries the entity's last schedule. *)
Theorem add_objective_expanded (rho : R) (h : nat) (betas : nat -> R)
    (i : nat) (get_objective : (nat -> R) -> R)
    (last_p_el : list (list R)) (last_x_ last_u : list R) (p : nat -> R) :
  _add_objective rho h i get_objective
    (push_params h betas i last_p_el last_x_ last_u) p
  = expanded_objective rho h i (betas i) get_objective
      (entry last_p_el i) (param last_x_) (param last_u) p.
Proof.
  unfold _add_objective, expanded_objective, window, sign, push_params; simpl.
  destruct (Nat.eqb i 0); rewrite linear_term, quadratic_term;
    f_equal; f_equal;
    apply big_sum_ext; intros t Ht;
    rewrite !param_pushed by assumption; unfold entry, param; lra.
Qed.

(** Before the first iteration with weight 1 the last schedule is zero and
    the objective is the one of the claim. *)
Lemma add_objective_first_iteration (rho : R) (h n : nat) (i : nat)
    (get_objective : (nat -> R) -> R) (last_x_ last_u : list R)
    (p : nat -> R) :
  _add_objective rho h i get_objective
    (push_params h (fun _ => 1) i (repeat (zeros h) n) last_x_ last_u) p
  = augmented_objective rho h i get_objective
      (param last_x_) (param last_u) p.
Proof.
  assert (E : forall t, entry (repeat (zeros h) n) i t = 0).
  { intro t. unfold entry.
    destruct (Nat.lt_ge_cases i n) as [Hi|Hi].
    - rewrite (nth_indep _ [] (zeros h)) by (rewrite repeat_length; lia).
      rewrite nth_repeat. unfold zeros.
      destruct (Nat.lt_ge_cases t h).
      + rewrite nth_repeat_lt by assumption. reflexivity.
      + apply nth_overflow. rewrite repeat_length. lia.
    - rewrite (nth_overflow (repeat _ _)) by (rewrite repeat_length; lia).
      destruct t; reflexivity. }
  unfold _add_objective, augmented_objective, window, sign, push_params.
  cbn [beta xs_ us last_p_el_schedules].
  destruct (Nat.eqb i 0); rewrite linear_term, quadratic_term;
    rewrite Rmult_1_l; f_equal; f_equal;
    apply big_sum_ext; intros t Ht;
    rewrite !param_pushed by assumption;
    change (param (nth i (repeat (zeros h) n) []) t)
      with (entry (repeat (zeros h) n) i t);
    rewrite E; lra.
Qed.

(** C1 (counterexample).  Two entities, one time step, [rho = 2], weight 1,
    zero local objective, [x = u = 0], last schedule 1 for entity 1: at
    [p = 1] the code's objective is [1 - 2 = -1], the claimed one is [1]. *)
Lemma add_objective_differs_from_claim :
  _add_objective 2 1 1 (fun _ => 0)
    (push_params 1 (fun _ => 1) 1 [[0]; [1]] [0] [0]) (fun _ => 1)
  <> augmented_objective 2 1 1 (fun _ => 0) (param [0]) (param [0])
       (fun _ => 1).
Proof.
  unfold _add_objective, augmented_objective, push_params, param, window,
    big_sum, sign; simpl.
  lra.
Qed.

End ObjectiveProofs.

(* ================================================================= *)
(** ** One iteration of the exchange ADMM *)

Module IterationProofs.

Import NumPy ExchangeADMMSpec ArrayLemmas.
Import ExchangeADMM.
Local Open Scope R_scope.

Lemma nth_zipWith (f : R -> R -> R) (a b : list R) (t : nat) :
  (t < length a)%nat -> (t < length b)%nat ->
  nth t (zipWith f a b) 0 = f (nth t a 0) (nth t b 0).
Proof.
  revert b t; induction a as [|x a IH]; intros [|y b] [|t]; simpl;
    try lia; auto.
  intros; apply IH; lia.
Qed.

Lemma nth_map_R (f : R -> R) (a : list R) (t : nat) :
  (t < length a)%nat -> nth t (map f a) 0 = f (nth t a 0).
Proof.
  intro H. rewrite (nth_indep _ 0 (f 0)) by (rewrite length_map; lia).
  apply map_nth.
Qed.

Lemma eq_map_seq (l : list R) (h : nat) (g : nat -> R) :
  length l = h -> (forall t, (t < h)%nat -> nth t l 0 = g t) ->
  l = map g (seq 0 h).
Proof.
  intros Hl Hg.
  transitivity (map (fun t => nth t l 0) (seq 0 h)).
  - rewrite <- Hl. apply as_map_seq.
  - apply map_ext_in. intros t Ht. apply in_seq in Ht. apply Hg. lia.
Qed.

Lemma norm_index_last (k : nat) :
  Py.norm_index (Z.of_nat (S k)) (-1) = Some k.
Proof.
  unfold Py.norm_index. change (-1 <? 0)%Z with true. cbv iota.
  destruct (Z.leb_spec 0 (-1 + Z.of_nat (S k))); [|lia].
  destruct (Z.ltb_spec (-1 + Z.of_nat (S k)) (Z.of_nat (S k))); [|lia].
  cbn [andb]. f_equal. lia.
Qed.

Lemma last_item_app {A} (l : list A) (a : A) :
  Py.last_item (l ++ [a]) = Py.Ok a.
Proof.
  unfold Py.last_item, Py.index, Py.len.
  rewrite length_app, Nat.add_1_r, norm_index_last.
  rewrite nth_error_app2, Nat.sub_diag by lia. reflexivity.
Qed.

Lemma nth_map_combine_seq {A B} (f : nat * A -> B) (l : list A) (d : B)
    (i : nat) (e : A) :
  nth_error l i = Some e ->
  nth i (map f (combine (seq 0 (length l)) l)) d = f (i, e).
Proof.
  intro He.
  assert (Hi : (i < length l)%nat) by (apply nth_error_Some; congruence).
  rewrite (nth_indep _ d (f (i, e)))
    by (rewrite length_map, length_combine, length_seq, Nat.min_id; exact Hi).
  rewrite map_nth, combine_nth by (rewrite length_seq; reflexivity).
  rewrite seq_nth by exact Hi. simpl.
  rewrite (nth_error_nth _ _ _ He). reflexivity.
Qed.

Section Step.

Variable rho : R.
Variable h : nat.
Variable entities : list ((nat -> R) -> R).
Variable betas : nat -> R.
Variable solve_node : nat -> ((nat -> R) -> R) -> nat -> R.

Let n := length entities.

Variable params : Params.

Let last_p_el := fill_p_el h entities params.
Let last_x_ := fill_x_ h params.
Let last_u := fill_u h params.
Let p := solve_nodes rho h entities betas solve_node last_p_el last_x_ last_u.
Let x' := incentive_signal h entities p.

Lemma solve_nodes_length : length p = n.
Proof.
  unfold p, solve_nodes.
  rewrite length_map, length_combine, length_seq. apply Nat.min_id.
Qed.

Lemma solve_nodes_rows : Forall (fun row => length row = h) p.
Proof.
  apply Forall_forall. intros row Hrow.
  unfold p, solve_nodes in Hrow. apply in_map_iff in Hrow.
  destruct Hrow as [[i e] [E _]]. subst row.
  unfold extract_pyomo_values. rewrite length_map, length_seq. reflexivity.
Qed.

Lemma solve_nodes_row_length (i : nat) :
  (i < n)%nat -> length (nth i p []) = h.
Proof.
  intro Hi. pose proof solve_nodes_rows as H.
  rewrite Forall_forall in H. apply H. apply nth_In.
  rewrite solve_nodes_length. assumption.
Qed.

(** Row [i] of the fresh schedules holds the values the solver returns
    for node [i] under the objective pushed into it. *)
Lemma solve_nodes_row (i : nat) (e : (nat -> R) -> R) :
  nth_error entities i = Some e ->
  nth i p []
  = extract_pyomo_values h
      (solve_node i
         (_add_objective rho h i e
            (push_params h betas i last_p_el last_x_ last_u))).
Proof.
  intro He.
  assert (Hi : (i < n)%nat) by (apply nth_error_Some; congruence).
  unfold p, solve_nodes.
  rewrite nth_map_combine_seq with (e := e) by exact He. reflexivity.
Qed.

Hypothesis entities_nonempty : entities <> [].

Lemma n_positive : (0 < n)%nat.
Proof.
  unfold n. destruct entities; [contradiction|simpl; lia].
Qed.

Lemma incentive_signal_length : length x' = h.
Proof.
  unfold x', incentive_signal, div, add, neg.
  rewrite length_map, zipWith_length, length_map.
  rewrite (solve_nodes_row_length n_positive).
  unfold sum_rows. rewrite zeros_map, fold_left_add_rows.
  - rewrite length_map, length_seq. apply Nat.min_id.
  - pose proof solve_nodes_rows as H. rewrite Forall_forall in H.
    apply Forall_forall. intros row Hrow. apply H.
    rewrite <- (firstn_skipn 1 p). apply in_or_app. right. exact Hrow.
Qed.

Lemma incentive_signal_entry (t : nat) :
  (t < h)%nat -> nth t x' 0 = consensus n p t.
Proof.
  intro Ht.
  assert (Hrows : Forall (fun row => length row = h) (skipn 1 p)).
  { pose proof solve_nodes_rows as H. rewrite Forall_forall in H.
    apply Forall_forall. intros row Hrow. apply H.
    rewrite <- (firstn_skipn 1 p). apply in_or_app. right. exact Hrow. }
  assert (Hsum : sum_rows h (skipn 1 p)
                 = map (fun t => 0 + big_sum (fun row => nth t row 0) (skipn 1 p))
                       (seq 0 h)).
  { unfold sum_rows. rewrite zeros_map. apply fold_left_add_rows, Hrows. }
  unfold x', incentive_signal, div, add, neg.
  rewrite nth_map_R.
  2:{ rewrite zipWith_length, length_map, (solve_nodes_row_length n_positive),
        Hsum, length_map, length_seq, Nat.min_id. exact Ht. }
  rewrite nth_zipWith.
  2:{ rewrite length_map, (solve_nodes_row_length n_positive). exact Ht. }
  2:{ rewrite Hsum, length_map, length_seq. exact Ht. }
  rewrite nth_map_R by (rewrite (solve_nodes_row_length n_positive); exact Ht).
  rewrite Hsum, nth_map_seq by exact Ht.
  unfold consensus, entry. f_equal. f_equal.
  rewrite (skipn_1_indices [] p), big_sum_map, solve_nodes_length. lra.
Qed.

Hypothesis wf : wf_params h n params.

Lemma last_p_el_length : length last_p_el = n.
Proof.
  unfold last_p_el, fill_p_el. destruct wf as [Hp _].
  destruct (p_el params) as [v|].
  - apply (Hp v eq_refl).
  - apply repeat_length.
Qed.

Lemma last_p_el_row_length (i : nat) :
  (i < n)%nat -> length (nth i last_p_el []) = h.
Proof.
  intro Hi.
  assert (H : Forall (fun row => length row = h) last_p_el).
  { unfold last_p_el, fill_p_el. destruct wf as [Hp _].
    destruct (p_el params) as [v|].
    - apply (Hp v eq_refl).
    - apply Forall_forall. intros row Hrow.
      apply repeat_spec in Hrow. subst row. apply repeat_length. }
  rewrite Forall_forall in H. apply H, nth_In.
  rewrite last_p_el_length. exact Hi.
Qed.

Lemma last_x_length : length last_x_ = h.
Proof.
  unfold last_x_, fill_x_. destruct wf as [_ [Hx _]].
  destruct (x_ params) as [v|]; [apply (Hx v eq_refl)|apply repeat_length].
Qed.

Lemma last_u_length : length last_u = h.
Proof.
  unfold last_u, fill_u. destruct wf as [_ [_ Hu]].
  destruct (u params) as [v|]; [apply (Hu v eq_refl)|apply repeat_length].
Qed.

Ltac lengths :=
  repeat (rewrite zipWith_length || rewrite length_map); lia.

Lemma dual_residuals_rows :
  dual_residuals rho entities p last_p_el last_x_ x'
  = map (fun i => map (dual_residual rho p last_p_el last_x_ x' i) (seq 0 h))
        (seq 0 n).
Proof.
  pose proof n_positive as Hn.
  pose proof last_x_length as Hx.
  pose proof incentive_signal_length as Hx'.
  unfold dual_residuals. fold n.
  replace (seq 0 n) with (0%nat :: seq 1 (n - 1))
    by (destruct n; [lia|simpl; rewrite Nat.sub_0_r; reflexivity]).
  simpl map. f_equal.
  - pose proof (solve_nodes_row_length Hn) as Hp.
    pose proof (last_p_el_row_length Hn) as Hl.
    apply eq_map_seq; [unfold scale, sub, add, neg; lengths|].
    intros t Ht. unfold scale, sub, add, neg.
    rewrite nth_map_R by lengths.
    repeat rewrite nth_zipWith by lengths.
    rewrite nth_map_R by lia.
    unfold dual_residual, sign, entry. simpl. lra.
  - apply map_ext_in. intros i Hi. apply in_seq in Hi.
    assert (Hlt : (i < n)%nat) by lia.
    pose proof (solve_nodes_row_length Hlt) as Hp.
    pose proof (last_p_el_row_length Hlt) as Hl.
    apply eq_map_seq; [unfold scale, sub, add; lengths|].
    intros t Ht. unfold scale, sub, add.
    rewrite nth_map_R by lengths.
    repeat rewrite nth_zipWith by lengths.
    unfold dual_residual, sign, entry.
    destruct (Nat.eqb_spec i 0); [lia|]. lra.
Qed.

End Step.

Lemma wf_presolve (h n : nat) : wf_params h n (snd _presolve).
Proof. split; [|split]; intros v H; discriminate H. Qed.

(** The shapes are kept by an iteration. *)
Lemma wf_iteration (rho : R) (h : nat) (entities : list ((nat -> R) -> R))
    (betas : nat -> R) (solve_node : nat -> ((nat -> R) -> R) -> nat -> R)
    (results : Results) (params : Params) :
  entities <> [] -> wf_params h (length entities) params ->
  wf_params h (length entities)
    (snd (_iteration rho h entities betas solve_node (results, params))).
Proof.
  intros Hne Hwf. simpl. split; [|split]; intros v Hv; inversion Hv; subst v;
    [split|..].
  - apply solve_nodes_length.
  - apply solve_nodes_rows.
  - apply incentive_signal_length; exact Hne.
  - unfold add. rewrite zipWith_length, (last_u_length _ Hwf).
    rewrite incentive_signal_length by exact Hne. apply Nat.min_id.
Qed.

(** The arrays an iteration works with are those of the state it starts
    from. *)
Lemma last_state_read (h : nat) (entities : list ((nat -> R) -> R))
    (params : Params) (lastP : list (list R)) (lastX lastU : list R) :
  last_state h (length entities) params lastP lastX lastU ->
  fill_p_el h entities params = lastP
  /\ fill_x_ h params = lastX /\ fill_u h params = lastU.
Proof.
  unfold last_state, stored, fill_p_el, fill_x_, fill_u.
  intros [[-> | [-> ->]] [[-> | [-> ->]] [-> | [-> ->]]]];
    repeat split; reflexivity.
Qed.

(** C2.  An iteration started from the stored schedules [lastP], consensus
    signal [lastX] and scaled dual [lastU] (zeros where [params] has no
    such key yet) computes the new consensus signal
    [x' = (-p[0] + sum over i >= 1 of p[i]) / numEntities] at every time
    step of the window, where row [p[i]] holds the values just extracted
    from node [i], solved with the stored state pushed into it;
    afterwards [params] stores [x_ = x'], [u = lastU + x'] and
    [p_el = p]. *)
Theorem iteration_updates_consensus (rho : R) (h : nat)
    (entities : list ((nat -> R) -> R)) (betas : nat -> R)
    (solve_node : nat -> ((nat -> R) -> R) -> nat -> R)
    (results : Results) (params : Params)
    (lastP : list (list R)) (lastX lastU : list R) :
  entities <> [] -> wf_params h (length entities) params ->
  last_state h (length entities) params lastP lastX lastU ->
  exists x' u' : list R,
    x_ (snd (_iteration rho h entities betas solve_node (results, params)))
    = Some x'
    /\ u (snd (_iteration rho h entities betas solve_node (results, params)))
       = Some u'
    /\ p_el (snd (_iteration rho h entities betas solve_node (results, params)))
       = Some (solve_nodes rho h entities betas solve_node lastP lastX lastU)
    /\ length x' = h /\ length u' = h
    /\ (forall t, (t < h)%nat ->
          nth t x' 0
          = consensus (length entities)
              (solve_nodes rho h entities betas solve_node lastP lastX lastU)
              t)
    /\ (forall t, (t < h)%nat -> nth t u' 0 = nth t lastU 0 + nth t x' 0)
    /\ (forall i e, nth_error entities i = Some e ->
          nth i (solve_nodes rho h entities betas solve_node lastP lastX lastU)
            []
          = extract_pyomo_values h
              (solve_node i
                 (_add_objective rho h i e
                    (push_params h betas i lastP lastX lastU)))).
Proof.
  intros Hne Hwf Hlast.
  destruct (@last_state_read h entities params lastP lastX lastU Hlast)
    as [Ep [Ex Eu]].
  rewrite <- Ep, <- Ex, <- Eu. simpl.
  eexists; eexists.
  split; [reflexivity|]. split; [reflexivity|]. split; [reflexivity|].
  pose proof (incentive_signal_length rho h betas solve_node params Hne) as Hx.
  pose proof (last_u_length _ Hwf) as Hu.
  split; [exact Hx|].
  split; [unfold add; rewrite zipWith_length, Hu, Hx; apply Nat.min_id|].
  split; [intros t Ht; apply incentive_signal_entry; assumption|].
  split.
  - intros t Ht. unfold add. apply nth_zipWith; lia.
  - intros i e He. apply solve_nodes_row, He.
Qed.

Lemma wf_running : wf_params 1 2 Examples.running_params.
Proof.
  split; [|split]; intros v H; inversion H; subst v;
    [split; [reflexivity|repeat constructor]|reflexivity|reflexivity].
Qed.

Lemma last_state_running :
  last_state 1 2 Examples.running_params [[1]; [2]] [3] [5].
Proof. split; [|split]; left; reflexivity. Qed.

(** C2 (witness): two entities on one time step in the middle of a run,
    with the stored scaled dual 5: the solver returns the powers 1 and 4,
    the new consensus signal is [(-1 + 4) / 2] and the new scaled dual is
    [5 + (-1 + 4) / 2]. *)
Lemma iteration_updates_consensus_witness :
  exists x' u' : list R,
    x_ (snd (_iteration 2 1 Examples.two_entities Examples.unit_weights
               Examples.solver_by_node
               (Examples.running_results, Examples.running_params)))
    = Some x'
    /\ u (snd (_iteration 2 1 Examples.two_entities Examples.unit_weights
                 Examples.solver_by_node
                 (Examples.running_results, Examples.running_params)))
       = Some u'
    /\ nth 0 x' 0 = (- 1 + 4) / 2
    /\ nth 0 u' 0 = 5 + (- 1 + 4) / 2.
Proof.
  destruct (@iteration_updates_consensus 2 1 Examples.two_entities
              Examples.unit_weights Examples.solver_by_node
              Examples.running_results Examples.running_params
              [[1]; [2]] [3] [5])
    as [x' [u' [Hx [Hu [_ [_ [_ [Ex [Eu _]]]]]]]]].
  - discriminate.
  - exact wf_running.
  - exact last_state_running.
  - exists x', u'. split; [exact Hx|]. split; [exact Hu|].
    assert (E : nth 0 x' 0 = (- 1 + 4) / 2).
    { rewrite (Ex 0%nat) by lia.
      unfold consensus, entry, big_sum. simpl. lra. }
    split; [exact E|]. rewrite (Eu 0%nat) by lia. rewrite E. simpl. lra.
Defined.

(** C3.  An iteration started from the stored schedules [lastP] and
    consensus signal [lastX] (zeros where [params] has no such key yet)
    appends the primal residual norm [sqrt(numEntities) * ||x'||], [x']
    being the new consensus signal, and the dual residual norm [||s||],
    the norm of the stacked vectors
    [s[i] = -rho * (sign(i)*p[i] - sign(i)*lastP[i] + lastX - x')] with
    [sign(0) = -1] and [sign(i) = 1] for [i >= 1]. *)
Theorem iteration_appends_residual_norms (rho : R) (h : nat)
    (entities : list ((nat -> R) -> R)) (betas : nat -> R)
    (solve_node : nat -> ((nat -> R) -> R) -> nat -> R)
    (results : Results) (params : Params)
    (lastP : list (list R)) (lastX lastU : list R) :
  entities <> [] -> wf_params h (length entities) params ->
  last_state h (length entities) params lastP lastX lastU ->
  exists x' : list R,
    x_ (snd (_iteration rho h entities betas solve_node (results, params)))
    = Some x'
    /\ length x' = h
    /\ (forall t, (t < h)%nat ->
          nth t x' 0
          = consensus (length entities)
              (solve_nodes rho h entities betas solve_node lastP lastX lastU)
              t)
    /\ r_norms (fst (_iteration rho h entities betas solve_node
                       (results, params)))
       = r_norms results ++ [sqrt (INR (length entities)) * norm x']
    /\ s_norms (fst (_iteration rho h entities betas solve_node
                       (results, params)))
       = s_norms results
         ++ [norm (stacked_dual_residuals rho h (length entities)
                     (solve_nodes rho h entities betas solve_node
                        lastP lastX lastU)
                     lastP lastX x')].
Proof.
  intros Hne Hwf Hlast.
  destruct (@last_state_read h entities params lastP lastX lastU Hlast)
    as [Ep [Ex Eu]].
  rewrite <- Ep, <- Ex, <- Eu.
  unfold _iteration, IterationAlgorithm_iteration.
  cbn [fst snd x_ r_norms s_norms].
  eexists. split; [reflexivity|].
  split; [exact (incentive_signal_length rho h betas solve_node params Hne)|].
  split; [intros t Ht; apply incentive_signal_entry; assumption|].
  split; [reflexivity|].
  unfold stacked_dual_residuals, flatten, window.
  rewrite (dual_residuals_rows rho betas solve_node Hne Hwf). reflexivity.
Qed.

(** C3 (witness): the same state in the middle of a run; with the stored
    schedules 1 and 2 and the stored consensus signal 3 the two dual
    residuals are [-2 * (-1 + 1 + 3 - x')] and [-2 * (4 - 2 + 3 - x')]. *)
Lemma iteration_appends_residual_norms_witness :
  exists x' : list R,
    nth 0 x' 0 = (- 1 + 4) / 2
    /\ r_norms (fst (_iteration 2 1 Examples.two_entities
                       Examples.unit_weights Examples.solver_by_node
                       (Examples.running_results,
                        Examples.running_params)))
       = [1; sqrt (INR 2) * norm x']
    /\ s_norms (fst (_iteration 2 1 Examples.two_entities
                       Examples.unit_weights Examples.solver_by_node
                       (Examples.running_results,
                        Examples.running_params)))
       = [1; norm [- (2) * (-1 * 1 - -1 * 1 + 3 - nth 0 x' 0);
                   - (2) * (1 * 4 - 1 * 2 + 3 - nth 0 x' 0)]].
Proof.
  destruct (@iteration_appends_residual_norms 2 1 Examples.two_entities
              Examples.unit_weights Examples.solver_by_node
              Examples.running_results Examples.running_params
              [[1]; [2]] [3] [5])
    as [x' [_ [_ [Ex [Hr Hs]]]]].
  - discriminate.
  - exact wf_running.
  - exact last_state_running.
  - exists x'. split; [|split; [exact Hr|exact Hs]].
    rewrite (Ex 0%nat) by lia.
    unfold consensus, entry, big_sum. simpl. lra.
Defined.

End IterationProofs.

(* ================================================================= *)
(** ** The stopping test and the iteration loop *)

Module StoppingProofs.

Import NumPy ExchangeADMMSpec ArrayLemmas IterationProofs.
Import ExchangeADMM.
Local Open Scope R_scope.

Lemma le_threshold_within (norm : R) (eps : threshold) :
  le_threshold norm eps = true <-> within norm eps.
Proof.
  destruct eps as [|e|]; simpl.
  - split; [discriminate|contradiction].
  - destruct (Rle_dec norm e); split; auto; try discriminate; contradiction.
  - split; auto.
Qed.

Section Loop.

Variable rho : R.
Variable h : nat.
Variable eps_primal eps_dual : threshold.
Variable max_iterations : Z.
Variable entities : list ((nat -> R) -> R).
Variable betas : nat -> R.
Variable solve_node : nat -> ((nat -> R) -> R) -> nat -> R.

Let step := _iteration rho h entities betas solve_node.
Let cap := IterationAlgorithm_is_last_iteration max_iterations.
Let last := _is_last_iteration eps_primal eps_dual max_iterations.

(** An iteration appends one index and one pair of residual norms. *)
Lemma iteration_appends (st : Results * Params) :
  exists r s,
    r_norms (fst (step st)) = r_norms (fst st) ++ [r]
    /\ s_norms (fst (step st)) = s_norms (fst st) ++ [s]
    /\ length (iterations (fst (step st)))
       = S (length (iterations (fst st))).
Proof.
  destruct st as [results params].
  unfold step, _iteration, IterationAlgorithm_iteration.
  cbn [fst snd iterations r_norms s_norms].
  eexists; eexists. split; [reflexivity|]. split; [reflexivity|].
  rewrite length_app, Nat.add_1_r. reflexivity.
Qed.

(** The test on a state whose logs end with the pair [r], [s]. *)
Lemma is_last_iteration_value (results : Results) (rs ss : list R) (r s : R) :
  r_norms results = rs ++ [r] -> s_norms results = ss ++ [s] ->
  last results
  = Py.Ok (cap results
           || (le_threshold r eps_primal && le_threshold s eps_dual)).
Proof.
  intros Hr Hs. unfold last, _is_last_iteration. fold cap.
  destruct (cap results); [reflexivity|].
  rewrite Hr, Hs, !last_item_app. simpl.
  destruct (le_threshold r eps_primal); reflexivity.
Qed.

Lemma cap_wins (results : Results) :
  cap results = true -> last results = Py.Ok true.
Proof.
  intro H. unfold last, _is_last_iteration. fold cap. rewrite H. reflexivity.
Qed.

Lemma after_counts (k : nat) :
  length (iterations (fst (after step k _presolve))) = k
  /\ length (r_norms (fst (after step k _presolve))) = k
  /\ length (s_norms (fst (after step k _presolve))) = k.
Proof.
  induction k as [|k [Hi [Hr Hs]]]; [repeat split|].
  cbn [after].
  destruct (iteration_appends (after step k _presolve))
    as [r [s [Er [Es Ei]]]].
  rewrite Er, Es, Ei, !length_app, Hi, Hr, Hs, !Nat.add_1_r.
  repeat split.
Qed.

(** The loop returns: a state is reached in which the test holds, at the
    latest when the cap is reached. *)
Lemma iterate_returns (fuel : nat) (st : Results * Params) :
  (1 <= fuel)%nat ->
  (max_iterations <= Z.of_nat (fuel + length (iterations (fst st))))%Z ->
  exists k, (1 <= k <= fuel)%nat
    /\ iterate rho h eps_primal eps_dual max_iterations entities betas
         solve_node fuel st
       = Py.Ok (after step k st)
    /\ last (fst (after step k st)) = Py.Ok true
    /\ forall j, (1 <= j < k)%nat ->
         last (fst (after step j st)) = Py.Ok false.
Proof.
  revert st. induction fuel as [|fuel IH]; intros st Hf Hcap; [lia|].
  cbn [iterate]. fold step. fold last.
  destruct (iteration_appends st) as [r [s [Er [Es Ei]]]].
  pose proof (@is_last_iteration_value _ _ _ _ _ Er Es) as Hl.
  destruct (cap (fst (step st))
            || (le_threshold r eps_primal && le_threshold s eps_dual))%bool
    eqn:E; rewrite Hl; cbn [Py.bind].
  - exists 1%nat. cbn [after]. rewrite Hl.
    repeat split; try lia.
  - apply orb_false_iff in E. destruct E as [Ecap _].
    unfold cap, IterationAlgorithm_is_last_iteration in Ecap.
    apply Z.leb_gt in Ecap.
    destruct (IH (step st)) as [k [Hk [Hrun [Hlast Hbefore]]]]; [lia|lia|].
    assert (Hshift : forall j, after step j (step st) = after step (S j) st).
    { induction j as [|j IHj]; [reflexivity|].
      cbn [after]. rewrite IHj. reflexivity. }
    exists (S k). rewrite <- Hshift.
    split; [lia|]. split; [exact Hrun|]. split; [exact Hlast|].
    intros j Hj. destruct j as [|[|j]]; [lia|exact Hl|].
    rewrite <- Hshift. apply Hbefore. lia.
Qed.

Lemma convergence_test_needs_residual (results : Results) :
  cap results = false -> r_norms results = [] ->
  last results = Py.IndexError.
Proof.
  intros Hc Hr. unfold last, _is_last_iteration. fold cap.
  rewrite Hc, Hr. reflexivity.
Qed.

Lemma solve_returns :
  exists k, (1 <= k)%nat
    /\ solve rho h eps_primal eps_dual max_iterations entities betas
         solve_node
       = Py.Ok (after step k _presolve)
    /\ last (fst (after step k _presolve)) = Py.Ok true
    /\ forall j, (1 <= j < k)%nat ->
         last (fst (after step j _presolve)) = Py.Ok false.
Proof.
  unfold solve.
  destruct (@iterate_returns (Nat.max 1 (Z.to_nat max_iterations)) _presolve)
    as [k [Hk H]]; [lia|cbn [_presolve fst iterations length]; lia|].
  exists k. split; [lia|exact H].
Qed.

End Loop.

Lemma solve_infinite_thresholds (rho : R) (h : nat) (max_iterations : Z)
    (entities : list ((nat -> R) -> R)) (betas : nat -> R)
    (solve_node : nat -> ((nat -> R) -> R) -> nat -> R) :
  solve rho h PosInf PosInf max_iterations entities betas solve_node
  = Py.Ok (_iteration rho h entities betas solve_node _presolve).
Proof.
  unfold solve.
  destruct (Nat.max 1 (Z.to_nat max_iterations)) as [|fuel] eqn:E; [lia|].
  cbn [iterate].
  destruct (iteration_appends rho h entities betas solve_node _presolve)
    as [r [s [Er [Es _]]]].
  rewrite (@is_last_iteration_value PosInf PosInf max_iterations _ _ _ _ _ Er Es).
  cbn [le_threshold andb]. rewrite orb_true_r. reflexivity.
Qed.

(** C4.  After every iteration the loop is terminal if and only if the
    iteration cap is reached or [r_k <= eps_primal] and [s_k <= eps_dual],
    for the pair of norms that iteration appended.  The cap is tested
    first and decides alone, also on a log without residuals, where the
    convergence test would fail.  In a run the test after iteration [k]
    finds [k] pairs of residual norms, so it is first evaluated with one
    pair at hand, between the first and the second iteration, and the run
    returns at the first iteration whose test holds. *)
Theorem is_last_iteration_rule (rho : R) (h : nat)
    (eps_primal eps_dual : threshold) (max_iterations : Z)
    (entities : list ((nat -> R) -> R)) (betas : nat -> R)
    (solve_node : nat -> ((nat -> R) -> R) -> nat -> R) :
  (forall st, exists r s b,
      r_norms (fst (_iteration rho h entities betas solve_node st))
      = r_norms (fst st) ++ [r]
      /\ s_norms (fst (_iteration rho h entities betas solve_node st))
         = s_norms (fst st) ++ [s]
      /\ _is_last_iteration eps_primal eps_dual max_iterations
           (fst (_iteration rho h entities betas solve_node st))
         = Py.Ok b
      /\ (b = true <->
          IterationAlgorithm_is_last_iteration max_iterations
            (fst (_iteration rho h entities betas solve_node st)) = true
          \/ (within r eps_primal /\ within s eps_dual)))
  /\ (forall results,
        IterationAlgorithm_is_last_iteration max_iterations results = true ->
        _is_last_iteration eps_primal eps_dual max_iterations results
        = Py.Ok true)
  /\ (forall results,
        IterationAlgorithm_is_last_iteration max_iterations results = false ->
        r_norms results = [] ->
        _is_last_iteration eps_primal eps_dual max_iterations results
        = Py.IndexError)
  /\ (forall k,
        length (r_norms (fst (after (_iteration rho h entities betas solve_node)
                                k _presolve))) = k
        /\ length (s_norms (fst (after (_iteration rho h entities betas
                                          solve_node) k _presolve))) = k)
  /\ (exists k, (1 <= k)%nat
        /\ solve rho h eps_primal eps_dual max_iterations entities betas
             solve_node
           = Py.Ok (after (_iteration rho h entities betas solve_node)
                      k _presolve)
        /\ _is_last_iteration eps_primal eps_dual max_iterations
             (fst (after (_iteration rho h entities betas solve_node)
                     k _presolve))
           = Py.Ok true
        /\ forall j, (1 <= j < k)%nat ->
             _is_last_iteration eps_primal eps_dual max_iterations
               (fst (after (_iteration rho h entities betas solve_node)
                       j _presolve))
             = Py.Ok false).
Proof.
  split; [|split; [|split; [|split]]].
  - intro st.
    destruct (iteration_appends rho h entities betas solve_node st)
      as [r [s [Er [Es _]]]].
    exists r, s. eexists. split; [exact Er|]. split; [exact Es|].
    split; [apply (@is_last_iteration_value eps_primal eps_dual
                     max_iterations _ _ _ _ _ Er Es)|].
    rewrite orb_true_iff, andb_true_iff, !le_threshold_within. reflexivity.
  - apply cap_wins.
  - apply convergence_test_needs_residual.
  - intro k.
    destruct (after_counts rho h entities betas solve_node k) as [_ H].
    exact H.
  - apply solve_returns.
Qed.

(** C5 (amended).  With [eps_primal = eps_dual = +infinity] and an
    iteration cap [N > 1] the run stops after exactly one iteration,
    before the cap: the first convergence test already holds. *)
Theorem infinite_thresholds_one_iteration (rho : R) (h : nat)
    (max_iterations : Z) (entities : list ((nat -> R) -> R))
    (betas : nat -> R) (solve_node : nat -> ((nat -> R) -> R) -> nat -> R) :
  (1 < max_iterations)%Z ->
  exists st,
    solve rho h PosInf PosInf max_iterations entities betas solve_node
    = Py.Ok st
    /\ st = _iteration rho h entities betas solve_node _presolve
    /\ length (iterations (fst st)) = 1%nat
    /\ length (r_norms (fst st)) = 1%nat
    /\ length (s_norms (fst st)) = 1%nat
    /\ (Z.of_nat (length (iterations (fst st))) < max_iterations)%Z.
Proof.
  intro Hcap.
  eexists. split; [apply solve_infinite_thresholds|].
  split; [reflexivity|].
  destruct (after_counts rho h entities betas solve_node 1) as [Hi [Hr Hs]].
  cbn [after] in Hi, Hr, Hs.
  split; [exact Hi|]. split; [exact Hr|]. split; [exact Hs|].
  rewrite Hi. exact Hcap.
Qed.

(** C5 (witness): two entities, one time step and a cap of 3. *)
Lemma infinite_thresholds_one_iteration_witness :
  exists st,
    solve 2 1 PosInf PosInf 3 Examples.two_entities Examples.unit_weights
      Examples.solver_one = Py.Ok st
    /\ length (iterations (fst st)) = 1%nat
    /\ (Z.of_nat (length (iterations (fst st))) < 3)%Z.
Proof.
  destruct (@infinite_thresholds_one_iteration 2 1 3 Examples.two_entities
              Examples.unit_weights Examples.solver_one)
    as [st [E [_ [Hi [_ [_ Hlt]]]]]].
  - lia.
  - exists st. split; [exact E|]. split; [exact Hi|exact Hlt].
Defined.

(** C5 (counterexample).  Two entities, one time step, infinite thresholds
    and an iteration cap of 3: the run does not execute 3 iterations. *)
Lemma infinite_thresholds_miss_cap :
  ~ exists st,
      solve 2 1 PosInf PosInf 3 Examples.two_entities Examples.unit_weights
        Examples.solver_one = Py.Ok st
      /\ length (iterations (fst st)) = 3%nat.
Proof.
  intros [st [H L]].
  rewrite solve_infinite_thresholds in H. injection H as <-.
  cbn [fst iterations length] in L. discriminate L.
Qed.

End StoppingProofs.

(* ================================================================= *)
(** ** Construction of a curtailable load *)

Module ConstructionProofs.

Import Gurobi CurtailableLoadSpec.
Local Open Scope Z_scope.

Lemma check_arguments_ok (max_low min_full : option Z) :
  CurtailableLoad.check_arguments max_low min_full = Py.Ok tt
  \/ CurtailableLoad.check_arguments max_low min_full = Py.AssertionError.
Proof.
  destruct max_low as [l|], min_full as [f|]; simpl; auto.
  destruct (1 <=? f), (0 <=? l); simpl; auto.
Qed.

Lemma check_arguments_fails (max_low min_full : option Z) :
  CurtailableLoad.check_arguments max_low min_full = Py.AssertionError
  <-> invalid_configuration max_low min_full.
Proof.
  unfold invalid_configuration.
  destruct max_low as [l|], min_full as [f|]; simpl.
  - destruct (Z.leb_spec 1 f) as [Hf|Hf], (Z.leb_spec 0 l) as [Hl|Hl];
      simpl; split; try discriminate; try reflexivity.
    + intros [[H _]|[[_ H]|[[f' [E H]]|[l' [E H]]]]];
        try discriminate; inversion E; lia.
    + intros _. right; right; right. exists l. split; [reflexivity|lia].
    + intros _. right; right; left. exists f. split; [reflexivity|lia].
    + intros _. right; right; left. exists f. split; [reflexivity|lia].
  - split; [|reflexivity]. intros _. right; left. split; congruence.
  - split; [|reflexivity]. intros _. left. split; congruence.
  - split; [discriminate|].
    intros [[_ H]|[[H _]|[[f' [E _]]|[l' [E _]]]]];
      try discriminate; contradiction.
Qed.

(** C8.  Constructing a curtailable load fails, with an assertion error
    raised inside the constructor, if and only if exactly one of [max_low]
    and [min_full] is supplied, or [min_full < 1], or [max_low < 0]; for
    every other combination the constructor returns the load. *)
Theorem init_fails_iff_invalid (op_horizon simu_horizon : Z)
    (P_El_Nom max_curtailment : R) (max_low min_full : option Z) :
  (CurtailableLoad.__init__ op_horizon simu_horizon P_El_Nom max_curtailment
     max_low min_full = Py.AssertionError
   <-> invalid_configuration max_low min_full)
  /\ ((exists self,
         CurtailableLoad.__init__ op_horizon simu_horizon P_El_Nom
           max_curtailment max_low min_full = Py.Ok self
         /\ CurtailableLoad.max_low self = max_low
         /\ CurtailableLoad.min_full self = min_full
         /\ CurtailableLoad.constr_previous_state self = []
         /\ CurtailableLoad.constr_previous self = []
         /\ CurtailableLoad.constr_previous_start self = None)
      <-> ~ invalid_configuration max_low min_full).
Proof.
  rewrite <- check_arguments_fails. unfold CurtailableLoad.__init__.
  destruct (check_arguments_ok max_low min_full) as [E|E]; rewrite E; simpl.
  - split; [split; discriminate|].
    split; [intros _; discriminate|].
    intros _. eexists. split; [reflexivity|]. repeat split.
  - split; [split; reflexivity|].
    split; [intros [self [H _]]; discriminate H|].
    intro H. exfalso. apply H. reflexivity.
Qed.

End ConstructionProofs.

(* ================================================================= *)
(** ** A load that may never be curtailed *)

Module AlwaysFullProofs.

Import Gurobi CurtailableLoadSpec.
Import CurtailableLoad.
Local Open Scope Z_scope.

Lemma range_length (n : Z) : length (Py.range n) = Z.to_nat n.
Proof. unfold Py.range. rewrite length_map, length_seq. reflexivity. Qed.

(** C10.  With [max_low = 0], [populate_model] in convex and in integer
    mode gives every power variable of the window the lower bound
    [P_El_Nom] (next to the upper bound [P_El_Nom]), creates no state
    variable and no constraint, so that the feasible assignments are
    exactly those at nominal power in every time step of the window. *)
Theorem populate_max_low_zero (op_horizon simu_horizon : Z)
    (nominal max_curtailment : R) (f : Z) (mode : string) :
  mode = "convex"%string \/ mode = "integer"%string -> 1 <= f ->
  exists self0 self,
    __init__ op_horizon simu_horizon nominal max_curtailment
      (Some 0) (Some f) = Py.Ok self0
    /\ populate_model self0 mode = Py.Ok self
    /\ P_El_vars self
       = map (fun _ => (Num nominal, Num nominal)) (Py.range op_horizon)
    /\ P_State_vars self = []
    /\ constrs self = []
    /\ history_constraints self = []
    /\ forall a, feasible self a
         <-> forall t, (t < Z.to_nat op_horizon)%nat -> a (P_El t) = nominal.
Proof.
  intros Hmode Hf.
  unfold __init__, check_arguments.
  destruct (Z.leb_spec 1 f) as [_|]; [|lia]. simpl Py.bind.
  eexists. eexists. split; [reflexivity|].
  assert (Em : (String.eqb mode "convex" || String.eqb mode "integer")%bool
               = true)
    by (destruct Hmode as [-> | ->]; reflexivity).
  unfold populate_model. rewrite Em. cbn -[String.eqb Py.range].
  split; [reflexivity|].
  unfold set_lb, set_bounds, ElectricalEntity_populate_model, with_model,
    op_time_vec, history_constraints.
  cbn -[Py.range]. rewrite !map_map. cbn [snd].
  split; [reflexivity|]. split; [reflexivity|]. split; [reflexivity|].
  split; [reflexivity|].
  intro a.
  unfold feasible, feasible_in_window, within_bounds, binary_states,
    history_constraints.
  cbn -[Py.range nth_error].
  split.
  - intros [[Hb _] _] t Ht.
    destruct (Hb t (Num nominal) (Num nominal)) as [Hl Hu].
    + rewrite nth_error_map.
      destruct (nth_error (Py.range op_horizon) t) eqn:E; [reflexivity|].
      apply nth_error_None in E. rewrite range_length in E. lia.
    + simpl in Hl, Hu. apply Rle_antisym; assumption.
  - intro H.
    assert (Hb : forall k lb ub,
               nth_error
                 (map (fun _ : Z => (Num nominal, Num nominal))
                    (Py.range op_horizon)) k = Some (lb, ub) ->
               ge_bound (a (P_El k)) lb /\ le_bound (a (P_El k)) ub).
    { intros k lb ub E. rewrite nth_error_map in E.
      destruct (nth_error (Py.range op_horizon) k) eqn:Ek; [|discriminate].
      inversion E; subst. simpl. rewrite H; [split; apply Rle_refl|].
      rewrite <- range_length. apply nth_error_Some. congruence. }
    split; [split; [exact Hb|split; [intros v []|constructor]]|constructor].
Qed.

(** C10 (witness): a window of 6 time steps, nominal power 10, integer
    mode. *)
Lemma populate_max_low_zero_witness :
  exists self0 self,
    __init__ 6 12 10 (2 / 10) (Some 0) (Some 2) = Py.Ok self0
    /\ populate_model self0 "integer" = Py.Ok self
    /\ P_State_vars self = []
    /\ history_constraints self = [].
Proof.
  destruct (@populate_max_low_zero 6 12 10 (2 / 10) 2 "integer")
    as [self0 [self [H0 [H1 [_ [H2 [_ [H3 _]]]]]]]].
  - right; reflexivity.
  - lia.
  - exists self0, self. repeat split; assumption.
Defined.

End AlwaysFullProofs.

(* ================================================================= *)
(** ** The backward scan over the realised states *)

Module ScanProofs.

Import CurtailableLoadSpec.
Import CurtailableLoad.
Local Open Scope Z_scope.

Lemma index_in_range {A} (l : list A) (j : Z) :
  0 <= j < Py.len l -> exists a, Py.index l j = Py.Ok a.
Proof.
  intro H. unfold Py.index, Py.norm_index.
  destruct (Z.ltb_spec j 0); [lia|].
  destruct (Z.leb_spec 0 j); [|lia].
  destruct (Z.ltb_spec j (Py.len l)); [|lia].
  cbn [andb].
  destruct (nth_error l (Z.to_nat j)) as [a|] eqn:E; [eauto|].
  apply nth_error_None in E. unfold Py.len in H. lia.
Qed.

Section Scan.

Variable schedule : list bool.
Variable max_low timestep : Z.

Hypothesis in_simulation : timestep <= Py.len schedule.
Hypothesis rule : max_low_rule schedule timestep max_low.

(** The scan started with [low_ts] low steps already counted ends with a
    count of at most [max_low], and no assertion fails on the way. *)
Lemma count_low_bounded (fuel : nat) :
  forall low_ts,
    1 <= low_ts <= timestep ->
    (forall j, timestep - low_ts <= j < timestep ->
       Py.index schedule j = Py.Ok false) ->
    (Z.to_nat (timestep - low_ts) < fuel)%nat ->
    exists r,
      count_low fuel schedule max_low timestep low_ts = Py.Ok r
      /\ low_ts <= r <= max_low
      /\ (forall j, timestep - r <= j < timestep ->
            Py.index schedule j = Py.Ok false)
      /\ (timestep - r - 1 < 0
          \/ Py.index schedule (timestep - r - 1) = Py.Ok true).
Proof.
  induction fuel as [|fuel IH]; intros low_ts Hts Hlow Hfuel; [lia|].
  assert (Hmax : low_ts <= max_low).
  { apply (rule (start := timestep - low_ts)); try lia.
    intros j Hj. apply Hlow. lia. }
  cbn [count_low].
  destruct (Z.leb_spec 0 (timestep - low_ts - 1)) as [Hge|Hlt].
  - destruct (@index_in_range _ schedule (timestep - low_ts - 1))
      as [state Hstate]; [lia|].
    rewrite Hstate. cbn [Py.bind].
    destruct state; cbn [negb].
    + exists low_ts. repeat split; try lia; auto.
    + assert (Hlow' : forall j, timestep - (low_ts + 1) <= j < timestep ->
                        Py.index schedule j = Py.Ok false).
      { intros j Hj.
        destruct (Z.eq_dec j (timestep - low_ts - 1)) as [->|Hne];
          [exact Hstate|apply Hlow; lia]. }
      assert (Hmax' : low_ts + 1 <= max_low).
      { apply (rule (start := timestep - (low_ts + 1))); try lia.
        intros j Hj. apply Hlow'. lia. }
      unfold Py.assert.
      destruct (Z.leb_spec low_ts max_low); [|lia]. cbn [Py.bind].
      destruct (IH (low_ts + 1)) as [r [Hr [Hb Hrest]]];
        [lia|exact Hlow'|lia|].
      exists r. split; [exact Hr|]. split; [lia|exact Hrest].
  - exists low_ts. repeat split; try lia; auto.
Qed.

End Scan.

(** C9.  When the realised states before the current time step never stay
    below full output for more than [max_low] consecutive steps and the
    previous step was below full output, the backward scan of
    [update_model] returns a count between 1 and [max_low]: the assertion
    [low_ts <= max_low] inside the loop does not fail. *)
Theorem count_low_within_max_low (schedule : list bool)
    (max_low timestep : Z) :
  1 <= timestep <= Py.len schedule ->
  Py.index schedule (timestep - 1) = Py.Ok false ->
  max_low_rule schedule timestep max_low ->
  exists low_ts,
    count_low (Z.to_nat timestep) schedule max_low timestep 1 = Py.Ok low_ts
    /\ 1 <= low_ts <= max_low
    /\ (forall j, timestep - low_ts <= j < timestep ->
          Py.index schedule j = Py.Ok false).
Proof.
  intros Hts Hprev Hrule.
  destruct (@count_low_bounded schedule max_low timestep (proj2 Hts) Hrule
              (Z.to_nat timestep) 1)
    as [r [Hr [Hb [Hlow _]]]].
  - lia.
  - intros j Hj. replace j with (timestep - 1) by lia. exact Hprev.
  - lia.
  - exists r. split; [exact Hr|]. split; [lia|exact Hlow].
Qed.

(** C9 (witness): one step at full output followed by two reduced steps,
    scanned at time step 3 with [max_low = 2]: the loop body with its
    assertion is passed once and the scan counts 2. *)
Lemma count_low_within_max_low_witness :
  exists low_ts,
    count_low (Z.to_nat 3) Examples.two_low_steps 2 3 1 = Py.Ok low_ts
    /\ low_ts = 2
    /\ (forall j, 3 - low_ts <= j < 3 ->
          Py.index Examples.two_low_steps j = Py.Ok false).
Proof.
  destruct (@count_low_within_max_low Examples.two_low_steps 2 3)
    as [low_ts [H [Hb Hlow]]].
  - unfold Py.len; simpl; lia.
  - reflexivity.
  - intros start n H0 H1 H2 Hall.
    destruct (Z.le_gt_cases n 2) as [Hle|Hgt]; [exact Hle|].
    exfalso. assert (Hstart : start = 0) by lia. subst start.
    assert (E : Py.index Examples.two_low_steps 0 = Py.Ok false)
      by (apply Hall; lia).
    discriminate E.
  - exists low_ts. split; [exact H|]. split; [|exact Hlow].
    assert (E : count_low (Z.to_nat 3) Examples.two_low_steps 2 3 1
                = Py.Ok 2) by reflexivity.
    rewrite E in H. injection H as <-. reflexivity.
Defined.

End ScanProofs.

(* ================================================================= *)
(** ** The rolling-horizon example *)

Module ExampleProofs.

Import Gurobi CurtailableLoadSpec.
Import CurtailableLoad.
Local Open Scope Z_scope.

(** A single reduced step before the window is counted as one. *)
Lemma count_low_single (states : list bool) (max_low timestep : Z) :
  1 <= timestep ->
  timestep = 1 \/ Py.index states (timestep - 2) = Py.Ok true ->
  count_low (Z.to_nat timestep) states max_low timestep 1 = Py.Ok 1.
Proof.
  intros Hts Hbefore.
  destruct (Z.to_nat timestep) as [|fuel] eqn:E; [lia|].
  cbn [count_low].
  destruct (Z.leb_spec 0 (timestep - 1 - 1)) as [Hge|Hlt]; [|reflexivity].
  destruct Hbefore as [->|Hfull]; [lia|].
  replace (timestep - 1 - 1) with (timestep - 2) by lia.
  rewrite Hfull. reflexivity.
Qed.

Ltac split_constraints :=
  repeat match goal with
         | H : Forall _ (_ :: _) |- _ =>
             apply Forall_cons_iff in H; destruct H
         | H : Forall _ [] |- _ => clear H
         end.

(** C6 (amended).  Nominal power 10, curtailed power 2, [max_low = 2],
    [min_full = 2], a window of 6 steps, the load below full output in
    exactly the one step before the window.  In integer mode
    [update_model] rewrites the bounds of the history constraints with
    the constants of the code, not with the length of the forced run: the
    constraint on the first two state indicators becomes
    [P_State[0] + P_State[1] >= 1], one full step being due within
    [max_low - 1 + 1 = 2] steps, the other state constraint stays at minus
    infinity and the start constraint becomes
    [P_State[0] - P_State[1] <= 0].  Every feasible assignment then runs
    at full output from step 0 or from step 1 on for two consecutive
    steps, and such assignments exist. *)
Theorem example_forces_full_run (states : list bool) (powers : list R)
    (timestep : Z) :
  1 <= timestep ->
  Py.index states (timestep - 1) = Py.Ok false ->
  timestep = 1 \/ Py.index states (timestep - 2) = Py.Ok true ->
  exists self start,
    Examples.example_update states powers timestep = Py.Ok self
    /\ constr_previous_state self
       = [ {| lhs := quicksum [P_State 0];
              sns := GreaterEqual; RHS := NegInfinity |};
           {| lhs := quicksum [P_State 0; P_State 1];
              sns := GreaterEqual; RHS := Num 1 |} ]
    /\ constr_previous_start self = Some start
    /\ sns start = LessEqual /\ RHS start = Num 0
    /\ (forall a, feasible self a ->
          full_run_of_two 10 a 0 \/ full_run_of_two 10 a 1)
    /\ feasible self (Examples.always_full 10).
Proof.
  intros Hts Hprev Hbefore.
  unfold Examples.example_update.
  set (m := Examples.example_model).
  cbv -[Rplus Rmult Rdiv Ropp IZR Rinv Rminus] in m. subst m.
  cbn [Py.bind]. unfold update_model, with_schedule.
  cbn [constr_previous_state constr_previous Py.len length].
  destruct (Z.eqb_spec timestep 0) as [|_]; [lia|].
  cbn [negb andb Z.of_nat Z.ltb Z.compare Pos.of_succ_nat Pos.succ].
  unfold update_integer.
  cbn [P_State_Schedule constr_previous_state constr_previous_start
       constr_previous max_low min_full op_horizon].
  rewrite Hprev. cbn [Py.bind].
  rewrite (count_low_single states 2 Hts Hbefore). cbn [Py.bind].
  cbv -[Rplus Rmult Rdiv Ropp IZR Rinv Rminus feasible full_run_of_two
        Examples.always_full].
  eexists. eexists. split; [reflexivity|].
  split; [reflexivity|]. split; [reflexivity|].
  split; [reflexivity|]. split; [reflexivity|].
  split.
  - intros a [[Hb [Hbin Hc]] Hh].
    pose proof (Hb 0%nat _ _ eq_refl) as [L0 U0].
    pose proof (Hb 1%nat _ _ eq_refl) as [L1 U1].
    pose proof (Hb 2%nat _ _ eq_refl) as [L2 U2].
    pose proof (Hbin (P_State 0) (or_introl eq_refl)) as B0.
    pose proof (Hbin (P_State 1) (or_intror (or_introl eq_refl))) as B1.
    pose proof (Hbin (P_State 2)
                  (or_intror (or_intror (or_introl eq_refl)))) as B2.
    clear Hb Hbin.
    cbn [constrs history_constraints constr_previous_state constr_previous
         constr_previous_start option_list app] in Hc, Hh.
    split_constraints.
    unfold satisfies, eval, ge_bound, le_bound in *.
    cbn [lhs sns RHS fold_right fst snd] in *.
    unfold full_run_of_two.
    destruct B0 as [B0|B0], B1 as [B1|B1], B2 as [B2|B2];
      rewrite ?B0, ?B1, ?B2 in *;
      try (left; repeat split; lra);
      try (right; repeat split; lra);
      exfalso; lra.
  - unfold feasible, feasible_in_window, within_bounds, binary_states.
    cbn [constrs history_constraints constr_previous_state constr_previous
         constr_previous_start option_list app P_El_vars P_State_vars].
    split; [split; [|split]|].
    + intros k lb ub E.
      do 6 (destruct k as [|k];
            [inversion E; subst; simpl; split; lra|]).
      destruct k; discriminate E.
    + intros v Hin. right. simpl in Hin.
      repeat destruct Hin as [<-|Hin]; try reflexivity. contradiction.
    + repeat constructor; unfold satisfies; simpl; lra.
    + repeat constructor; unfold satisfies; simpl; lra.
Qed.

(** C6 (witness): full output in step 0, reduced output in step 1, the
    window starting at time step 2. *)
Lemma example_forces_full_run_witness :
  exists self,
    Examples.example_update Examples.one_low_step Examples.some_powers 2
    = Py.Ok self
    /\ feasible self (Examples.always_full 10).
Proof.
  destruct (@example_forces_full_run Examples.one_low_step
              Examples.some_powers 2)
    as [self [start [H [_ [_ [_ [_ [_ F]]]]]]]].
  - lia.
  - reflexivity.
  - right; reflexivity.
  - exists self. split; assumption.
Defined.

(** C6 (counterexample).  In the example, with the load below full output
    in step 1 only and the window starting at time step 2, the forced run
    is [min_full = 2] steps long, and the bounds of the history
    constraints after [update_model] are minus infinity, 1 and 0: none
    of them is 2. *)
Lemma example_bound_is_not_run_length :
  exists self,
    Examples.example_update Examples.one_low_step Examples.some_powers 2
    = Py.Ok self
    /\ min_full self = Some 2
    /\ map RHS (history_constraints self) = [NegInfinity; Num 1; Num 0]
    /\ ~ In (Num 2) (map RHS (history_constraints self)).
Proof.
  unfold Examples.example_update, Examples.example_model,
    Examples.example_load.
  cbv -[Rplus Rmult Rdiv Ropp IZR Rinv Rminus].
  eexists. split; [reflexivity|]. split; [reflexivity|].
  split; [reflexivity|].
  intros [H|[H|[H|[]]]]; try discriminate H; injection H as H; lra.
Qed.

End ExampleProofs.

(* ================================================================= *)
(** ** Lemmas on slices and loops *)

Module SliceLemmas.

Import Gurobi.
Import CurtailableLoad.
Local Open Scope Z_scope.

Lemma clip_nonneg (n i : Z) : 0 <= i -> Py.clip n i = Z.min i n.
Proof. intro H. unfold Py.clip. destruct (Z.ltb_spec i 0); [lia|reflexivity]. Qed.

Lemma clip_neg (n i : Z) : i < 0 -> Py.clip n i = Z.max 0 (i + n).
Proof. intro H. unfold Py.clip. destruct (Z.ltb_spec i 0); [reflexivity|lia]. Qed.

Lemma len_nonneg {A} (l : list A) : 0 <= Py.len l.
Proof. unfold Py.len. lia. Qed.

(** The length of [l[a:b]] for bounds from the front. *)
Lemma slice_len {A} (l : list A) (a b : Z) :
  0 <= a -> 0 <= b ->
  Py.len (Py.slice l a b)
  = Z.max 0 (Z.min b (Py.len l) - Z.min a (Py.len l)).
Proof.
  intros Ha Hb. unfold Py.slice.
  rewrite !clip_nonneg by assumption.
  unfold Py.len. rewrite length_firstn, length_skipn. lia.
Qed.

(** [l[:b]] for [0 <= b <= len(l)] is the prefix of length [b]. *)
Lemma slice_to_prefix {A} (l : list A) (b : Z) :
  0 <= b <= Py.len l -> Py.slice_to l b = firstn (Z.to_nat b) l.
Proof.
  intro H. unfold Py.slice_to, Py.slice.
  rewrite !clip_nonneg by lia.
  replace (Z.min 0 (Py.len l)) with 0 by (pose proof (len_nonneg l); lia).
  simpl skipn. f_equal. lia.
Qed.

(** [l[:b]] for [-len(l) <= b < 0] drops the last [-b] items. *)
Lemma slice_to_negative {A} (l : list A) (b : Z) :
  b < 0 -> Py.slice_to l b = firstn (Z.to_nat (Py.len l + b)) l.
Proof.
  intro H. unfold Py.slice_to, Py.slice.
  rewrite (@clip_nonneg _ 0), clip_neg by lia.
  replace (Z.min 0 (Py.len l)) with 0 by (pose proof (len_nonneg l); lia).
  simpl skipn. f_equal. lia.
Qed.

Lemma range_len (n : Z) : Py.len (Py.range n) = Z.max 0 n.
Proof.
  unfold Py.len, Py.range. rewrite length_map, length_seq. lia.
Qed.

Lemma in_range (n t : Z) : In t (Py.range n) <-> 0 <= t < n.
Proof.
  unfold Py.range. rewrite in_map_iff. split.
  - intros [k [<- Hk]]. apply in_seq in Hk. lia.
  - intro H. exists (Z.to_nat t). split; [lia|]. apply in_seq. lia.
Qed.

Lemma firstn_of_seq (k start m : nat) :
  firstn k (seq start m) = seq start (Nat.min k m).
Proof.
  revert start m; induction k as [|k IH]; intros start [|m]; simpl;
    try reflexivity.
  rewrite IH. reflexivity.
Qed.

Lemma in_firstn_range (n t : Z) (k : nat) :
  In t (firstn k (Py.range n)) <-> 0 <= t < Z.min (Z.of_nat k) n.
Proof.
  unfold Py.range. rewrite firstn_map, firstn_of_seq, in_map_iff. split.
  - intros [j [<- Hj]]. apply in_seq in Hj. lia.
  - intro H. exists (Z.to_nat t). split; [lia|]. apply in_seq. lia.
Qed.

(** The time steps of [range(n)[:b]] for a negative bound [b]. *)
Lemma in_range_slice_to_negative (n b t : Z) :
  b < 0 -> In t (Py.slice_to (Py.range n) b) <-> 0 <= t < n + b.
Proof.
  intro Hb. rewrite slice_to_negative by assumption.
  rewrite in_firstn_range, range_len. lia.
Qed.

(** A loop whose passes all succeed succeeds. *)
Lemma for_each_ok (xs : list Z) (body : Z -> Py.result (list Constr)) :
  (forall x, In x xs -> exists cs, body x = Py.Ok cs) ->
  exists cs, for_each xs body = Py.Ok cs.
Proof.
  induction xs as [|x xs IH]; intro H; cbn [for_each]; [eauto|].
  destruct (H x (or_introl eq_refl)) as [cs E]. rewrite E. cbn [Py.bind].
  destruct IH as [cs' E']; [intros; apply H; right; assumption|].
  rewrite E'. cbn [Py.bind]. eauto.
Qed.

(** What a loop adds comes from its passes. *)
Lemma for_each_in (xs : list Z) (body : Z -> Py.result (list Constr))
    (cs : list Constr) (c : Constr) :
  for_each xs body = Py.Ok cs ->
  In c cs <-> exists x cs', In x xs /\ body x = Py.Ok cs' /\ In c cs'.
Proof.
  revert cs; induction xs as [|x xs IH]; intros cs; cbn [for_each].
  - intro E. inversion E. split; [intros []|intros [x [cs' [[] _]]]].
  - destruct (body x) as [c1| | | | |] eqn:E1; cbn [Py.bind]; try discriminate.
    destruct (for_each xs body) as [c2| | | | |]; cbn [Py.bind];
      try discriminate.
    intro E. inversion E; subst cs. rewrite in_app_iff, (IH c2 eq_refl).
    split.
    + intros [H|[y [cs' [Hy [Ey Hc]]]]].
      * exists x, c1. repeat split; auto. left; reflexivity.
      * exists y, cs'. repeat split; auto. right; assumption.
    + intros [y [cs' [[<-|Hy] [Ey Hc]]]].
      * left. rewrite E1 in Ey. inversion Ey. assumption.
      * right. exists y, cs'. repeat split; assumption.
Qed.

End SliceLemmas.

(* ================================================================= *)
(** ** Lemmas on sums of powers *)

Module EnergyLemmas.

Import Gurobi.
Local Open Scope R_scope.

Import NumPy.


Lemma eval_quicksum (a : var -> R) (vars : list var) :
  eval a (quicksum vars) = total (map a vars).
Proof.
  unfold eval, quicksum.
  induction vars as [|v vars IH]; simpl; [reflexivity|].
  rewrite IH. lra.
Qed.







End EnergyLemmas.

(* ================================================================= *)
(** ** [populate_model] returns *)

Module PopulateProofs.

Import Gurobi CurtailableLoadSpec SliceLemmas.
Import CurtailableLoad.
Local Open Scope Z_scope.

Lemma negative_bound_unconstraining (e : LinExpr) :
  unconstraining {| lhs := e; sns := GreaterEqual; RHS := NegInfinity |}.
Proof. reflexivity. Qed.


(** Runs the outermost loop of the goal, leaving the proof that each of
    its passes returns. *)
Ltac run_loop cs E :=
  match goal with
  | |- context [Py.bind (for_each ?xs ?body) _] =>
      destruct (for_each_ok xs body) as [cs E];
      [|rewrite E; cbn [Py.bind]]
  end.

Section Integer.

Variable self : t.
Variable l f : Z.

Hypothesis no_states : P_State_vars self = [].
Hypothesis window_nonempty : 1 <= op_horizon self.
Hypothesis l_positive : 1 <= l.
Hypothesis f_positive : 1 <= f.

Let states := map (fun t => P_State (Z.to_nat t)) (op_time_vec self).




End Integer.


Section Convex.

Variable self : t.
Variable l f : Z.

Hypothesis vars_created :
  length (P_El_vars self) = Z.to_nat (op_horizon self).
Hypothesis l_positive : 1 <= l.
Hypothesis f_positive : 1 <= f.

Lemma power_vars_len : Py.len (power_vars self) = Z.max 0 (op_horizon self).
Proof.
  unfold power_vars, Py.len.
  rewrite length_map, length_seq, vars_created. lia.
Qed.

Let first_window := first_window self l f.

(** The relaxed branch of [populate_model] returns; when the window is
    at least [min_full + max_low] steps long, the energy constraint of
    its first [min_full + max_low] steps is among those it adds. *)
Lemma populate_convex_ok :
  exists windows,
    populate_convex self l f
    = Py.Ok (with_model self (P_El_vars self) (P_State_vars self)
               (constrs self ++ windows) (constr_previous_state self)
               (constr_previous self
                ++ map (fun overlap =>
                          {| lhs := quicksum
                                      (Py.slice_to (power_vars self)
                                         (overlap + 1));
                             sns := GreaterEqual; RHS := NegInfinity |})
                       (Py.range2 0 (Z.min (l + f - 1) (op_horizon self))))
               (constr_previous_start self))
    /\ (f + l <= op_horizon self -> In first_window windows).
Proof.
  unfold populate_convex.
  assert (Hbody : forall t, 0 <= t < op_horizon self + (- (f + l) + 1) ->
            Py.assert (Py.len (Py.slice (power_vars self) t (t + (f + l)))
                       =? f + l) = Py.Ok tt).
  { intros t Ht. rewrite slice_len, power_vars_len by lia.
    destruct (Z.eqb_spec
                (Z.max 0 (Z.min (t + (f + l)) (Z.max 0 (op_horizon self))
                          - Z.min t (Z.max 0 (op_horizon self))))
                (f + l)); [reflexivity|lia]. }
  run_loop windows Ew.
  { intros t Ht. unfold op_time_vec in Ht.
    apply in_range_slice_to_negative in Ht; [|lia].
    rewrite (Hbody t Ht). cbn [Py.bind]. eauto. }
  exists windows. split; [reflexivity|].
  intro Hlong.
  apply (for_each_in _ _ first_window Ew).
  exists 0. eexists. split; [|split].
  - unfold op_time_vec. apply in_range_slice_to_negative; lia.
  - rewrite Hbody by lia. cbn [Py.bind]. reflexivity.
  - left. reflexivity.
Qed.

Let required : list R :=
  repeat (P_El_Curt self) (Z.to_nat l) ++ repeat (P_El_Nom self) (Z.to_nat f).



End Convex.

End PopulateProofs.

(* ================================================================= *)
(** ** [update_model] at the start of the simulation *)

Module StartProofs.

Import Gurobi CurtailableLoadSpec SliceLemmas PopulateProofs.
Import CurtailableLoad.
Local Open Scope Z_scope.




End StartProofs.


(* ================================================================= *)
(** ** What the residual norms measure *)

Module ResidualProofs.

Import NumPy ExchangeADMMSpec ArrayLemmas IterationProofs.
Import ExchangeADMM.
Local Open Scope R_scope.

Lemma sum_squares_nonneg (l : list R) : 0 <= sum_squares l.
Proof.
  induction l as [|x l IH]; simpl; [lra|]. nra.
Qed.

Lemma sum_squares_zero (l : list R) :
  sum_squares l = 0 <-> Forall (fun x => x = 0) l.
Proof.
  induction l as [|x l IH]; simpl.
  - split; [constructor|reflexivity].
  - pose proof (sum_squares_nonneg l). split.
    + intro H0. assert (x = 0) by nra. constructor; [assumption|].
      apply IH. nra.
    + intro H0. apply Forall_cons_iff in H0. destruct H0 as [-> H0].
      apply IH in H0. lra.
Qed.

Lemma norm_nonneg (l : list R) : 0 <= norm l.
Proof. apply sqrt_pos. Qed.

Lemma norm_zero (l : list R) : norm l = 0 <-> Forall (fun x => x = 0) l.
Proof.
  rewrite <- sum_squares_zero. unfold norm. split.
  - intro H. apply sqrt_eq_0; [apply sum_squares_nonneg|exact H].
  - intros ->. apply sqrt_0.
Qed.

Lemma all_zero_entries (l : list R) (h : nat) :
  length l = h ->
  Forall (fun x => x = 0) l <-> forall t, (t < h)%nat -> nth t l 0 = 0.
Proof.
  intros Hl. rewrite Forall_forall. split.
  - intros H t Ht. apply H, nth_In. lia.
  - intros H x Hx. destruct (In_nth _ _ 0 Hx) as [t [Ht <-]].
    apply H. lia.
Qed.

Lemma big_sum_app {A} (f : A -> R) (l1 l2 : list A) :
  big_sum f (l1 ++ l2) = big_sum f l1 + big_sum f l2.
Proof. induction l1 as [|x l1 IH]; simpl; [lra|]. rewrite IH. lra. Qed.

(** X1.  The primal residual norm an iteration appends is never negative,
    and it is zero exactly when the fresh schedules balance at every time
    step of the window: the schedule of entity 0 equals the sum of the
    schedules of all other entities. *)
Theorem primal_residual_zero_iff_balance (rho : R) (h : nat)
    (entities : list ((nat -> R) -> R)) (betas : nat -> R)
    (solve_node : nat -> ((nat -> R) -> R) -> nat -> R)
    (results : Results) (params : Params) :
  entities <> [] ->
  exists r,
    r_norms (fst (_iteration rho h entities betas solve_node (results, params)))
    = r_norms results ++ [r]
    /\ 0 <= r
    /\ (r = 0 <->
        forall t, (t < h)%nat ->
          entry (fresh_schedules rho h entities betas solve_node params) 0 t
          = big_sum
              (fun i =>
                 entry (fresh_schedules rho h entities betas solve_node params)
                   i t)
              (seq 1 (length entities - 1))).
Proof.
  intro Hne.
  unfold _iteration, IterationAlgorithm_iteration, fresh_schedules.
  cbn [fst r_norms].
  eexists. split; [reflexivity|].
  assert (Hn : 0 < INR (length entities)).
  { apply lt_0_INR. destruct entities; [contradiction|simpl; lia]. }
  assert (Hs : 0 < sqrt (INR (length entities))) by (apply sqrt_lt_R0, Hn).
  split.
  - apply Rmult_le_pos; [lra|apply norm_nonneg].
  - pose proof (incentive_signal_length rho h betas solve_node params Hne)
      as Hlen.
    pose proof (@incentive_signal_entry rho h entities betas solve_node
                  params Hne) as Hentry.
    unfold consensus in Hentry.
    split.
    + intros H t Ht.
      apply Rmult_integral in H. destruct H as [H|H]; [lra|].
      apply norm_zero in H. rewrite (all_zero_entries _ Hlen) in H.
      specialize (H t Ht). rewrite (Hentry t Ht) in H.
      unfold Rdiv in H. apply Rmult_integral in H. destruct H as [H|H].
      * lra.
      * pose proof (Rinv_0_lt_compat _ Hn). lra.
    + intro H.
      assert (E : norm (incentive_signal h entities
                          (solve_nodes rho h entities betas solve_node
                             (fill_p_el h entities params) (fill_x_ h params)
                             (fill_u h params))) = 0).
      { apply norm_zero. apply (all_zero_entries _ Hlen). intros t Ht.
        rewrite (Hentry t Ht), (H t Ht). unfold Rdiv. lra. }
      rewrite E. lra.
Qed.

(** X1 (witness): two entities on one time step. *)
Lemma primal_residual_zero_iff_balance_witness :
  exists r,
    r_norms (fst (_iteration 2 1 Examples.two_entities Examples.unit_weights
                    Examples.solver_one _presolve)) = [r]
    /\ 0 <= r.
Proof.
  destruct (@primal_residual_zero_iff_balance 2 1 Examples.two_entities
              Examples.unit_weights Examples.solver_one
              (fst _presolve) (snd _presolve))
    as [r [Hr [Hpos _]]].
  - discriminate.
  - exists r. split; [exact Hr|exact Hpos].
Defined.




Section Run.

Variable rho : R.
Variable h : nat.
Variable entities : list ((nat -> R) -> R).
Variable betas : nat -> R.
Variable solve_node : nat -> ((nat -> R) -> R) -> nat -> R.

Hypothesis entities_nonempty : entities <> [].

Let step := _iteration rho h entities betas solve_node.

Lemma wf_after (k : nat) :
  wf_params h (length entities) (snd (after step k _presolve)).
Proof.
  induction k as [|k IH]; [apply wf_presolve|].
  cbn [after]. destruct (after step k _presolve) as [results params].
  apply wf_iteration; assumption.
Qed.

Lemma signal_after (k : nat) :
  fill_x_ h (snd (after step (S k) _presolve))
  = incentive_signal h entities
      (fresh_schedules rho h entities betas solve_node
         (snd (after step k _presolve))).
Proof.
  cbn [after]. destruct (after step k _presolve) as [results params].
  reflexivity.
Qed.

Lemma accumulator_after (k : nat) :
  fill_u h (snd (after step (S k) _presolve))
  = add (fill_u h (snd (after step k _presolve)))
        (fill_x_ h (snd (after step (S k) _presolve))).
Proof.
  cbn [after]. destruct (after step k _presolve) as [results params].
  reflexivity.
Qed.

End Run.

(** X3.  In a run the accumulator [u] is the running sum of the incentive
    signals: after [k] iterations, at every time step of the window, [u]
    equals the sum of the signals [x_] computed in iterations 1 to [k]
    (and it is zero before the first iteration). *)
Theorem accumulator_is_running_sum (rho : R) (h : nat)
    (entities : list ((nat -> R) -> R)) (betas : nat -> R)
    (solve_node : nat -> ((nat -> R) -> R) -> nat -> R) (k t : nat) :
  entities <> [] -> (t < h)%nat ->
  nth t (fill_u h (snd (after (_iteration rho h entities betas solve_node)
                          k _presolve))) 0
  = big_sum
      (fun j =>
         nth t (fill_x_ h (snd (after (_iteration rho h entities betas
                                         solve_node) j _presolve))) 0)
      (seq 1 k).
Proof.
  intros Hne Ht. induction k as [|k IH].
  - cbn [after _presolve snd fill_u u seq big_sum fold_right].
    unfold zeros. rewrite nth_repeat_lt by exact Ht. reflexivity.
  - rewrite seq_S, big_sum_app. cbn [big_sum fold_right Nat.add].
    rewrite <- IH, accumulator_after.
    unfold add. rewrite nth_zipWith.
    + lra.
    + rewrite (last_u_length _
                 (@wf_after rho h entities betas solve_node Hne k)).
      exact Ht.
    + rewrite signal_after. unfold fresh_schedules.
      rewrite (incentive_signal_length rho h betas solve_node _ Hne).
      exact Ht.
Qed.

(** X3 (witness): three iterations of two entities on one time step. *)
Lemma accumulator_is_running_sum_witness :
  nth 0 (fill_u 1 (snd (after (_iteration 2 1 Examples.two_entities
                                 Examples.unit_weights Examples.solver_one)
                          3 _presolve))) 0
  = big_sum
      (fun j =>
         nth 0 (fill_x_ 1 (snd (after (_iteration 2 1 Examples.two_entities
                                         Examples.unit_weights
                                         Examples.solver_one)
                                  j _presolve))) 0)
      (seq 1 3).
Proof.
  apply (@accumulator_is_running_sum 2 1 Examples.two_entities
           Examples.unit_weights Examples.solver_one 3 0).
  - discriminate.
  - lia.
Defined.

(** X4.  The shapes of the stored arrays are an invariant of the run: after
    any positive number [k] of iterations, [params] holds one schedule of
    window length per entity, a signal [x_] and an accumulator [u] of window
    length, and each of the three logs of [results] holds [k] entries. *)
Theorem run_keeps_shapes (rho : R) (h : nat)
    (entities : list ((nat -> R) -> R)) (betas : nat -> R)
    (solve_node : nat -> ((nat -> R) -> R) -> nat -> R) (k : nat) :
  entities <> [] -> (1 <= k)%nat ->
  exists p x u',
    p_el (snd (after (_iteration rho h entities betas solve_node)
                 k _presolve)) = Some p
    /\ x_ (snd (after (_iteration rho h entities betas solve_node)
                  k _presolve)) = Some x
    /\ u (snd (after (_iteration rho h entities betas solve_node)
                 k _presolve)) = Some u'
    /\ length p = length entities
    /\ Forall (fun row => length row = h) p
    /\ length x = h /\ length u' = h
    /\ length (iterations (fst (after (_iteration rho h entities betas
                                         solve_node) k _presolve))) = k
    /\ length (r_norms (fst (after (_iteration rho h entities betas
                                      solve_node) k _presolve))) = k
    /\ length (s_norms (fst (after (_iteration rho h entities betas
                                      solve_node) k _presolve))) = k.
Proof.
  intros Hne Hk. destruct k as [|k]; [lia|].
  pose proof (@wf_after rho h entities betas solve_node Hne (S k))
    as [Hp [Hx Hu]].
  pose proof (StoppingProofs.after_counts rho h entities betas solve_node (S k))
    as [Hi [Hr Hs]].
  cbn [after] in *.
  destruct (after (_iteration rho h entities betas solve_node) k _presolve)
    as [results params].
  cbn [_iteration snd p_el x_ u] in *.
  eexists. eexists. eexists.
  split; [reflexivity|]. split; [reflexivity|]. split; [reflexivity|].
  destruct (Hp _ eq_refl) as [Hp1 Hp2].
  split; [exact Hp1|]. split; [exact Hp2|].
  split; [exact (Hx _ eq_refl)|]. split; [exact (Hu _ eq_refl)|].
  split; [exact Hi|]. split; [exact Hr|exact Hs].
Qed.

(** X4 (witness): two iterations of two entities on one time step. *)
Lemma run_keeps_shapes_witness :
  exists x,
    x_ (snd (after (_iteration 2 1 Examples.two_entities Examples.unit_weights
                      Examples.solver_one) 2 _presolve)) = Some x
    /\ length x = 1%nat.
Proof.
  destruct (@run_keeps_shapes 2 1 Examples.two_entities Examples.unit_weights
              Examples.solver_one 2)
    as [p [x [u' [_ [Hx [_ [_ [_ [Lx _]]]]]]]]].
  - discriminate.
  - lia.
  - exists x. split; [exact Hx|exact Lx].
Defined.

End ResidualProofs.


(* ================================================================= *)
(** ** Writing the solution of a window into the schedule *)

Module ThermalProofs.

Import SliceLemmas.
Import ThermalEntity.
Local Open Scope Z_scope.

Lemma window_values (x : nat -> R) (n : Z) :
  map x (map Z.to_nat (Py.range n)) = map x (seq 0 (Z.to_nat n)).
Proof.
  unfold Py.range. rewrite !map_map. apply map_ext. intro k.
  rewrite Nat2Z.id. reflexivity.
Qed.

(** X5.  When the window lies within the simulation horizon,
    [update_schedule] returns, writes the solution of the model into the
    entries of the window, entry [timestep + k] receiving the value of the
    variable of step [k], and leaves the length of the schedule, every
    entry outside the window and the reference schedule as they were. *)
Theorem update_schedule_writes_window (self : t) (x : nat -> R)
    (timestep : Z) :
  0 <= timestep -> 0 <= op_horizon self ->
  timestep + op_horizon self <= Py.len (P_Th_Schedule self) ->
  exists self',
    update_schedule (populate_model self) x timestep = Py.Ok self'
    /\ length (P_Th_Schedule self') = length (P_Th_Schedule self)
    /\ (forall k, (k < Z.to_nat (op_horizon self))%nat ->
          nth (Z.to_nat timestep + k) (P_Th_Schedule self') 0%R = x k)
    /\ (forall j, (j < Z.to_nat timestep)%nat
                  \/ (Z.to_nat (timestep + op_horizon self) <= j)%nat ->
          nth j (P_Th_Schedule self') 0%R = nth j (P_Th_Schedule self) 0%R)
    /\ P_Th_Ref_Schedule self' = P_Th_Ref_Schedule self.
Proof.
  intros Hts Hop Hin.
  unfold update_schedule, populate_model, assign_slice.
  cbn [op_horizon P_Th_vars P_Th_Schedule P_Th_Ref_Schedule simu_horizon app].
  rewrite !clip_nonneg by lia.
  rewrite window_values, length_map, length_seq.
  replace (Z.min timestep (Py.len (P_Th_Schedule self))) with timestep by lia.
  replace (Z.min (timestep + op_horizon self) (Py.len (P_Th_Schedule self)))
    with (timestep + op_horizon self) by lia.
  replace (Z.to_nat (timestep + op_horizon self - timestep))
    with (Z.to_nat (op_horizon self)) by lia.
  rewrite Nat.eqb_refl. cbn [Py.bind].
  eexists. split; [reflexivity|].
  cbn [P_Th_Schedule P_Th_Ref_Schedule].
  set (a := P_Th_Schedule self) in *.
  set (i := Z.to_nat timestep).
  set (m := Z.to_nat (op_horizon self)).
  assert (Hlen : (i + m <= length a)%nat) by (unfold Py.len in Hin; lia).
  assert (Hfirst : length (firstn i a) = i)
    by (rewrite length_firstn; lia).
  assert (Hvals : length (map x (seq 0 m)) = m)
    by (rewrite length_map, length_seq; reflexivity).
  split; [|split; [|split; [|reflexivity]]].
  - rewrite !length_app, Hfirst, Hvals, length_skipn. lia.
  - intros k Hk.
    rewrite app_nth2 by lia. rewrite Hfirst.
    replace (i + k - i)%nat with k by lia.
    rewrite app_nth1 by lia.
    rewrite (nth_indep _ 0%R (x 0%nat)) by lia.
    rewrite map_nth, seq_nth by exact Hk. reflexivity.
  - intros j [Hj|Hj].
    + rewrite app_nth1 by lia. rewrite nth_firstn.
      destruct (Nat.ltb_spec j i) as [_|Hge]; [reflexivity|lia].
    + replace (Z.to_nat (timestep + op_horizon self)) with (i + m)%nat in Hj
        by lia.
      rewrite app_nth2 by lia. rewrite Hfirst.
      rewrite app_nth2 by lia. rewrite Hvals.
      rewrite nth_skipn. f_equal. lia.
Qed.

Lemma update_schedule_writes_window_witness :
  exists self',
    update_schedule (populate_model (__init__ 2 4)) INR 1 = Py.Ok self'
    /\ length (P_Th_Schedule self') = length (P_Th_Schedule (__init__ 2 4))
    /\ (forall k, (k < Z.to_nat (op_horizon (__init__ 2 4)))%nat ->
          nth (Z.to_nat 1 + k) (P_Th_Schedule self') 0%R = INR k)
    /\ (forall j, (j < Z.to_nat 1)%nat
                  \/ (Z.to_nat (1 + op_horizon (__init__ 2 4)) <= j)%nat ->
          nth j (P_Th_Schedule self') 0%R
          = nth j (P_Th_Schedule (__init__ 2 4)) 0%R)
    /\ P_Th_Ref_Schedule self' = P_Th_Ref_Schedule (__init__ 2 4).
Proof.
  apply (@update_schedule_writes_window (__init__ 2 4) INR 1);
    vm_compute; discriminate.
Defined.

(** X6.  When the window runs over the end of the simulation horizon, the
    slice of the schedule is shorter than the list of values:
    [update_schedule] raises [ValueError] for a window of two steps or more
    and writes nothing; for a window of a single step that starts at or
    after the end it returns and leaves the entity as it was, the value of
    the variable being dropped. *)
Theorem update_schedule_overrun (self : t) (x : nat -> R) (timestep : Z) :
  0 <= timestep ->
  Py.len (P_Th_Schedule self) < timestep + op_horizon self ->
  (2 <= op_horizon self ->
     update_schedule (populate_model self) x timestep = Py.ValueError)
  /\ (op_horizon self = 1 ->
      exists self',
        update_schedule (populate_model self) x timestep = Py.Ok self'
        /\ P_Th_Schedule self' = P_Th_Schedule self
        /\ P_Th_Ref_Schedule self' = P_Th_Ref_Schedule self).
Proof.
  intros Hts Hover.
  unfold update_schedule, populate_model, assign_slice.
  cbn [op_horizon P_Th_vars P_Th_Schedule P_Th_Ref_Schedule simu_horizon app].
  pose proof (len_nonneg (P_Th_Schedule self)) as Hlen.
  rewrite window_values, length_map, length_seq.
  split.
  - intro Hop. rewrite !clip_nonneg by lia.
    destruct (Nat.eqb_spec (Z.to_nat (op_horizon self))
                (Z.to_nat
                   (Z.min (timestep + op_horizon self)
                      (Py.len (P_Th_Schedule self))
                    - Z.min timestep (Py.len (P_Th_Schedule self)))))
      as [E|_]; [lia|].
    destruct (Z.to_nat (op_horizon self)) as [|[|m]] eqn:En; [lia|lia|].
    reflexivity.
  - intro Hop. rewrite Hop in *. rewrite !clip_nonneg by lia.
    replace (Z.min (timestep + 1) (Py.len (P_Th_Schedule self)))
      with (Py.len (P_Th_Schedule self)) by lia.
    replace (Z.min timestep (Py.len (P_Th_Schedule self)))
      with (Py.len (P_Th_Schedule self)) by lia.
    rewrite Z.sub_diag.
    change (Z.to_nat 1) with 1%nat. change (Z.to_nat 0) with 0%nat.
    cbn [Nat.eqb seq map repeat app Py.bind].
    eexists. split; [reflexivity|].
    cbn [P_Th_Schedule P_Th_Ref_Schedule].
    split; [|reflexivity].
    rewrite Nat.add_0_r.
    unfold Py.len. rewrite Nat2Z.id.
    rewrite firstn_all, skipn_all. apply app_nil_r.
Qed.

Lemma update_schedule_overrun_witness :
  (2 <= op_horizon (__init__ 2 4) ->
     update_schedule (populate_model (__init__ 2 4)) INR 3 = Py.ValueError)
  /\ (op_horizon (__init__ 2 4) = 1 ->
      exists self',
        update_schedule (populate_model (__init__ 2 4)) INR 3 = Py.Ok self'
        /\ P_Th_Schedule self' = P_Th_Schedule (__init__ 2 4)
        /\ P_Th_Ref_Schedule self' = P_Th_Ref_Schedule (__init__ 2 4)).
Proof.
  apply (@update_schedule_overrun (__init__ 2 4) INR 3);
    vm_compute; [discriminate|reflexivity].
Defined.

End ThermalProofs.

(* ================================================================= *)
(** ** Sums of state indicators *)

Module IndicatorLemmas.

Import Gurobi RollingHorizon.
Local Open Scope R_scope.

Lemma eval_minus_quicksum (a : var -> R) (vars : list var) :
  eval a (minus_quicksum vars) = - NumPy.total (map a vars).
Proof.
  unfold eval, minus_quicksum.
  induction vars as [|v vars IH]; simpl; [lra|].
  rewrite IH. lra.
Qed.

Lemma indicators_upper (a : var -> R) (n : nat) :
  forall start, binary_on a start n ->
    NumPy.total (map a (indicators start n)) <= INR n.
Proof.
  induction n as [|n IH]; intros start Hb; [simpl; lra|].
  rewrite S_INR. unfold indicators. cbn [seq map NumPy.total fold_right].
  assert (H : NumPy.total (map a (indicators (S start) n)) <= INR n).
  { apply IH. intros k Hk. apply Hb. lia. }
  unfold indicators, NumPy.total in H.
  destruct (Hb start) as [E|E]; [lia| |]; rewrite E; lra.
Qed.

(** When the sum of [n] binary indicators is at least 1, one of them
    is 1. *)
Lemma some_indicator (a : var -> R) (n : nat) :
  forall start, binary_on a start n ->
    1 <= NumPy.total (map a (indicators start n)) ->
    exists k, (start <= k < start + n)%nat /\ a (P_State k) = 1.
Proof.
  induction n as [|n IH]; intros start Hb Hsum; [simpl in Hsum; lra|].
  unfold indicators in Hsum. cbn [seq map NumPy.total fold_right] in Hsum.
  destruct (Hb start) as [E|E]; [lia| |].
  - destruct (IH (S start)) as [k [Hk Ek]].
    + intros k Hk. apply Hb. lia.
    + unfold indicators, NumPy.total. rewrite E in Hsum. lra.
    + exists k. split; [lia|exact Ek].
  - exists start. split; [lia|exact E].
Qed.

(** When the sum of [n] binary indicators is at least [n], all of them
    are 1. *)
Lemma all_indicators (a : var -> R) (n : nat) :
  forall start, binary_on a start n ->
    INR n <= NumPy.total (map a (indicators start n)) ->
    forall k, (start <= k < start + n)%nat -> a (P_State k) = 1.
Proof.
  induction n as [|n IH]; intros start Hb Hsum k Hk; [lia|].
  rewrite S_INR in Hsum.
  unfold indicators in Hsum. cbn [seq map NumPy.total fold_right] in Hsum.
  assert (Hrest : binary_on a (S start) n)
    by (intros j Hj; apply Hb; lia).
  pose proof (indicators_upper Hrest) as Hup.
  unfold indicators, NumPy.total in Hup.
  destruct (Hb start) as [E|E]; [lia| |]; rewrite E in Hsum; [lra|].
  destruct (Nat.eq_dec k start) as [->|Hne]; [exact E|].
  apply (IH (S start) Hrest); [|lia].
  unfold indicators, NumPy.total. lra.
Qed.

Lemma indicators_lower (a : var -> R) (n : nat) :
  forall start, binary_on a start n ->
    0 <= NumPy.total (map a (indicators start n)).
Proof.
  induction n as [|n IH]; intros start Hb; [simpl; lra|].
  unfold indicators. cbn [seq map NumPy.total fold_right].
  assert (H : 0 <= NumPy.total (map a (indicators (S start) n))).
  { apply IH. intros k Hk. apply Hb. lia. }
  unfold indicators, NumPy.total in H.
  destruct (Hb start) as [E|E]; [lia| |]; rewrite E; lra.
Qed.

Lemma some_indicator_enough (a : var -> R) (n : nat) :
  forall start, binary_on a start n ->
    (exists k, (start <= k < start + n)%nat /\ a (P_State k) = 1) ->
    1 <= NumPy.total (map a (indicators start n)).
Proof.
  induction n as [|n IH]; intros start Hb [k [Hk Ek]]; [lia|].
  assert (Hrest : binary_on a (S start) n)
    by (intros j Hj; apply Hb; lia).
  pose proof (indicators_lower Hrest) as Hlow.
  unfold indicators. cbn [seq map NumPy.total fold_right].
  unfold indicators, NumPy.total in Hlow.
  destruct (Nat.eq_dec k start) as [->|Hne]; [rewrite Ek; lra|].
  assert (H : 1 <= NumPy.total (map a (indicators (S start) n))).
  { apply (IH (S start) Hrest). exists k. split; [lia|exact Ek]. }
  unfold indicators, NumPy.total in H.
  destruct (Hb start) as [E|E]; [lia| |]; rewrite E; lra.
Qed.

Lemma all_indicators_enough (a : var -> R) (n : nat) :
  forall start,
    (forall k, (start <= k < start + n)%nat -> a (P_State k) = 1) ->
    INR n <= NumPy.total (map a (indicators start n)).
Proof.
  induction n as [|n IH]; intros start Hall; [simpl; lra|].
  rewrite S_INR. unfold indicators. cbn [seq map NumPy.total fold_right].
  assert (H : INR n <= NumPy.total (map a (indicators (S start) n))).
  { apply IH. intros k Hk. apply Hall. lia. }
  unfold indicators, NumPy.total in H.
  rewrite (Hall start) by lia. lra.
Qed.

End IndicatorLemmas.

(* ================================================================= *)
(** ** The integer model of a window *)

Module IntegerModelProofs.

Import Gurobi CurtailableLoadSpec SliceLemmas PopulateProofs RollingHorizon.
Import CurtailableLoad.
Local Open Scope Z_scope.

Lemma states_indicators (m : Z) :
  map (fun t => P_State (Z.to_nat t)) (Py.range m)
  = indicators 0 (Z.to_nat m).
Proof.
  unfold Py.range, indicators. rewrite map_map. apply map_ext.
  intro k. rewrite Nat2Z.id. reflexivity.
Qed.

Lemma indicators_len (start n : nat) :
  Py.len (indicators start n) = Z.of_nat n.
Proof.
  unfold Py.len, indicators. rewrite length_map, length_seq. reflexivity.
Qed.

Lemma slice_indicators (n : nat) (a b : Z) :
  0 <= a -> 0 <= b ->
  Py.slice (indicators 0 n) a b
  = indicators (Z.to_nat (Z.min a (Z.of_nat n)))
      (Z.to_nat (Z.min b (Z.of_nat n) - Z.min a (Z.of_nat n))).
Proof.
  intros Ha Hb. unfold Py.slice.
  rewrite indicators_len, !clip_nonneg by assumption.
  unfold indicators.
  rewrite skipn_map, firstn_map, skipn_seq, firstn_of_seq.
  f_equal. f_equal. lia.
Qed.

Lemma index_indicators (n : nat) (t : Z) :
  0 <= t < Z.of_nat n ->
  Py.index (indicators 0 n) t = Py.Ok (P_State (Z.to_nat t)).
Proof.
  intro H. unfold Py.index, Py.norm_index. rewrite indicators_len.
  destruct (Z.ltb_spec t 0); [lia|].
  destruct (Z.leb_spec 0 t); [|lia].
  destruct (Z.ltb_spec t (Z.of_nat n)); [|lia].
  cbn [andb]. unfold indicators.
  rewrite nth_error_map, nth_error_seq.
  destruct (Nat.ltb_spec (Z.to_nat t) n); [reflexivity|lia].
Qed.

Section Shape.

Variable self : t.
Variable l f : Z.

Hypothesis no_states : P_State_vars self = [].
Hypothesis window_nonempty : 1 <= op_horizon self.
Hypothesis l_positive : 1 <= l.
Hypothesis f_positive : 1 <= f.

Let n := Z.to_nat (op_horizon self).
Let m := Z.to_nat (Z.min (Z.max l (f - 1)) (op_horizon self)).

(** The integer branch of [populate_model] returns the model with one
    indicator per step, the history constraints on the first 1, ...,
    [min(max(max_low, min_full - 1), op_horizon)] indicators, and among
    its constraints the coupling of every step, the rule on [max_low] for
    every run of [max_low + 1] steps of the window and the rule on
    [min_full] for every step but the last two. *)
Lemma populate_integer_shape :
  exists cs,
    populate_integer self l f
    = Py.Ok (with_model self (P_El_vars self) (indicators 0 n)
               (constrs self ++ cs)
               (constr_previous_state self
                ++ map (fun k => first_states k NegInfinity) (seq 1 m))
               (constr_previous self)
               (if 1 <? f
                then Some (stay_full_from_start
                             (Z.to_nat (Z.min f (op_horizon self) - 1))
                             Infinity)
                else constr_previous_start self))
    /\ integer_constraints (P_El_Nom self) l f n cs.
Proof.
  assert (Hn : Z.of_nat n = op_horizon self) by (unfold n; lia).
  unfold integer_constraints, populate_integer. rewrite no_states. cbn [app].
  unfold op_time_vec. rewrite states_indicators. fold n.
  assert (Hprev :
    map (fun t => {| lhs := quicksum (Py.slice_to (indicators 0 n) t);
                     sns := GreaterEqual; RHS := NegInfinity |})
        (Py.range2 1
           (Z.min (Z.max l (f - 1)) (op_horizon self) + 1))
    = map (fun k => first_states k NegInfinity) (seq 1 m)).
  { unfold Py.range2. rewrite <- seq_shift, !map_map.
    replace (Z.to_nat (Z.min (Z.max l (f - 1)) (op_horizon self) + 1 - 1))
      with m by (unfold m; lia).
    apply map_ext_in. intros k Hk. apply in_seq in Hk.
    unfold first_states, Py.slice_to.
    rewrite slice_indicators by lia.
    replace (Z.to_nat (Z.min 0 (Z.of_nat n))) with 0%nat by lia.
    replace (Z.to_nat (Z.min (1 + Z.of_nat k) (Z.of_nat n)
                       - Z.min 0 (Z.of_nat n)))
      with (S k) by (unfold m in Hk; lia).
    reflexivity. }
  rewrite Hprev. clear Hprev.
  assert (Hcoupling : forall k, (k < n)%nat ->
    (s <- Py.index (indicators 0 n) (Z.of_nat k) ;;
     Py.Ok [ {| lhs := [(P_El_Nom self, s);
                        ((-1)%R, P_El (Z.to_nat (Z.of_nat k)))];
                sns := LessEqual; RHS := Num 0 |} ])
    = Py.Ok [coupling_at (P_El_Nom self) k]).
  { intros k Hk. rewrite index_indicators by lia.
    cbn [Py.bind]. rewrite Nat2Z.id. reflexivity. }
  run_loop coupling Ec.
  { intros t Ht. apply in_range in Ht.
    rewrite <- (Z2Nat.id t) by lia. rewrite Hcoupling by lia. eauto. }
  assert (Hwindow : forall t, 0 <= t < op_horizon self ->
    (let next_states := Py.slice (indicators 0 n) t (t + l + 1) in
     _ <- Py.assert ((1 <=? Py.len next_states)
                     && (Py.len next_states <=? l + 1)) ;;
     if Py.len next_states =? l + 1 then
       Py.Ok [ {| lhs := quicksum next_states;
                  sns := GreaterEqual; RHS := Num 1 |} ]
     else Py.Ok [])
    = if t + l + 1 <=? op_horizon self
      then Py.Ok [one_full_among (Z.to_nat t) (Z.to_nat l + 1)]
      else Py.Ok []).
  { intros t Ht. cbv zeta. rewrite slice_indicators by lia.
    rewrite indicators_len, Hn.
    set (len := Z.to_nat (Z.min (t + l + 1) (op_horizon self)
                          - Z.min t (op_horizon self))).
    destruct (Z.leb_spec 1 (Z.of_nat len)); [|unfold len in *; lia].
    destruct (Z.leb_spec (Z.of_nat len) (l + 1)); [|unfold len in *; lia].
    cbn [andb Py.assert Py.bind].
    destruct (Z.leb_spec (t + l + 1) (op_horizon self)) as [Hin|Hout].
    - destruct (Z.eqb_spec (Z.of_nat len) (l + 1)) as [E|E];
        [|unfold len in *; lia].
      unfold one_full_among.
      replace (Z.to_nat (Z.min t (op_horizon self))) with (Z.to_nat t)
        by lia.
      replace len with (Z.to_nat l + 1)%nat by lia. reflexivity.
    - destruct (Z.eqb_spec (Z.of_nat len) (l + 1)) as [E|E];
        [unfold len in *; lia|reflexivity]. }
  run_loop windows Ew.
  { intros t Ht. apply in_range in Ht.
    pose proof (Hwindow t Ht) as E. cbv zeta in E. rewrite E. clear E.
    destruct (t + l + 1 <=? op_horizon self); eauto. }
  assert (Hc : forall k, (k < n)%nat ->
            In (coupling_at (P_El_Nom self) k) coupling).
  { intros k Hk. apply (for_each_in _ _ _ Ec).
    exists (Z.of_nat k). eexists. split; [apply in_range; lia|].
    split; [apply Hcoupling; exact Hk|left; reflexivity]. }
  assert (Hw : forall k, (k + Z.to_nat l + 1 <= n)%nat ->
            In (one_full_among k (Z.to_nat l + 1)) windows).
  { intros k Hk. apply (for_each_in _ _ _ Ew).
    exists (Z.of_nat k). eexists. split; [apply in_range; lia|].
    split.
    - pose proof (Hwindow (Z.of_nat k)) as E. cbv zeta in E.
      rewrite E by lia.
      destruct (Z.leb_spec (Z.of_nat k + l + 1) (op_horizon self));
        [|lia].
      rewrite Nat2Z.id. reflexivity.
    - left. reflexivity. }
  assert (Hc' : forall c, In c coupling ->
            exists k, c = coupling_at (P_El_Nom self) k).
  { intros c Hin. apply (for_each_in _ _ _ Ec) in Hin.
    destruct Hin as [t [cs' [Ht [E Hin]]]]. apply in_range in Ht.
    rewrite <- (Z2Nat.id t) in E by lia. rewrite Hcoupling in E by lia.
    inversion E; subst cs'. destruct Hin as [<-|[]]. eauto. }
  assert (Hw' : forall c, In c windows ->
            exists k, c = one_full_among k (Z.to_nat l + 1)).
  { intros c Hin. apply (for_each_in _ _ _ Ew) in Hin.
    destruct Hin as [t [cs' [Ht [E Hin]]]]. apply in_range in Ht.
    pose proof (Hwindow t Ht) as E'. cbv zeta in E'. rewrite E' in E.
    destruct (t + l + 1 <=? op_horizon self);
      inversion E; subst cs'; [|destruct Hin].
    destruct Hin as [<-|[]]. eauto. }
  destruct (Z.ltb_spec 1 f) as [Hf|Hf].
  - rewrite index_indicators by lia. cbn [Py.bind].
    assert (Hrun : forall k, (k + 2 < n)%nat ->
      (let next_states :=
         Py.slice (indicators 0 n) (Z.of_nat k + 2) (Z.of_nat k + f + 1) in
       _ <- Py.assert ((1 <=? Py.len next_states)
                       && (Py.len next_states <=? f - 1)) ;;
       s1 <- Py.index (indicators 0 n) (Z.of_nat k + 1) ;;
       s <- Py.index (indicators 0 n) (Z.of_nat k) ;;
       Py.Ok [ {| lhs := (RLen next_states, s1)
                         :: ((- RLen next_states)%R, s)
                         :: minus_quicksum next_states;
                  sns := LessEqual; RHS := Num 0 |} ])
      = Py.Ok [stay_full_after k
                 (Nat.min (Z.to_nat f - 1) (n - (k + 2)))]).
    { intros k Hk. cbv zeta. unfold RLen.
      rewrite slice_indicators by lia. rewrite indicators_len.
      replace (Z.to_nat (Z.min (Z.of_nat k + f + 1) (Z.of_nat n)
                         - Z.min (Z.of_nat k + 2) (Z.of_nat n)))
        with (Nat.min (Z.to_nat f - 1) (n - (k + 2))) by lia.
      replace (Z.to_nat (Z.min (Z.of_nat k + 2) (Z.of_nat n)))
        with (k + 2)%nat by lia.
      set (len := Nat.min (Z.to_nat f - 1) (n - (k + 2))).
      destruct (Z.leb_spec 1 (Z.of_nat len)); [|unfold len in *; lia].
      destruct (Z.leb_spec (Z.of_nat len) (f - 1)); [|unfold len in *; lia].
      cbn [andb Py.assert Py.bind].
      rewrite !index_indicators by lia. cbn [Py.bind].
      rewrite Nat2Z.id.
      replace (Z.to_nat (Z.of_nat k + 1)) with (S k) by lia.
      reflexivity. }
    run_loop runs Er.
    { intros t Ht. apply in_range_slice_to_negative in Ht; [|lia].
      rewrite <- (Z2Nat.id t) by lia.
      pose proof (Hrun (Z.to_nat t)) as E. cbv zeta in E.
      rewrite E by lia. eauto. }
    exists (coupling ++ windows ++ runs). split; [|split; [|split; [|split]]].
    + unfold stay_full_from_start, RLen.
      rewrite slice_indicators by lia. rewrite indicators_len.
      replace (Z.to_nat (Z.min f (Z.of_nat n) - Z.min 1 (Z.of_nat n)))
        with (Z.to_nat (Z.min f (op_horizon self) - 1)) by lia.
      replace (Z.to_nat (Z.min 1 (Z.of_nat n))) with 1%nat by lia.
      reflexivity.
    + intros k Hk. apply in_or_app. left. apply Hc, Hk.
    + intros k Hk. apply in_or_app. right. apply in_or_app. left.
      apply Hw, Hk.
    + intros _ k Hk. apply in_or_app. right. apply in_or_app. right.
      apply (for_each_in _ _ _ Er).
      exists (Z.of_nat k). eexists.
      split; [apply in_range_slice_to_negative; lia|].
      split; [pose proof (Hrun k Hk) as E; cbv zeta in E; exact E|].
      left. reflexivity.
    + intros c Hin. apply in_app_or in Hin. destruct Hin as [Hin|Hin];
        [left; apply Hc', Hin|].
      apply in_app_or in Hin. destruct Hin as [Hin|Hin];
        [right; left; apply Hw', Hin|].
      right. right. apply (for_each_in _ _ _ Er) in Hin.
      destruct Hin as [t [cs' [Ht [E Hin]]]].
      apply in_range_slice_to_negative in Ht; [|lia].
      rewrite <- (Z2Nat.id t) in E by lia.
      pose proof (Hrun (Z.to_nat t)) as E'. cbv zeta in E'.
      rewrite E' in E by lia.
      inversion E; subst cs'. destruct Hin as [<-|[]]. eauto.
  - exists (coupling ++ windows). split; [reflexivity|].
    split; [|split; [|split]].
    + intros k Hk. apply in_or_app. left. apply Hc, Hk.
    + intros k Hk. apply in_or_app. right. apply Hw, Hk.
    + intro. lia.
    + intros c Hin. apply in_app_or in Hin. destruct Hin as [Hin|Hin];
        [left; apply Hc', Hin|right; left; apply Hw', Hin].
Qed.

End Shape.


Lemma populated_arguments (op_horizon simu_horizon : Z)
    (P_El_Nom max_curtailment : R) (l f : Z) (mode : string) (self : t) :
  populated op_horizon simu_horizon P_El_Nom max_curtailment
    (Some l) (Some f) mode = Py.Ok self ->
  0 <= l /\ 1 <= f.
Proof.
  unfold populated, __init__, check_arguments, Py.assert.
  destruct (Z.leb_spec 1 f), (Z.leb_spec 0 l); cbn [Py.bind];
    try discriminate.
  intros _. split; assumption.
Qed.

(** A new load with [max_low >= 1] on a window of at least one step:
    [populate_model] in integer mode returns the integer model. *)
Lemma populated_integer (op_horizon simu_horizon : Z)
    (P_El_Nom max_curtailment : R) (l f : Z) :
  1 <= op_horizon -> 1 <= l -> 1 <= f ->
  exists cs,
    populated op_horizon simu_horizon P_El_Nom max_curtailment
      (Some l) (Some f) "integer"
    = Py.Ok (integer_model op_horizon simu_horizon P_El_Nom max_curtailment
               l f cs)
    /\ integer_constraints P_El_Nom l f (Z.to_nat op_horizon) cs.
Proof.
  intros Hop Hl Hf.
  unfold populated, __init__, check_arguments, Py.assert.
  destruct (Z.leb_spec 1 f) as [_|]; [|lia].
  destruct (Z.leb_spec 0 l) as [_|]; [|lia].
  cbn [Py.bind]. unfold populate_model.
  change (String.eqb "integer" "convex" || String.eqb "integer" "integer")%bool
    with true.
  cbv iota.
  match goal with
  | |- context [set_bounds ?s ?lb ?ub] => set (self := set_bounds s lb ub)
  end.
  change (max_low self) with (Some l).
  change (min_full self) with (Some f).
  cbv iota beta.
  destruct (Z.eqb_spec l 0) as [|_]; [lia|].
  change (String.eqb "integer" "integer") with true. cbv iota.
  destruct (@populate_integer_shape self l f eq_refl Hop Hl Hf) as [cs [E Hcs]].
  exists cs. split; [|exact Hcs].
  rewrite E. f_equal. unfold integer_model, with_model.
  f_equal.
  unfold self, set_bounds, ElectricalEntity_populate_model, with_model,
    op_time_vec, Py.range.
  cbn [P_El_vars CurtailableLoad.op_horizon].
  rewrite !map_map. reflexivity.
Qed.

End IntegerModelProofs.

(* ================================================================= *)
(** ** The backward scans measure the last run *)

Module RunProofs.

Import RollingHorizon.
Import CurtailableLoad.
Local Open Scope Z_scope.

(** The length of the run before [timestep] is determined by the
    schedule. *)
Lemma run_before_unique (schedule : list bool) (timestep r r' : Z)
    (state : bool) :
  run_before schedule timestep r state ->
  run_before schedule timestep r' state -> r = r'.
Proof.
  assert (H : forall a b, run_before schedule timestep a state ->
                run_before schedule timestep b state -> ~ a < b).
  { intros a b [Ha [_ Hend]] [Hb [Hrun _]] Hlt.
    destruct Hend as [Hend|Hend]; [lia|].
    rewrite Hrun in Hend by lia.
    destruct state; discriminate Hend. }
  intros Hr Hr'.
  pose proof (H _ _ Hr Hr'). pose proof (H _ _ Hr' Hr). lia.
Qed.

Section Scan.

Variable schedule : list bool.
Variable timestep : Z.

Hypothesis in_simulation : timestep <= Py.len schedule.

(** The scan over the steps at full output, started with [full_ts] steps
    already counted, returns the length of the run. *)
Lemma count_full_run (fuel : nat) :
  forall full_ts,
    1 <= full_ts <= timestep ->
    (forall j, timestep - full_ts <= j < timestep ->
       Py.index schedule j = Py.Ok true) ->
    (Z.to_nat (timestep - full_ts) < fuel)%nat ->
    exists r,
      count_full fuel schedule timestep full_ts = Py.Ok r
      /\ full_ts <= r /\ run_before schedule timestep r true.
Proof.
  induction fuel as [|fuel IH]; intros full_ts Hts Hfull Hfuel; [lia|].
  cbn [count_full].
  destruct (Z.leb_spec 0 (timestep - full_ts - 1)) as [Hge|Hlt].
  - destruct (@ScanProofs.index_in_range _ schedule (timestep - full_ts - 1))
      as [state Hstate]; [lia|].
    rewrite Hstate. cbn [Py.bind].
    destruct state.
    + destruct (IH (full_ts + 1)) as [r [Hr [Hb Hrun]]]; [lia| |lia|].
      * intros j Hj.
        destruct (Z.eq_dec j (timestep - full_ts - 1)) as [->|Hne];
          [exact Hstate|apply Hfull; lia].
      * exists r. split; [exact Hr|]. split; [lia|exact Hrun].
    + exists full_ts. split; [reflexivity|]. split; [lia|].
      split; [lia|]. split; [exact Hfull|]. right. exact Hstate.
  - exists full_ts. split; [reflexivity|]. split; [lia|].
    split; [lia|]. split; [exact Hfull|]. left. lia.
Qed.

Variable max_low : Z.

(** The scan over the steps below full output either returns the length
    of the run, which is then at most [max_low + 1], or fails its
    assertion, the [max_low + 2] steps before [timestep] being all below
    full output. *)
Lemma count_low_run (fuel : nat) :
  forall low_ts,
    1 <= low_ts <= timestep -> low_ts <= max_low + 1 ->
    (forall j, timestep - low_ts <= j < timestep ->
       Py.index schedule j = Py.Ok false) ->
    (Z.to_nat (timestep - low_ts) < fuel)%nat ->
    (exists r,
       count_low fuel schedule max_low timestep low_ts = Py.Ok r
       /\ low_ts <= r <= max_low + 1
       /\ run_before schedule timestep r false)
    \/ (count_low fuel schedule max_low timestep low_ts = Py.AssertionError
        /\ max_low + 2 <= timestep
        /\ forall j, timestep - (max_low + 2) <= j < timestep ->
             Py.index schedule j = Py.Ok false).
Proof.
  induction fuel as [|fuel IH]; intros low_ts Hts Hmax Hlow Hfuel; [lia|].
  cbn [count_low].
  destruct (Z.leb_spec 0 (timestep - low_ts - 1)) as [Hge|Hlt].
  - destruct (@ScanProofs.index_in_range _ schedule (timestep - low_ts - 1))
      as [state Hstate]; [lia|].
    rewrite Hstate. cbn [Py.bind].
    assert (Hlow' : state = false ->
              forall j, timestep - (low_ts + 1) <= j < timestep ->
                Py.index schedule j = Py.Ok false).
    { intros -> j Hj.
      destruct (Z.eq_dec j (timestep - low_ts - 1)) as [->|Hne];
        [exact Hstate|apply Hlow; lia]. }
    destruct state; cbn [negb].
    + left. exists low_ts. split; [reflexivity|]. split; [lia|].
      split; [lia|]. split; [exact Hlow|]. right. exact Hstate.
    + unfold Py.assert.
      destruct (Z.leb_spec low_ts max_low) as [Hle|Hgt]; cbn [Py.bind].
      * destruct (IH (low_ts + 1)) as [[r [Hr [Hb Hrun]]]|Hfail];
          [lia|lia|exact (Hlow' eq_refl)|lia| |].
        -- left. exists r. split; [exact Hr|]. split; [lia|exact Hrun].
        -- right. exact Hfail.
      * right. split; [reflexivity|]. split; [lia|].
        intros j Hj. apply (Hlow' eq_refl). lia.
  - left. exists low_ts. split; [reflexivity|]. split; [lia|].
    split; [lia|]. split; [exact Hlow|]. left. lia.
Qed.

End Scan.

(** The scans return the length of the run they are started behind. *)
Lemma count_full_of_run (schedule : list bool) (timestep r : Z) :
  timestep <= Py.len schedule ->
  run_before schedule timestep r true ->
  count_full (Z.to_nat timestep) schedule timestep 1 = Py.Ok r.
Proof.
  intros Hts Hrun.
  destruct (@count_full_run schedule timestep Hts (Z.to_nat timestep) 1)
    as [r' [Hr' [_ Hrun']]].
  - destruct Hrun as [H _]. lia.
  - intros j Hj. destruct Hrun as [H [Hfull _]]. apply Hfull. lia.
  - destruct Hrun as [H _]. lia.
  - rewrite Hr'. f_equal. exact (run_before_unique Hrun' Hrun).
Qed.

Lemma count_low_of_run (schedule : list bool) (max_low timestep r : Z) :
  timestep <= Py.len schedule ->
  run_before schedule timestep r false -> r <= max_low + 1 ->
  count_low (Z.to_nat timestep) schedule max_low timestep 1 = Py.Ok r.
Proof.
  intros Hts Hrun Hle.
  destruct (@count_low_run schedule timestep Hts max_low
              (Z.to_nat timestep) 1) as [[r' [Hr' [_ Hrun']]]|[_ [Hlen Hlow]]].
  - destruct Hrun as [H _]. lia.
  - destruct Hrun as [H _]. lia.
  - intros j Hj. destruct Hrun as [H [Hl _]]. apply Hl. lia.
  - destruct Hrun as [H _]. lia.
  - rewrite Hr'. f_equal. exact (run_before_unique Hrun' Hrun).
  - exfalso. destruct Hrun as [H [_ [Hend|Hend]]]; [lia|].
    rewrite Hlow in Hend by lia. discriminate Hend.
Qed.

Lemma count_low_long_run (schedule : list bool) (max_low timestep : Z) :
  0 <= max_low -> timestep <= Py.len schedule ->
  max_low + 2 <= timestep ->
  (forall j, timestep - (max_low + 2) <= j < timestep ->
     Py.index schedule j = Py.Ok false) ->
  count_low (Z.to_nat timestep) schedule max_low timestep 1
  = Py.AssertionError.
Proof.
  intros Hmax Hts Hlen Hlow.
  destruct (@count_low_run schedule timestep Hts max_low
              (Z.to_nat timestep) 1) as [[r [_ [Hr Hrun]]]|[E _]];
    try lia.
  - intros j Hj. apply Hlow. lia.
  - exfalso. destruct Hrun as [_ [_ [Hend|Hend]]]; [lia|].
    rewrite Hlow in Hend by lia. discriminate Hend.
  - exact E.
Qed.

(** X7.  When the step before the current time step was at full output,
    the first backward scan of [update_model] returns, with the fuel of
    [timestep] passes, the length of the run of steps at full output that
    ends just before the current time step: the count is at least 1, every
    counted step was at full output, and the step before them, if there is
    one, was not. *)
Theorem count_full_measures_run (schedule : list bool) (timestep : Z) :
  1 <= timestep <= Py.len schedule ->
  Py.index schedule (timestep - 1) = Py.Ok true ->
  exists r,
    count_full (Z.to_nat timestep) schedule timestep 1 = Py.Ok r
    /\ run_before schedule timestep r true
    /\ forall r', run_before schedule timestep r' true -> r' = r.
Proof.
  intros Hts Hprev.
  destruct (@count_full_run schedule timestep (proj2 Hts)
              (Z.to_nat timestep) 1) as [r [Hr [_ Hrun]]].
  - lia.
  - intros j Hj. replace j with (timestep - 1) by lia. exact Hprev.
  - lia.
  - exists r. split; [exact Hr|]. split; [exact Hrun|].
    intros r' Hr'. exact (run_before_unique Hr' Hrun).
Qed.

Lemma count_full_measures_run_witness :
  exists r,
    count_full (Z.to_nat 3) [false; true; true; false] 3 1 = Py.Ok r
    /\ run_before [false; true; true; false] 3 r true
    /\ forall r', run_before [false; true; true; false] 3 r' true -> r' = r.
Proof.
  apply (@count_full_measures_run [false; true; true; false] 3).
  - vm_compute. split; discriminate.
  - reflexivity.
Defined.

(** X8.  When the step before the current time step was below full
    output and [max_low >= 0], the second backward scan of [update_model]
    fails its assertion [low_ts <= max_low] exactly when the [max_low + 2]
    steps before the current time step were all below full output.  A run
    of [max_low + 1] such steps, one more than [max_low] allows, passes:
    for every run of at most [max_low + 1] steps the scan returns its
    length. *)
Theorem count_low_fails_iff_long_run (schedule : list bool)
    (max_low timestep : Z) :
  0 <= max_low ->
  1 <= timestep <= Py.len schedule ->
  Py.index schedule (timestep - 1) = Py.Ok false ->
  (count_low (Z.to_nat timestep) schedule max_low timestep 1
   = Py.AssertionError
   <-> max_low + 2 <= timestep
       /\ forall j, timestep - (max_low + 2) <= j < timestep ->
            Py.index schedule j = Py.Ok false)
  /\ (forall r, run_before schedule timestep r false -> r <= max_low + 1 ->
        count_low (Z.to_nat timestep) schedule max_low timestep 1
        = Py.Ok r).
Proof.
  intros Hmax Hts Hprev.
  destruct (@count_low_run schedule timestep (proj2 Hts) max_low
              (Z.to_nat timestep) 1) as [[r [Hr [Hb Hrun]]]|[Hfail Hlong]].
  - lia.
  - lia.
  - intros j Hj. replace j with (timestep - 1) by lia. exact Hprev.
  - lia.
  - split.
    + split; [rewrite Hr; discriminate|].
      intros [Hlen Hlow]. exfalso.
      destruct Hrun as [_ [_ [Hend|Hend]]]; [lia|].
      rewrite Hlow in Hend by lia. discriminate Hend.
    + intros r' Hr' _. rewrite Hr. f_equal.
      exact (run_before_unique Hrun Hr').
  - split.
    + split; [intros _; exact Hlong|intros _; exact Hfail].
    + intros r [Hr [_ [Hend|Hend]]] Hle; exfalso; [lia|].
      destruct Hlong as [_ Hlow].
      rewrite Hlow in Hend by lia. discriminate Hend.
Qed.

Lemma count_low_fails_iff_long_run_witness :
  (count_low (Z.to_nat 3) [false; false; false] 1 3 1 = Py.AssertionError
   <-> 1 + 2 <= 3
       /\ forall j, 3 - (1 + 2) <= j < 3 ->
            Py.index [false; false; false] j = Py.Ok false)
  /\ (forall r, run_before [false; false; false] 3 r false -> r <= 1 + 1 ->
        count_low (Z.to_nat 3) [false; false; false] 1 3 1 = Py.Ok r).
Proof.
  apply (@count_low_fails_iff_long_run [false; false; false] 1 3).
  - lia.
  - vm_compute. split; discriminate.
  - reflexivity.
Defined.

End RunProofs.

(* ================================================================= *)
(** ** What the integer model of a window allows *)

Module WindowRuleProofs.

Import Gurobi CurtailableLoadSpec SliceLemmas RollingHorizon.
Import IndicatorLemmas IntegerModelProofs.
Import CurtailableLoad.
Local Open Scope Z_scope.

Lemma satisfies_coupling (a : var -> R) (nominal : R) (k : nat) :
  satisfies a (coupling_at nominal k)
  <-> (nominal * a (P_State k) <= a (P_El k))%R.
Proof.
  unfold satisfies, coupling_at, eval. cbn [sns lhs RHS le_bound fold_right
    fst snd]. split; intro; lra.
Qed.

Lemma satisfies_one_full_among (a : var -> R) (k n : nat) :
  satisfies a (one_full_among k n)
  <-> (1 <= NumPy.total (map a (indicators k n)))%R.
Proof.
  unfold satisfies, one_full_among. cbn [sns lhs RHS ge_bound].
  rewrite EnergyLemmas.eval_quicksum. reflexivity.
Qed.

Lemma satisfies_stay_full_after (a : var -> R) (k n : nat) :
  satisfies a (stay_full_after k n)
  <-> (INR n * (a (P_State (S k)) - a (P_State k))
       <= NumPy.total (map a (indicators (k + 2) n)))%R.
Proof.
  unfold satisfies, stay_full_after. cbn [sns lhs RHS le_bound].
  unfold eval at 1. cbn [fold_right fst snd].
  fold (eval a (minus_quicksum (indicators (k + 2) n))).
  rewrite eval_minus_quicksum, INR_IZR_INZ. split; intro; lra.
Qed.

Lemma satisfies_first_states (a : var -> R) (n : nat) (b : R) :
  satisfies a (first_states n (Num b))
  <-> (b <= NumPy.total (map a (indicators 0 n)))%R.
Proof.
  unfold satisfies, first_states. cbn [sns lhs RHS ge_bound].
  rewrite EnergyLemmas.eval_quicksum. reflexivity.
Qed.

Lemma satisfies_stay_full_from_start (a : var -> R) (n : nat) (b : R) :
  satisfies a (stay_full_from_start n (Num b))
  <-> (INR n * a (P_State 0) - NumPy.total (map a (indicators 1 n))
       <= b)%R.
Proof.
  unfold satisfies, stay_full_from_start. cbn [sns lhs RHS le_bound].
  unfold eval at 1. cbn [fold_right fst snd].
  fold (eval a (minus_quicksum (indicators 1 n))).
  rewrite eval_minus_quicksum, INR_IZR_INZ. split; intro; lra.
Qed.

Lemma total_ones (nominal : R) (n : nat) :
  forall start,
    NumPy.total (map (Examples.always_full nominal) (indicators start n))
    = INR n.
Proof.
  induction n as [|n IH]; intro start; [reflexivity|].
  rewrite S_INR. specialize (IH (S start)).
  unfold indicators, NumPy.total in *. cbn [seq map fold_right].
  rewrite IH. cbn [Examples.always_full]. lra.
Qed.

Section Window.

Variables op_horizon simu_horizon : Z.
Variables nominal max_curtailment : R.
Variables l f : Z.
Variable cs : list Constr.

Hypothesis constraints :
  integer_constraints nominal l f (Z.to_nat op_horizon) cs.

Let self :=
  integer_model op_horizon simu_horizon nominal max_curtailment l f cs.
Let n := Z.to_nat op_horizon.

Variable a : var -> R.

Hypothesis allowed : feasible_in_window self a.

Lemma window_binary (start m : nat) :
  (start + m <= n)%nat -> binary_on a start m.
Proof.
  intros Hm k Hk. destruct allowed as [_ [Hbin _]]. apply Hbin.
  unfold self, integer_model. cbn [P_State_vars].
  unfold indicators. apply in_map, in_seq. fold n. lia.
Qed.

Lemma window_power_bounds (k : nat) :
  (k < n)%nat -> (nominal * max_curtailment <= a (P_El k) <= nominal)%R.
Proof.
  intro Hk. destruct allowed as [Hb _].
  destruct (Hb k (Num (nominal * max_curtailment)%R) (Num nominal))
    as [Hlb Hub].
  - unfold self, integer_model. cbn [P_El_vars].
    rewrite nth_error_map, nth_error_seq. fold n.
    destruct (Nat.ltb_spec k n); [reflexivity|lia].
  - cbn [ge_bound le_bound] in Hlb, Hub. lra.
Qed.

Lemma window_satisfies (c : Constr) : In c cs -> satisfies a c.
Proof.
  intro Hin. destruct allowed as [_ [_ Hc]].
  rewrite Forall_forall in Hc. apply Hc. exact Hin.
Qed.

(** An indicator at 1 means nominal power. *)
Lemma full_state_full_power (k : nat) :
  (k < n)%nat -> a (P_State k) = 1%R -> a (P_El k) = nominal.
Proof.
  intros Hk E.
  destruct constraints as [Hc _].
  pose proof (@window_satisfies _ (Hc k Hk)) as H.
  apply satisfies_coupling in H. rewrite E in H.
  pose proof (@window_power_bounds k Hk). lra.
Qed.

Lemma one_full_in_window (k : nat) :
  (k + Z.to_nat l + 1 <= n)%nat ->
  exists j, (k <= j <= k + Z.to_nat l)%nat /\ a (P_State j) = 1%R.
Proof.
  intro Hk. destruct constraints as [_ [Hw _]].
  pose proof (@window_satisfies _ (Hw k Hk)) as H.
  apply satisfies_one_full_among in H.
  destruct (@some_indicator a (Z.to_nat l + 1) k) as [j [Hj Ej]].
  - apply window_binary. lia.
  - exact H.
  - exists j. split; [lia|exact Ej].
Qed.

Lemma full_run_in_window (k : nat) :
  a (P_State k) = 0%R -> a (P_State (S k)) = 1%R ->
  forall j, (k + 2 <= j < k + 1 + Z.to_nat f)%nat -> (j < n)%nat ->
    a (P_State j) = 1%R.
Proof.
  intros E0 E1 j Hj Hn.
  destruct constraints as [_ [_ [Hr _]]].
  assert (Hf : 1 < f) by lia.
  assert (Hk : (k + 2 < n)%nat) by lia.
  pose proof (@window_satisfies _ (Hr Hf k Hk)) as H.
  apply satisfies_stay_full_after in H. rewrite E0, E1 in H.
  apply (@all_indicators a
           (Nat.min (Z.to_nat f - 1) (Z.to_nat op_horizon - (k + 2)))
           (k + 2)).
  - apply window_binary. unfold n. lia.
  - lra.
  - unfold n in Hn. lia.
Qed.

End Window.

(** Nominal power in every step, with every indicator at 1, satisfies the
    constraints of the window. *)
Lemma always_full_in_window (op_horizon simu_horizon : Z)
    (nominal max_curtailment : R) (l f : Z) (cs : list Constr) :
  integer_constraints nominal l f (Z.to_nat op_horizon) cs ->
  (nominal * max_curtailment <= nominal)%R ->
  feasible_in_window
    (integer_model op_horizon simu_horizon nominal max_curtailment l f cs)
    (Examples.always_full nominal).
Proof.
  intros [_ [_ [_ Hshape]]] Hcurt.
  pose proof (total_ones nominal) as Hsum.
  split; [|split].
  - intros k lb ub E. unfold integer_model in E. cbn [P_El_vars] in E.
    rewrite nth_error_map in E.
    destruct (nth_error _ k); [|discriminate E].
    inversion E; subst. cbn [Examples.always_full ge_bound le_bound].
    split; lra.
  - intros v Hv. unfold integer_model in Hv. cbn [P_State_vars] in Hv.
    unfold indicators in Hv. apply in_map_iff in Hv.
    destruct Hv as [k [<- _]]. right. reflexivity.
  - apply Forall_forall. intros c Hc. unfold integer_model in Hc.
    cbn [constrs] in Hc.
    destruct (Hshape c Hc) as [[k ->]|[[k ->]|[k [j ->]]]].
    + apply satisfies_coupling. cbn [Examples.always_full]. lra.
    + apply satisfies_one_full_among. rewrite Hsum, plus_INR.
      pose proof (pos_INR (Z.to_nat l)). simpl INR at 2. lra.
    + apply satisfies_stay_full_after. rewrite Hsum.
      cbn [Examples.always_full]. pose proof (pos_INR j). lra.
Qed.

(** X9.  A new load with [max_low >= 1] on a window of at least one step:
    [populate_model] in integer mode returns a model in which every
    allowed assignment keeps the rule on [max_low] inside the window:
    among every [max_low + 1] steps in a row there is one whose indicator
    is 1, and in that step the power is nominal.  Nominal power
    throughout is allowed when the curtailed power does not exceed the
    nominal one. *)
Theorem window_keeps_max_low (op_horizon simu_horizon : Z)
    (nominal max_curtailment : R) (l f : Z) :
  1 <= op_horizon -> 1 <= l -> 1 <= f ->
  exists self,
    populated op_horizon simu_horizon nominal max_curtailment
      (Some l) (Some f) "integer" = Py.Ok self
    /\ (forall a, feasible_in_window self a ->
          forall k, (k + Z.to_nat l + 1 <= Z.to_nat op_horizon)%nat ->
            exists j, (k <= j <= k + Z.to_nat l)%nat
                      /\ a (P_State j) = 1%R /\ a (P_El j) = nominal)
    /\ ((nominal * max_curtailment <= nominal)%R ->
        feasible_in_window self (Examples.always_full nominal)).
Proof.
  intros Hop Hl Hf.
  destruct (@populated_integer op_horizon simu_horizon nominal
              max_curtailment l f Hop Hl Hf) as [cs [E Hcs]].
  eexists. split; [exact E|]. split.
  - intros a Ha k Hk.
    destruct (one_full_in_window Hcs Ha k Hk) as [j [Hj Ej]].
    exists j. split; [exact Hj|]. split; [exact Ej|].
    apply (full_state_full_power Hcs Ha); [lia|exact Ej].
  - intro Hcurt. apply always_full_in_window; assumption.
Qed.

Lemma window_keeps_max_low_witness :
  exists self,
    populated 6 12 10 (2 / 10) (Some 2) (Some 2) "integer" = Py.Ok self
    /\ (forall a, feasible_in_window self a ->
          forall k, (k + Z.to_nat 2 + 1 <= Z.to_nat 6)%nat ->
            exists j, (k <= j <= k + Z.to_nat 2)%nat
                      /\ a (P_State j) = 1%R /\ a (P_El j) = 10%R)
    /\ ((10 * (2 / 10) <= 10)%R ->
        feasible_in_window self (Examples.always_full 10)).
Proof.
  apply (@window_keeps_max_low 6 12 10 (2 / 10)%R 2 2); lia.
Defined.

(** X10.  In the same model every allowed assignment keeps the rule on
    [min_full] inside the window: when the indicator is 0 in step [k] and
    1 in step [k + 1], it is 1, and the power nominal, in every step of
    the window from [k + 1] to [k + min_full]. *)
Theorem window_keeps_min_full (op_horizon simu_horizon : Z)
    (nominal max_curtailment : R) (l f : Z) :
  1 <= op_horizon -> 1 <= l -> 1 <= f ->
  exists self,
    populated op_horizon simu_horizon nominal max_curtailment
      (Some l) (Some f) "integer" = Py.Ok self
    /\ forall a, feasible_in_window self a ->
         forall k, a (P_State k) = 0%R -> a (P_State (S k)) = 1%R ->
           forall j, (k + 1 <= j < k + 1 + Z.to_nat f)%nat ->
             (j < Z.to_nat op_horizon)%nat ->
             a (P_State j) = 1%R /\ a (P_El j) = nominal.
Proof.
  intros Hop Hl Hf.
  destruct (@populated_integer op_horizon simu_horizon nominal
              max_curtailment l f Hop Hl Hf) as [cs [E Hcs]].
  eexists. split; [exact E|].
  intros a Ha k E0 E1 j Hj Hn.
  assert (Ej : a (P_State j) = 1%R).
  { destruct (Nat.eq_dec j (S k)) as [->|Hne]; [exact E1|].
    apply (full_run_in_window Hcs Ha k E0 E1); lia. }
  split; [exact Ej|].
  apply (full_state_full_power Hcs Ha); [exact Hn|exact Ej].
Qed.

Lemma window_keeps_min_full_witness :
  exists self,
    populated 6 12 10 (2 / 10) (Some 2) (Some 3) "integer" = Py.Ok self
    /\ forall a, feasible_in_window self a ->
         forall k, a (P_State k) = 0%R -> a (P_State (S k)) = 1%R ->
           forall j, (k + 1 <= j < k + 1 + Z.to_nat 3)%nat ->
             (j < Z.to_nat 6)%nat ->
             a (P_State j) = 1%R /\ a (P_El j) = 10%R.
Proof.
  apply (@window_keeps_min_full 6 12 10 (2 / 10)%R 2 3); lia.
Defined.

End WindowRuleProofs.

(* ================================================================= *)
(** ** [update_model] on the integer model *)

Module UpdateProofs.

Import Gurobi CurtailableLoadSpec SliceLemmas RollingHorizon.
Import IndicatorLemmas IntegerModelProofs RunProofs WindowRuleProofs.
Import CurtailableLoad.
Local Open Scope Z_scope.

Lemma reset_history (s n : nat) :
  map (set_RHS NegInfinity)
    (map (fun k => first_states k NegInfinity) (seq s n))
  = map (fun k => first_states k NegInfinity) (seq s n).
Proof. rewrite map_map. reflexivity. Qed.

Lemma history_unconstrained (a : var -> R) (s n : nat) :
  Forall (satisfies a) (map (fun k => first_states k NegInfinity) (seq s n)).
Proof.
  apply Forall_forall. intros c Hc. apply in_map_iff in Hc.
  destruct Hc as [k [<- _]]. exact I.
Qed.

(** After one bound has been written, the history constraints hold
    exactly when the constraint that received it does. *)
Lemma history_one_bound (a : var -> R) (b : R) (n : nat) :
  forall s i, (i < n)%nat ->
    Forall (satisfies a)
      (Py.set_nth (map (fun k => first_states k NegInfinity) (seq s n)) i
         (set_RHS (Num b)))
    <-> satisfies a (first_states (s + i) (Num b)).
Proof.
  induction n as [|n IH]; intros s i Hi; [lia|].
  cbn [seq map]. destruct i as [|i]; cbn [Py.set_nth].
  - rewrite Forall_cons_iff, Nat.add_0_r.
    split; [intros [H _]; exact H|].
    intro H. split; [exact H|apply history_unconstrained].
  - rewrite Forall_cons_iff, IH by lia.
    replace (S s + i)%nat with (s + S i)%nat by lia.
    split; [intros [_ H]; exact H|intro H; split; [exact I|exact H]].
Qed.

Lemma update_history (n : nat) (j : Z) (i : nat) (b : bound) :
  Py.norm_index (Z.of_nat n) j = Some i ->
  Py.update (map (fun k => first_states k NegInfinity) (seq 1 n)) j
    (set_RHS b)
  = Py.Ok (Py.set_nth (map (fun k => first_states k NegInfinity) (seq 1 n))
             i (set_RHS b)).
Proof.
  intro H. unfold Py.update, Py.len.
  rewrite length_map, length_seq, H. reflexivity.
Qed.

Lemma norm_index_front (n j : Z) :
  0 <= j < n -> Py.norm_index n j = Some (Z.to_nat j).
Proof.
  intro H. unfold Py.norm_index.
  destruct (Z.ltb_spec j 0); [lia|].
  destruct (Z.leb_spec 0 j); [|lia].
  destruct (Z.ltb_spec j n); [|lia]. reflexivity.
Qed.

Lemma norm_index_back (n : Z) :
  1 <= n -> Py.norm_index n (-1) = Some (Z.to_nat (n - 1)).
Proof.
  intro H. unfold Py.norm_index. change (-1 <? 0) with true. cbv iota.
  destruct (Z.leb_spec 0 (-1 + n)); [|lia].
  destruct (Z.ltb_spec (-1 + n) n); [|lia].
  cbn [andb]. f_equal. lia.
Qed.

Section Update.

Variables op_horizon simu_horizon : Z.
Variables nominal max_curtailment : R.
Variables l f : Z.
Variable cs : list Constr.
Variable states : list bool.
Variable powers : list R.
Variable timestep : Z.

Hypothesis window_nonempty : 1 <= op_horizon.
Hypothesis l_positive : 1 <= l.
Hypothesis f_positive : 1 <= f.
Hypothesis in_simulation : timestep <= Py.len states.

Let model :=
  integer_model op_horizon simu_horizon nominal max_curtailment l f cs.
Let self := with_schedule model states powers.
Let overlaps := Z.to_nat (Z.min (Z.max l (f - 1)) op_horizon).
Let history := map (fun k => first_states k NegInfinity) (seq 1 overlaps).
Let rest := Z.to_nat (Z.min f op_horizon - 1).

(** With a history, [update_model] on the integer model is its first
    block: there are state constraints and no energy constraints. *)
Lemma update_model_integer :
  timestep <> 0 -> update_model self timestep = update_integer self timestep.
Proof.
  intro Hts. unfold update_model.
  destruct (Z.eqb_spec timestep 0) as [|_]; [contradiction|].
  unfold self at 1, model at 1, with_schedule, integer_model.
  cbn [constr_previous_state]. unfold Py.len at 1.
  rewrite length_map, length_seq.
  destruct (Z.ltb_spec 0
              (Z.of_nat (Z.to_nat (Z.min (Z.max l (f - 1)) op_horizon))));
    [|lia].
  cbn [negb andb]. unfold update_integer.
  destruct (Py.index (P_State_Schedule self) (timestep - 1));
    cbn [Py.bind]; try reflexivity.
  match goal with
  | |- Py.bind (Py.bind ?x _) _ = _ => destruct x
  end; cbn [Py.bind]; reflexivity.
Qed.

Lemma update_integer_full (r : Z) :
  run_before states timestep r true ->
  update_integer self timestep
  = (prev_state <-
       (if timestep - r - 1 <? 0 then Py.Ok history
        else if f - r <=? 0 then Py.Ok history
        else if op_horizon <? f - r then
          Py.update history (-1) (set_RHS (Num (IZR op_horizon)))
        else
          Py.update history (f - r - 1) (set_RHS (Num (IZR (f - r))))) ;;
     Py.Ok (updated_model op_horizon simu_horizon nominal max_curtailment
               l f cs states powers prev_state Infinity)).
Proof.
  intro Hrun. unfold update_integer.
  unfold self, model, with_schedule, integer_model.
  cbn [P_State_Schedule constr_previous_state constr_previous_start
       min_full max_low CurtailableLoad.op_horizon P_El_vars P_State_vars constrs
       constr_previous].
  rewrite reset_history. fold overlaps. fold history.
  assert (Hprev : Py.index states (timestep - 1) = Py.Ok true).
  { destruct Hrun as [H [Hfull _]]. apply Hfull. lia. }
  rewrite Hprev. cbn [Py.bind].
  rewrite (@count_full_of_run states timestep r in_simulation Hrun). cbn [Py.bind].
  unfold updated_model, self, model, with_schedule, integer_model,
    with_model.
  cbn [P_State_Schedule constr_previous_state constr_previous_start
       min_full max_low CurtailableLoad.op_horizon P_El_vars P_State_vars constrs
       constr_previous P_El_Nom max_curt P_El_Curt P_El_Schedule].
  fold rest.
  destruct (1 <? f); reflexivity.
Qed.

Lemma update_integer_low (r : Z) :
  run_before states timestep r false -> r <= l + 1 ->
  update_integer self timestep
  = (prev_state <-
       (if l - r + 1 <=? op_horizon then
          Py.update history (l - r + 1 - 1) (set_RHS (Num 1))
        else Py.Ok history) ;;
     Py.Ok (updated_model op_horizon simu_horizon nominal max_curtailment
               l f cs states powers prev_state (Num 0))).
Proof.
  intros Hrun Hle. unfold update_integer.
  unfold self, model, with_schedule, integer_model.
  cbn [P_State_Schedule constr_previous_state constr_previous_start
       min_full max_low CurtailableLoad.op_horizon P_El_vars P_State_vars constrs
       constr_previous].
  rewrite reset_history. fold overlaps. fold history.
  assert (Hprev : Py.index states (timestep - 1) = Py.Ok false).
  { destruct Hrun as [H [Hlow _]]. apply Hlow. lia. }
  rewrite Hprev. cbn [Py.bind].
  rewrite (@count_low_of_run states l timestep r in_simulation Hrun Hle). cbn [Py.bind].
  unfold updated_model, self, model, with_schedule, integer_model,
    with_model.
  cbn [P_State_Schedule constr_previous_state constr_previous_start
       min_full max_low CurtailableLoad.op_horizon P_El_vars P_State_vars constrs
       constr_previous P_El_Nom max_curt P_El_Curt P_El_Schedule].
  fold rest.
  destruct (1 <? f); reflexivity.
Qed.

(** The allowed assignments of the updated model. *)
Lemma feasible_result (prev_state : list Constr) (b : bound)
    (a : var -> R) :
  feasible
    (updated_model op_horizon simu_horizon nominal max_curtailment
       l f cs states powers prev_state b) a
  <-> feasible_in_window model a
      /\ Forall (satisfies a) prev_state
      /\ (1 < f -> satisfies a (stay_full_from_start rest b)).
Proof.
  unfold feasible, history_constraints.
  change (feasible_in_window
            (updated_model op_horizon simu_horizon nominal max_curtailment
               l f cs states powers prev_state b) a)
    with (feasible_in_window model a).
  unfold updated_model.
  cbn [constr_previous_state constr_previous constr_previous_start
       with_model app].
  rewrite Forall_app. fold rest.
  destruct (Z.ltb_spec 1 f) as [Hf|Hf]; cbn [option_list].
  - rewrite Forall_cons_iff. split.
    + intros [Hw [Hp [Hs _]]]. split; [exact Hw|].
      split; [exact Hp|]. intros _. exact Hs.
    + intros [Hw [Hp Hs]]. split; [exact Hw|]. split; [exact Hp|].
      split; [apply Hs; exact Hf|constructor].
  - split.
    + intros [Hw [Hp _]]. split; [exact Hw|].
      split; [exact Hp|intro; lia].
    + intros [Hw [Hp _]]. split; [exact Hw|].
      split; [exact Hp|constructor].
Qed.

End Update.

Lemma binary_prefix (a : var -> R) (n start m : nat) :
  binary_on a 0 n -> (start + m <= n)%nat -> binary_on a start m.
Proof. intros Hb Hm k Hk. apply Hb. lia. Qed.

Lemma first_states_all (a : var -> R) (n q : nat) :
  binary_on a 0 n -> (q <= n)%nat ->
  satisfies a (first_states q (Num (IZR (Z.of_nat q))))
  <-> forall k, (k < q)%nat -> a (P_State k) = 1%R.
Proof.
  intros Hb Hq. rewrite satisfies_first_states, <- INR_IZR_INZ. split.
  - intros H k Hk.
    apply (@all_indicators a q 0%nat); [|exact H|lia].
    apply (@binary_prefix a n 0%nat q Hb). lia.
  - intro H. apply all_indicators_enough. intros k Hk. apply H. lia.
Qed.

Lemma first_states_some (a : var -> R) (n q : nat) :
  binary_on a 0 n -> (q <= n)%nat ->
  satisfies a (first_states q (Num 1))
  <-> exists k, (k < q)%nat /\ a (P_State k) = 1%R.
Proof.
  intros Hb Hq. rewrite satisfies_first_states.
  assert (Hbq : binary_on a 0 q)
    by (apply (@binary_prefix a n 0%nat q Hb); lia).
  split.
  - intro H. destruct (@some_indicator a q 0%nat Hbq H) as [k [Hk Ek]].
    exists k. split; [lia|exact Ek].
  - intros [k [Hk Ek]]. apply (@some_indicator_enough a q 0%nat Hbq).
    exists k. split; [lia|exact Ek].
Qed.

Lemma start_rule (a : var -> R) (n m : nat) :
  binary_on a 0 n -> (1 + m <= n)%nat ->
  satisfies a (stay_full_from_start m (Num 0))
  <-> (a (P_State 0) = 1%R ->
       forall j, (1 <= j < 1 + m)%nat -> a (P_State j) = 1%R).
Proof.
  intros Hb Hm. rewrite satisfies_stay_full_from_start.
  assert (Hbm : binary_on a 1 m)
    by (apply (@binary_prefix a n 1%nat m Hb); lia).
  pose proof (@indicators_lower a m 1%nat Hbm) as Hlow.
  destruct (Hb 0%nat) as [E|E]; [lia| |]; rewrite E.
  - split; [intros _ H; exfalso; lra|intros _; lra].
  - split.
    + intros H _ j Hj.
      apply (@all_indicators a m 1%nat Hbm); [lra|lia].
    + intro H.
      assert (INR m <= NumPy.total (map a (indicators 1 m)))%R
        by (apply all_indicators_enough; intros k Hk; apply H;
            [reflexivity|lia]).
      lra.
Qed.

(** A new load, its integer model and [update_model] at a later time
    step: the update is the first block of [update_model] on the integer
    model. *)
Lemma updated_integer (op_horizon simu_horizon : Z)
    (nominal max_curtailment : R) (l f : Z) (states : list bool)
    (powers : list R) (timestep : Z) :
  1 <= op_horizon -> 1 <= l -> 1 <= f -> timestep <> 0 ->
  exists cs,
    integer_constraints nominal l f (Z.to_nat op_horizon) cs
    /\ updated op_horizon simu_horizon nominal max_curtailment
         (Some l) (Some f) "integer" states powers timestep
       = update_integer
           (with_schedule
              (integer_model op_horizon simu_horizon nominal
                 max_curtailment l f cs) states powers) timestep.
Proof.
  intros Hop Hl Hf Hts.
  destruct (@populated_integer op_horizon simu_horizon nominal
              max_curtailment l f Hop Hl Hf) as [cs [E Hcs]].
  exists cs. split; [exact Hcs|].
  unfold updated. rewrite E. cbn [Py.bind].
  apply update_model_integer; assumption.
Qed.

(** The bounds written after a run at full output: the first
    [min(min_full - r, op_horizon)] indicators are forced to 1, unless the
    run reaches back to the start of the simulation. *)
Lemma full_history (op_horizon l f r timestep : Z) :
  1 <= op_horizon -> 1 <= l -> 1 <= f -> 1 <= r <= timestep ->
  exists prev_state,
    (if timestep - r - 1 <? 0 then
       Py.Ok (map (fun k => first_states k NegInfinity)
                (seq 1 (Z.to_nat (Z.min (Z.max l (f - 1)) op_horizon))))
     else if f - r <=? 0 then
       Py.Ok (map (fun k => first_states k NegInfinity)
                (seq 1 (Z.to_nat (Z.min (Z.max l (f - 1)) op_horizon))))
     else if op_horizon <? f - r then
       Py.update
         (map (fun k => first_states k NegInfinity)
            (seq 1 (Z.to_nat (Z.min (Z.max l (f - 1)) op_horizon))))
         (-1) (set_RHS (Num (IZR op_horizon)))
     else
       Py.update
         (map (fun k => first_states k NegInfinity)
            (seq 1 (Z.to_nat (Z.min (Z.max l (f - 1)) op_horizon))))
         (f - r - 1) (set_RHS (Num (IZR (f - r)))))
    = Py.Ok prev_state
    /\ forall a, binary_on a 0 (Z.to_nat op_horizon) ->
         Forall (satisfies a) prev_state
         <-> (r < timestep ->
              forall k, Z.of_nat k < Z.min (f - r) op_horizon ->
                a (P_State k) = 1%R).
Proof.
  intros Hop Hl Hf Hr.
  set (overlaps := Z.to_nat (Z.min (Z.max l (f - 1)) op_horizon)).
  destruct (Z.ltb_spec (timestep - r - 1) 0) as [Hstart|Hstart].
  { eexists. split; [reflexivity|]. intros a _.
    split; [intros _ H; lia|intros _; apply history_unconstrained]. }
  destruct (Z.leb_spec (f - r) 0) as [Hdone|Hdue].
  { eexists. split; [reflexivity|]. intros a _.
    split; [intros _ _ k Hk; lia|intros _; apply history_unconstrained]. }
  destruct (Z.ltb_spec op_horizon (f - r)) as [Hall|Hsome].
  - rewrite (@update_history overlaps (-1) (Z.to_nat (Z.of_nat overlaps - 1)))
      by (apply norm_index_back; unfold overlaps; lia).
    eexists. split; [reflexivity|]. intros a Hb.
    rewrite history_one_bound by (unfold overlaps; lia).
    replace (1 + Z.to_nat (Z.of_nat overlaps - 1))%nat
      with (Z.to_nat op_horizon) by (unfold overlaps; lia).
    replace op_horizon with (Z.of_nat (Z.to_nat op_horizon)) at 2 by lia.
    rewrite (@first_states_all a (Z.to_nat op_horizon)) by (auto; lia).
    split.
    + intros H _ k Hk. apply H. lia.
    + intros H k Hk. apply H; lia.
  - rewrite (@update_history overlaps (f - r - 1) (Z.to_nat (f - r - 1)))
      by (apply norm_index_front; unfold overlaps; lia).
    eexists. split; [reflexivity|]. intros a Hb.
    rewrite history_one_bound by (unfold overlaps; lia).
    replace (1 + Z.to_nat (f - r - 1))%nat with (Z.to_nat (f - r)) by lia.
    replace (f - r) with (Z.of_nat (Z.to_nat (f - r))) at 2 by lia.
    rewrite (@first_states_all a (Z.to_nat op_horizon)) by (auto; lia).
    split.
    + intros H _ k Hk. apply H. lia.
    + intros H k Hk. apply H; lia.
Qed.

(** The bound written after a run of [r] steps below full output: one of
    the first [max_low - r + 1] indicators is forced to 1 when the window
    is that long; after a run of [max_low + 1] steps the index [-1] picks
    the last state constraint. *)
Lemma low_history (op_horizon l f r : Z) :
  1 <= op_horizon -> 1 <= l -> 1 <= f -> 1 <= r <= l + 1 ->
  exists prev_state,
    (if l - r + 1 <=? op_horizon then
       Py.update
         (map (fun k => first_states k NegInfinity)
            (seq 1 (Z.to_nat (Z.min (Z.max l (f - 1)) op_horizon))))
         (l - r + 1 - 1) (set_RHS (Num 1))
     else
       Py.Ok (map (fun k => first_states k NegInfinity)
                (seq 1 (Z.to_nat (Z.min (Z.max l (f - 1)) op_horizon)))))
    = Py.Ok prev_state
    /\ forall a, binary_on a 0 (Z.to_nat op_horizon) ->
         Forall (satisfies a) prev_state
         <-> (l - r + 1 <= op_horizon ->
              exists k,
                Z.of_nat k < (if r <=? l then l - r + 1
                              else Z.min (Z.max l (f - 1)) op_horizon)
                /\ a (P_State k) = 1%R).
Proof.
  intros Hop Hl Hf Hr.
  set (overlaps := Z.to_nat (Z.min (Z.max l (f - 1)) op_horizon)).
  destruct (Z.leb_spec (l - r + 1) op_horizon) as [Hshort|Hlong].
  - destruct (Z.leb_spec r l) as [Hrule|Hbroken].
    + rewrite (@update_history overlaps (l - r + 1 - 1)
                 (Z.to_nat (l - r + 1 - 1)))
        by (apply norm_index_front; unfold overlaps; lia).
      eexists. split; [reflexivity|]. intros a Hb.
      rewrite history_one_bound by (unfold overlaps; lia).
      rewrite (@first_states_some a (Z.to_nat op_horizon)) by (auto; lia).
      split.
      * intros [k [Hk Ek]] _. exists k. split; [lia|exact Ek].
      * intros H. destruct (H Hshort) as [k [Hk Ek]].
        exists k. split; [lia|exact Ek].
    + replace (l - r + 1 - 1) with (-1) by lia.
      rewrite (@update_history overlaps (-1)
                 (Z.to_nat (Z.of_nat overlaps - 1)))
        by (apply norm_index_back; unfold overlaps; lia).
      eexists. split; [reflexivity|]. intros a Hb.
      rewrite history_one_bound by (unfold overlaps; lia).
      rewrite (@first_states_some a (Z.to_nat op_horizon))
        by (auto; unfold overlaps; lia).
      split.
      * intros [k [Hk Ek]] _. exists k.
        split; [unfold overlaps in Hk; lia|exact Ek].
      * intros H. destruct (H Hshort) as [k [Hk Ek]].
        exists k. split; [unfold overlaps; lia|exact Ek].
  - eexists. split; [reflexivity|]. intros a _.
    split; [intros _ H; lia|intros _; apply history_unconstrained].
Qed.

(** The start constraint with the bound 0: an indicator at 1 in step 0
    keeps the indicators at 1 up to step [min_full - 1]. *)
Lemma start_history (op_horizon f : Z) (a : var -> R) :
  1 <= op_horizon -> 1 <= f -> binary_on a 0 (Z.to_nat op_horizon) ->
  (1 < f ->
   satisfies a
     (stay_full_from_start (Z.to_nat (Z.min f op_horizon - 1)) (Num 0)))
  <-> (a (P_State 0) = 1%R ->
       forall j, (1 <= j)%nat -> Z.of_nat j < Z.min f op_horizon ->
         a (P_State j) = 1%R).
Proof.
  intros Hop Hf Hb.
  destruct (Z.ltb_spec 1 f) as [Hlong|Hone].
  - assert (Hm : (1 + Z.to_nat (Z.min f op_horizon - 1)
                  <= Z.to_nat op_horizon)%nat) by lia.
    destruct (@start_rule a (Z.to_nat op_horizon)
                (Z.to_nat (Z.min f op_horizon - 1)) Hb Hm) as [H1 H2].
    split.
    + intros H E j Hj Hlt. apply (H1 (H Hlong) E). lia.
    + intros H _. apply H2. intros E j Hj. apply (H E); lia.
  - split; [intros _ _ j Hj Hlt; lia|intros _ H; lia].
Qed.

(** [update_model] after a run of [r <= max_low + 1] steps below full
    output. *)
Lemma updated_after_low (op_horizon simu_horizon : Z)
    (nominal max_curtailment : R) (l f : Z) (states : list bool)
    (powers : list R) (timestep r : Z) :
  1 <= op_horizon -> 1 <= l -> 1 <= f ->
  (nominal * max_curtailment <= nominal)%R ->
  timestep <= Py.len states ->
  run_before states timestep r false -> r <= l + 1 ->
  exists self,
    updated op_horizon simu_horizon nominal max_curtailment
      (Some l) (Some f) "integer" states powers timestep = Py.Ok self
    /\ (forall a,
          feasible self a
          <-> feasible_in_window self a
              /\ (l - r + 1 <= op_horizon ->
                  exists k,
                    Z.of_nat k < (if r <=? l then l - r + 1
                                  else Z.min (Z.max l (f - 1)) op_horizon)
                    /\ a (P_State k) = 1%R)
              /\ (a (P_State 0) = 1%R ->
                  forall j, (1 <= j)%nat -> Z.of_nat j < Z.min f op_horizon ->
                    a (P_State j) = 1%R))
    /\ feasible self (Examples.always_full nominal).
Proof.
  intros Hop Hl Hf Hcurt Hts Hrun Hle.
  assert (Hr : 1 <= r <= timestep) by (destruct Hrun as [H _]; exact H).
  destruct (@updated_integer op_horizon simu_horizon nominal max_curtailment
              l f states powers timestep Hop Hl Hf) as [cs [Hcs E]]; [lia|].
  rewrite E.
  rewrite (@update_integer_low op_horizon simu_horizon nominal
             max_curtailment l f cs states powers timestep Hts r Hrun Hle).
  destruct (@low_history op_horizon l f r Hop Hl Hf) as [prev [Ep Hprev]];
    [lia|].
  rewrite Ep. cbn [Py.bind].
  eexists. split; [reflexivity|].
  match goal with
  | |- (forall a, feasible ?s a <-> _) /\ _ =>
      assert (Hiff : forall a,
        feasible s a
        <-> feasible_in_window s a
            /\ (l - r + 1 <= op_horizon ->
                exists k,
                  Z.of_nat k < (if r <=? l then l - r + 1
                                else Z.min (Z.max l (f - 1)) op_horizon)
                  /\ a (P_State k) = 1%R)
            /\ (a (P_State 0) = 1%R ->
                forall j, (1 <= j)%nat -> Z.of_nat j < Z.min f op_horizon ->
                  a (P_State j) = 1%R))
  end.
  { intro a. rewrite feasible_result.
    change (feasible_in_window
              (updated_model op_horizon simu_horizon nominal max_curtailment
                 l f cs states powers prev (Num 0)) a)
      with (feasible_in_window
              (integer_model op_horizon simu_horizon nominal max_curtailment
                 l f cs) a).
    split.
    - intros [Hw [Hp Hs]].
      assert (Hb : binary_on a 0 (Z.to_nat op_horizon))
        by (apply (window_binary Hw); lia).
      split; [exact Hw|]. split; [apply (Hprev a Hb), Hp|].
      apply (@start_history op_horizon f a Hop Hf Hb), Hs.
    - intros [Hw [Hp Hs]].
      assert (Hb : binary_on a 0 (Z.to_nat op_horizon))
        by (apply (window_binary Hw); lia).
      split; [exact Hw|]. split; [apply (Hprev a Hb), Hp|].
      apply (@start_history op_horizon f a Hop Hf Hb), Hs. }
  split; [exact Hiff|].
  apply Hiff. split; [apply always_full_in_window; assumption|].
  split; [|intros _ j _ _; reflexivity].
  intros _. exists 0%nat. split; [|reflexivity].
  destruct (Z.leb_spec r l); lia.
Qed.

(** X11.  The load was at full output in the [r] steps before the
    current time step (and not in the step before them).  On the integer
    model of a new load with [max_low >= 1], [update_model] returns, and
    the assignments it allows are exactly those the window allows in
    which, unless the run reaches back to the start of the simulation,
    the first [min(min_full - r, op_horizon)] indicators are 1; in these
    steps the power is nominal.  Nominal power throughout stays
    allowed. *)
Theorem update_after_full_run (op_horizon simu_horizon : Z)
    (nominal max_curtailment : R) (l f : Z) (states : list bool)
    (powers : list R) (timestep r : Z) :
  1 <= op_horizon -> 1 <= l -> 1 <= f ->
  (nominal * max_curtailment <= nominal)%R ->
  timestep <= Py.len states ->
  run_before states timestep r true ->
  exists self,
    updated op_horizon simu_horizon nominal max_curtailment
      (Some l) (Some f) "integer" states powers timestep = Py.Ok self
    /\ (forall a,
          feasible self a
          <-> feasible_in_window self a
              /\ (r < timestep ->
                  forall k, Z.of_nat k < Z.min (f - r) op_horizon ->
                    a (P_State k) = 1%R))
    /\ (forall a, feasible self a -> r < timestep ->
          forall k, Z.of_nat k < Z.min (f - r) op_horizon ->
            a (P_El k) = nominal)
    /\ feasible self (Examples.always_full nominal).
Proof.
  intros Hop Hl Hf Hcurt Hts Hrun.
  assert (Hr : 1 <= r <= timestep) by (destruct Hrun as [H _]; exact H).
  destruct (@updated_integer op_horizon simu_horizon nominal max_curtailment
              l f states powers timestep Hop Hl Hf) as [cs [Hcs E]]; [lia|].
  rewrite E.
  rewrite (@update_integer_full op_horizon simu_horizon nominal
             max_curtailment l f cs states powers timestep Hts r Hrun).
  destruct (@full_history op_horizon l f r timestep Hop Hl Hf Hr)
    as [prev [Ep Hprev]].
  rewrite Ep. cbn [Py.bind].
  eexists. split; [reflexivity|].
  match goal with
  | |- (forall a, feasible ?s a <-> _) /\ _ =>
      assert (Hiff : forall a,
        feasible s a
        <-> feasible_in_window s a
            /\ (r < timestep ->
                forall k, Z.of_nat k < Z.min (f - r) op_horizon ->
                  a (P_State k) = 1%R))
  end.
  { intro a. rewrite feasible_result.
    change (feasible_in_window
              (updated_model op_horizon simu_horizon nominal max_curtailment
                 l f cs states powers prev Infinity) a)
      with (feasible_in_window
              (integer_model op_horizon simu_horizon nominal max_curtailment
                 l f cs) a).
    split.
    - intros [Hw [Hp _]]. split; [exact Hw|].
      apply (Hprev a); [apply (window_binary Hw); lia|exact Hp].
    - intros [Hw Hp]. split; [exact Hw|]. split; [|intros _; exact I].
      apply (Hprev a); [apply (window_binary Hw); lia|exact Hp]. }
  split; [exact Hiff|]. split.
  - intros a Ha Hlt k Hk. apply Hiff in Ha. destruct Ha as [Hw H].
    apply (@full_state_full_power op_horizon simu_horizon nominal
             max_curtailment l f cs Hcs a Hw); [lia|apply H; assumption].
  - apply Hiff. split; [apply always_full_in_window; assumption|].
    intros _ k _. reflexivity.
Qed.

Lemma update_after_full_run_witness :
  exists self,
    updated 6 12 10 (2 / 10) (Some 2) (Some 3)
      "integer" [false; true; false; false] [2; 10; 0; 0]%R 2 = Py.Ok self
    /\ (forall a,
          feasible self a
          <-> feasible_in_window self a
              /\ (1 < 2 ->
                  forall k, Z.of_nat k < Z.min (3 - 1) 6 ->
                    a (P_State k) = 1%R))
    /\ (forall a, feasible self a -> 1 < 2 ->
          forall k, Z.of_nat k < Z.min (3 - 1) 6 -> a (P_El k) = 10%R)
    /\ feasible self (Examples.always_full 10).
Proof.
  apply (@update_after_full_run 6 12 10 (2 / 10)%R 2 3
           [false; true; false; false] [2; 10; 0; 0]%R 2 1); try lia.
  - lra.
  - vm_compute. discriminate.
  - split; [lia|]. split.
    + intros j Hj. replace j with 1 by lia. reflexivity.
    + right. reflexivity.
Defined.

(** X12.  The load was below full output in the [r <= max_low] steps
    before the current time step (and not in the step before them).
    [update_model] returns, and the assignments it allows are exactly
    those the window allows in which one of the first [max_low - r + 1]
    indicators is 1, when the window is that long, and in which an
    indicator at 1 in step 0 keeps the indicators at 1 up to step
    [min_full - 1].  Nominal power throughout stays allowed. *)
Theorem update_after_low_run (op_horizon simu_horizon : Z)
    (nominal max_curtailment : R) (l f : Z) (states : list bool)
    (powers : list R) (timestep r : Z) :
  1 <= op_horizon -> 1 <= l -> 1 <= f ->
  (nominal * max_curtailment <= nominal)%R ->
  timestep <= Py.len states ->
  run_before states timestep r false -> r <= l ->
  exists self,
    updated op_horizon simu_horizon nominal max_curtailment
      (Some l) (Some f) "integer" states powers timestep = Py.Ok self
    /\ (forall a,
          feasible self a
          <-> feasible_in_window self a
              /\ (l - r + 1 <= op_horizon ->
                  exists k, Z.of_nat k < l - r + 1 /\ a (P_State k) = 1%R)
              /\ (a (P_State 0) = 1%R ->
                  forall j, (1 <= j)%nat -> Z.of_nat j < Z.min f op_horizon ->
                    a (P_State j) = 1%R))
    /\ feasible self (Examples.always_full nominal).
Proof.
  intros Hop Hl Hf Hcurt Hts Hrun Hle.
  destruct (@updated_after_low op_horizon simu_horizon nominal
              max_curtailment l f states powers timestep r Hop Hl Hf Hcurt
              Hts Hrun) as [self [E [Hiff Hfull]]]; [lia|].
  exists self. split; [exact E|]. split; [|exact Hfull].
  intro a. rewrite Hiff.
  destruct (Z.leb_spec r l) as [_|]; [reflexivity|lia].
Qed.

Lemma update_after_low_run_witness :
  exists self,
    updated 6 12 10 (2 / 10) (Some 2) (Some 2)
      "integer" Examples.one_low_step Examples.some_powers 2 = Py.Ok self
    /\ (forall a,
          feasible self a
          <-> feasible_in_window self a
              /\ (2 - 1 + 1 <= 6 ->
                  exists k, Z.of_nat k < 2 - 1 + 1 /\ a (P_State k) = 1%R)
              /\ (a (P_State 0) = 1%R ->
                  forall j, (1 <= j)%nat -> Z.of_nat j < Z.min 2 6 ->
                    a (P_State j) = 1%R))
    /\ feasible self (Examples.always_full 10).
Proof.
  apply (@update_after_low_run 6 12 10 (2 / 10)%R 2 2
           Examples.one_low_step Examples.some_powers 2 1); try lia.
  - lra.
  - vm_compute. discriminate.
  - split; [lia|]. split.
    + intros j Hj. replace j with 1 by lia. reflexivity.
    + right. reflexivity.
Defined.

(** X13.  When the rule on [max_low] was already broken before the
    current time step, by a run of exactly [max_low + 1] steps below full
    output, [update_model] raises nothing: the index [overlap - 1 = -1]
    selects the last state constraint, so that one of the first
    [min(max(max_low, min_full - 1), op_horizon)] indicators has to be 1,
    not the indicator of step 0. *)
Theorem update_after_run_one_too_long (op_horizon simu_horizon : Z)
    (nominal max_curtailment : R) (l f : Z) (states : list bool)
    (powers : list R) (timestep : Z) :
  1 <= op_horizon -> 1 <= l -> 1 <= f ->
  (nominal * max_curtailment <= nominal)%R ->
  timestep <= Py.len states ->
  run_before states timestep (l + 1) false ->
  exists self,
    updated op_horizon simu_horizon nominal max_curtailment
      (Some l) (Some f) "integer" states powers timestep = Py.Ok self
    /\ (forall a,
          feasible self a
          <-> feasible_in_window self a
              /\ (exists k,
                    Z.of_nat k < Z.min (Z.max l (f - 1)) op_horizon
                    /\ a (P_State k) = 1%R)
              /\ (a (P_State 0) = 1%R ->
                  forall j, (1 <= j)%nat -> Z.of_nat j < Z.min f op_horizon ->
                    a (P_State j) = 1%R))
    /\ feasible self (Examples.always_full nominal).
Proof.
  intros Hop Hl Hf Hcurt Hts Hrun.
  destruct (@updated_after_low op_horizon simu_horizon nominal
              max_curtailment l f states powers timestep (l + 1) Hop Hl Hf
              Hcurt Hts Hrun) as [self [E [Hiff Hfull]]]; [lia|].
  exists self. split; [exact E|]. split; [|exact Hfull].
  intro a. rewrite Hiff.
  destruct (Z.leb_spec (l + 1) l) as [|_]; [lia|].
  split.
  - intros [Hw [H Hs]]. split; [exact Hw|]. split; [apply H; lia|exact Hs].
  - intros [Hw [H Hs]]. split; [exact Hw|]. split; [intros _; exact H|].
    exact Hs.
Qed.

Lemma update_after_run_one_too_long_witness :
  exists self,
    updated 6 12 10 (2 / 10) (Some 1) (Some 2)
      "integer" [true; false; false; false] [10; 2; 2; 0]%R 3 = Py.Ok self
    /\ (forall a,
          feasible self a
          <-> feasible_in_window self a
              /\ (exists k,
                    Z.of_nat k < Z.min (Z.max 1 (2 - 1)) 6
                    /\ a (P_State k) = 1%R)
              /\ (a (P_State 0) = 1%R ->
                  forall j, (1 <= j)%nat -> Z.of_nat j < Z.min 2 6 ->
                    a (P_State j) = 1%R))
    /\ feasible self (Examples.always_full 10).
Proof.
  apply (@update_after_run_one_too_long 6 12 10 (2 / 10)%R 1 2
           [true; false; false; false] [10; 2; 2; 0]%R 3); try lia.
  - lra.
  - vm_compute. discriminate.
  - split; [lia|]. split.
    + intros j Hj.
      assert (Hc : j = 1 \/ j = 2) by lia.
      destruct Hc as [-> | ->]; reflexivity.
    + right. reflexivity.
Defined.

(** X14.  After [max_low + 2] or more steps below full output in a row,
    [update_model] on the integer model raises [AssertionError]. *)
Theorem update_fails_after_long_run (op_horizon simu_horizon : Z)
    (nominal max_curtailment : R) (l f : Z) (states : list bool)
    (powers : list R) (timestep : Z) :
  1 <= op_horizon -> 1 <= l -> 1 <= f ->
  timestep <= Py.len states -> l + 2 <= timestep ->
  (forall j, timestep - (l + 2) <= j < timestep ->
     Py.index states j = Py.Ok false) ->
  updated op_horizon simu_horizon nominal max_curtailment
    (Some l) (Some f) "integer" states powers timestep
  = Py.AssertionError.
Proof.
  intros Hop Hl Hf Hts Hlen Hlow.
  destruct (@updated_integer op_horizon simu_horizon nominal
              max_curtailment l f states powers timestep Hop Hl Hf)
    as [cs [_ E]]; [lia|].
  rewrite E. unfold update_integer.
  unfold with_schedule, integer_model.
  cbn [P_State_Schedule max_low].
  rewrite (Hlow (timestep - 1)) by lia. cbn [Py.bind].
  rewrite count_low_long_run by (assumption || lia).
  reflexivity.
Qed.

Lemma update_fails_after_long_run_witness :
  updated 6 12 10 (2 / 10) (Some 1) (Some 2)
    "integer" [false; false; false; false] [2; 2; 2; 0]%R 3
  = Py.AssertionError.
Proof.
  apply (@update_fails_after_long_run 6 12 10 (2 / 10)%R 1 2
           [false; false; false; false] [2; 2; 2; 0]%R 3); try lia.
  - vm_compute. discriminate.
  - intros j Hj.
    assert (Hc : j = 0 \/ j = 1 \/ j = 2) by lia.
    destruct Hc as [-> | [-> | ->]]; reflexivity.
Defined.

End UpdateProofs.

(* ================================================================= *)
(** ** [update_model] on the relaxed model *)

Module ConvexUpdateProofs.

Import Gurobi CurtailableLoadSpec SliceLemmas PopulateProofs RollingHorizon.
Import CurtailableLoad.
Local Open Scope Z_scope.

Lemma slice_to_powers (n : nat) (b : Z) :
  0 <= b <= Z.of_nat n ->
  Py.slice_to (map P_El (seq 0 n)) b = map P_El (seq 0 (Z.to_nat b)).
Proof.
  intro H. rewrite slice_to_prefix.
  - rewrite firstn_map, firstn_of_seq. do 2 f_equal. lia.
  - unfold Py.len. rewrite length_map, length_seq. exact H.
Qed.

Lemma required_len (nominal max_curtailment : R) (l f : Z) :
  0 <= l -> 0 <= f ->
  Py.len (required nominal max_curtailment l f) = l + f.
Proof.
  intros Hl Hf. unfold required, Py.len.
  rewrite length_app, !repeat_length. lia.
Qed.

Lemma satisfies_first_powers (a : var -> R) (k : nat) (b : R) :
  satisfies a (first_powers k (Num b)) <-> (b <= planned a k)%R.
Proof.
  unfold satisfies, first_powers, planned. cbn [sns lhs RHS ge_bound].
  rewrite EnergyLemmas.eval_quicksum. reflexivity.
Qed.

(** A new load with [max_low >= 1]: [populate_model] in relaxed mode
    returns the relaxed model, every energy constraint carrying the bound
    minus infinity. *)
Lemma populated_convex (op_horizon simu_horizon : Z)
    (nominal max_curtailment : R) (l f : Z) :
  1 <= l -> 1 <= f ->
  exists cs,
    populated op_horizon simu_horizon nominal max_curtailment
      (Some l) (Some f) "convex"
    = Py.Ok (convex_model op_horizon simu_horizon nominal max_curtailment
               l f cs (fun _ => NegInfinity)).
Proof.
  intros Hl Hf.
  unfold populated, __init__, check_arguments, Py.assert.
  destruct (Z.leb_spec 1 f) as [_|]; [|lia].
  destruct (Z.leb_spec 0 l) as [_|]; [|lia].
  cbn [Py.bind]. unfold populate_model.
  change (String.eqb "convex" "convex" || String.eqb "convex" "integer")%bool
    with true.
  cbv iota.
  match goal with
  | |- context [set_bounds ?s ?lb ?ub] => set (self := set_bounds s lb ub)
  end.
  change (max_low self) with (Some l).
  change (min_full self) with (Some f).
  cbv iota beta.
  destruct (Z.eqb_spec l 0) as [|_]; [lia|].
  change (String.eqb "convex" "integer") with false. cbv iota.
  assert (Hvars : length (P_El_vars self)
                  = Z.to_nat (CurtailableLoad.op_horizon self)).
  { unfold self, set_bounds, ElectricalEntity_populate_model, with_model,
      op_time_vec, Py.range.
    cbn [P_El_vars CurtailableLoad.op_horizon].
    rewrite !length_map, length_seq. reflexivity. }
  destruct (@populate_convex_ok self l f Hvars Hl Hf) as [windows [E _]].
  exists windows. rewrite E. f_equal.
  unfold convex_model, with_model. f_equal.
  - unfold self, set_bounds, ElectricalEntity_populate_model, with_model,
      op_time_vec, Py.range.
    cbn [P_El_vars CurtailableLoad.op_horizon].
    rewrite !map_map. reflexivity.
  - change (constr_previous self) with (@nil Constr). cbn [app].
    change (CurtailableLoad.op_horizon self) with op_horizon.
    unfold Py.range2. rewrite <- seq_shift, !map_map.
    replace (Z.to_nat (Z.min (l + f - 1) op_horizon - 0))
      with (Z.to_nat (Z.min (l + f - 1) op_horizon)) by lia.
    apply map_ext_in. intros k Hk. apply in_seq in Hk.
    unfold first_powers, power_vars. rewrite Hvars.
    change (CurtailableLoad.op_horizon self) with op_horizon.
    rewrite slice_to_powers by lia.
    replace (Z.to_nat (0 + Z.of_nat k + 1)) with (S k) by lia.
    reflexivity.
Qed.

Section Bounds.

Variable self : t.
Variable l f : Z.
Variable timestep : Z.

Hypothesis l_positive : 1 <= l.
Hypothesis f_positive : 1 <= f.
Hypothesis in_simulation : 0 <= timestep <= Py.len (P_El_Schedule self).

Hypothesis curtailed : P_El_Curt self = (P_El_Nom self * max_curt self)%R.

(** One pass of the loop over the energy constraints returns, and writes
    the energy that is still due. *)
Lemma previous_bound_due (k : nat) :
  (1 <= k)%nat -> Z.of_nat k < l + f ->
  previous_bound self l f timestep (Z.of_nat k)
  = Py.Ok (Num (energy_due (P_El_Nom self) (max_curt self) l f
                  (P_El_Schedule self) timestep k)).
Proof.
  intros Hk Hlt. unfold previous_bound, energy_due, delivered.
  rewrite curtailed.
  fold (required (P_El_Nom self) (max_curt self) l f).
  pose proof (@required_len (P_El_Nom self) (max_curt self) l f) as Hlen.
  destruct (Z.ltb_spec (timestep - (f + l - Z.of_nat k)) 0) as [Hneg|Hpos].
  - rewrite slice_to_negative by assumption.
    rewrite Hlen by lia.
    replace (Z.to_nat (l + f + (timestep - (f + l - Z.of_nat k))))
      with (Z.to_nat (Z.min (l + f) (timestep + Z.of_nat k))) by lia.
    rewrite slice_len by lia.
    assert (Hreq : length (required (P_El_Nom self) (max_curt self) l f)
                   = Z.to_nat (l + f)).
    { specialize (Hlen ltac:(lia) ltac:(lia)). unfold Py.len in Hlen. lia. }
    assert (Hfirst :
      Py.len (firstn (Z.to_nat (Z.min (l + f) (timestep + Z.of_nat k)))
                (required (P_El_Nom self) (max_curt self) l f))
      = timestep + Z.of_nat k).
    { unfold Py.len. rewrite length_firstn, Hreq. lia. }
    rewrite Hfirst.
    destruct (Z.eqb_spec
                (Z.max 0 (Z.min timestep (Py.len (P_El_Schedule self))
                          - Z.min 0 (Py.len (P_El_Schedule self)))
                 + Z.of_nat k)
                (timestep + Z.of_nat k)) as [_|Hne]; [|lia].
    cbn [Py.assert Py.bind].
    replace (Z.max 0 (timestep - (l + f - Z.of_nat k))) with 0 by lia.
    reflexivity.
  - assert (Hreq : length (required (P_El_Nom self) (max_curt self) l f)
                   = Z.to_nat (l + f)).
    { specialize (Hlen ltac:(lia) ltac:(lia)). unfold Py.len in Hlen. lia. }
    rewrite slice_len by lia. rewrite Hlen by lia.
    destruct (Z.eqb_spec
                (Z.max 0 (Z.min timestep (Py.len (P_El_Schedule self))
                          - Z.min (timestep - (f + l - Z.of_nat k))
                              (Py.len (P_El_Schedule self)))
                 + Z.of_nat k) (l + f)) as [_|Hne]; [|lia].
    cbn [Py.assert Py.bind].
    replace (Z.to_nat (Z.min (l + f) (timestep + Z.of_nat k)))
      with (length (required (P_El_Nom self) (max_curt self) l f)) by lia.
    rewrite firstn_all.
    replace (Z.max 0 (timestep - (l + f - Z.of_nat k)))
      with (timestep - (f + l - Z.of_nat k)) by lia.
    reflexivity.
Qed.

(** The loop over the energy constraints returns, whatever bounds they
    carried before. *)
Lemma update_previous_due (b : nat -> bound) (m : nat) :
  forall s, (1 <= s)%nat -> Z.of_nat (s + m) <= l + f ->
    update_previous self l f timestep (Z.of_nat s)
      (map (fun k => first_powers k (b k)) (seq s m))
    = Py.Ok (map (fun k =>
                    first_powers k
                      (Num (energy_due (P_El_Nom self) (max_curt self) l f
                              (P_El_Schedule self) timestep k)))
               (seq s m)).
Proof.
  induction m as [|m IH]; intros s Hs Hlen; [reflexivity|].
  cbn [seq map update_previous].
  rewrite previous_bound_due by lia. cbn [Py.bind].
  replace (Z.of_nat s + 1) with (Z.of_nat (S s)) by lia.
  rewrite IH by lia. reflexivity.
Qed.

End Bounds.

(** X15.  A new load with [max_low >= 1] in relaxed mode, at a time step
    within the realised schedule: [update_model] returns, and the
    assignments it allows are exactly those the window allows in which,
    for every [k] from 1 to [min(max_low + min_full - 1, op_horizon)], the
    energy planned for the first [k] steps of the window is at least the
    energy required of the [max_low + min_full] steps ending with them,
    less the energy delivered in those before the window.  Where these
    steps reach back before the simulation, only the first
    [timestep + k] entries of
    [[P_El_Curt] * max_low + [P_El_Nom] * min_full] are required. *)
Theorem update_convex_energy_due (op_horizon simu_horizon : Z)
    (nominal max_curtailment : R) (l f : Z) (states : list bool)
    (powers : list R) (timestep : Z) :
  1 <= op_horizon -> 1 <= l -> 1 <= f ->
  0 <= timestep <= Py.len powers ->
  exists self,
    updated op_horizon simu_horizon nominal max_curtailment
      (Some l) (Some f) "convex" states powers timestep = Py.Ok self
    /\ forall a,
         feasible self a
         <-> feasible_in_window self a
             /\ forall k, (1 <= k)%nat ->
                  Z.of_nat k <= Z.min (l + f - 1) op_horizon ->
                  (NumPy.sum
                     (firstn
                        (Z.to_nat (Z.min (l + f) (timestep + Z.of_nat k)))
                        (required nominal max_curtailment l f))
                   - delivered powers
                       (Z.max 0 (timestep - (l + f - Z.of_nat k))) timestep
                   <= planned a k)%R.
Proof.
  intros Hop Hl Hf Hts.
  destruct (@populated_convex op_horizon simu_horizon nominal
              max_curtailment l f Hl Hf) as [cs E].
  unfold updated. rewrite E. cbn [Py.bind].
  set (model := with_schedule
                  (convex_model op_horizon simu_horizon nominal
                     max_curtailment l f cs (fun _ => NegInfinity))
                  states powers).
  set (m := Z.to_nat (Z.min (l + f - 1) op_horizon)).
  unfold update_model.
  change (constr_previous_state model) with (@nil Constr).
  change (0 <? Py.len (@nil Constr)) with false.
  rewrite andb_false_r. cbn [Py.bind].
  change (constr_previous model)
    with (map (fun k => first_powers k NegInfinity) (seq 1 m)).
  unfold Py.len at 1. rewrite length_map, length_seq.
  destruct (Z.ltb_spec 0 (Z.of_nat m)) as [_|]; [|unfold m in *; lia].
  unfold update_convex.
  change (min_full model) with (Some f).
  change (max_low model) with (Some l).
  cbv iota beta.
  change (constr_previous model)
    with (map (fun k => first_powers k NegInfinity) (seq 1 m)).
  change 1 with (Z.of_nat 1) at 1.
  rewrite (@update_previous_due model l f timestep Hl Hf Hts eq_refl
             (fun _ => NegInfinity) m 1%nat)
    by (unfold m; lia).
  cbn [Py.bind]. eexists. split; [reflexivity|].
  intro a. unfold feasible, history_constraints.
  cbn [constr_previous_state constr_previous constr_previous_start
       with_model option_list app].
  rewrite app_nil_r.
  change (P_El_Nom model) with nominal.
  change (max_curt model) with max_curtailment.
  change (P_El_Schedule model) with powers.
  rewrite Forall_forall.
  split.
  - intros [Hw Hh]. split; [exact Hw|]. intros k Hk Hle.
    apply (@satisfies_first_powers a k). apply Hh.
    apply in_map_iff. exists k. split; [reflexivity|].
    apply in_seq. unfold m. lia.
  - intros [Hw Hh]. split; [exact Hw|]. intros c Hc.
    apply in_map_iff in Hc. destruct Hc as [k [<- Hk]].
    apply in_seq in Hk. apply satisfies_first_powers.
    apply Hh; unfold m in Hk; lia.
Qed.

Lemma update_convex_energy_due_witness :
  exists self,
    updated 6 12 10 (2 / 10) (Some 2) (Some 2) "convex"
      Examples.one_low_step Examples.some_powers 2 = Py.Ok self
    /\ forall a,
         feasible self a
         <-> feasible_in_window self a
             /\ forall k, (1 <= k)%nat ->
                  Z.of_nat k <= Z.min (2 + 2 - 1) 6 ->
                  (NumPy.sum
                     (firstn (Z.to_nat (Z.min (2 + 2) (2 + Z.of_nat k)))
                        (required 10 (2 / 10) 2 2))
                   - delivered Examples.some_powers
                       (Z.max 0 (2 - (2 + 2 - Z.of_nat k))) 2
                   <= planned a k)%R.
Proof.
  apply (@update_convex_energy_due 6 12 10 (2 / 10)%R 2 2
           Examples.one_low_step Examples.some_powers 2); try lia.
  vm_compute. split; discriminate.
Defined.

End ConvexUpdateProofs.

(* ================================================================= *)
(** ** [update_model] overwrites what an earlier update wrote *)

Module OverwriteProofs.

Import Gurobi RollingHorizon.
Import CurtailableLoad.
Local Open Scope Z_scope.

Lemma set_RHS_same_shape (b : bound) (c c' : Constr) :
  shape c = shape c' -> set_RHS b c = set_RHS b c'.
Proof.
  destruct c, c'. unfold shape, set_RHS. cbn [lhs sns].
  intro H. inversion H. reflexivity.
Qed.

Lemma map_set_RHS_same_shape (b : bound) (l : list Constr) :
  forall l', map shape l = map shape l' ->
    map (set_RHS b) l = map (set_RHS b) l'.
Proof.
  induction l as [|c l IH]; intros [|c' l'] H; try discriminate H;
    [reflexivity|].
  cbn [map] in *.
  assert (Hc : shape c = shape c') by congruence.
  assert (Hl : map shape l = map shape l') by congruence.
  f_equal; [apply set_RHS_same_shape, Hc|apply IH, Hl].
Qed.

Lemma len_same_shape (l l' : list Constr) :
  map shape l = map shape l' -> Py.len l = Py.len l'.
Proof.
  intro H. unfold Py.len.
  rewrite <- (length_map shape l), H, length_map. reflexivity.
Qed.

Lemma empty_same_shape (l l' : list Constr) :
  map shape l = map shape l' -> Py.len l' <= 0 -> l = [] /\ l' = [].
Proof.
  intros H Hlen. destruct l, l'; try discriminate H.
  - split; reflexivity.
  - unfold Py.len in Hlen. cbn [length] in Hlen. lia.
Qed.

Lemma shape_map_set_RHS (b : bound) (l : list Constr) :
  map shape (map (set_RHS b) l) = map shape l.
Proof. rewrite map_map. reflexivity. Qed.

Lemma shape_set_nth (b : bound) (l : list Constr) :
  forall j, map shape (Py.set_nth l j (set_RHS b)) = map shape l.
Proof.
  induction l as [|c l IH]; intros [|j]; cbn [Py.set_nth map];
    try reflexivity.
  f_equal. apply IH.
Qed.

Lemma shape_update (b : bound) (l l' : list Constr) (i : Z) :
  Py.update l i (set_RHS b) = Py.Ok l' -> map shape l' = map shape l.
Proof.
  unfold Py.update. destruct (Py.norm_index _ _); [|discriminate].
  intro H. inversion H. apply shape_set_nth.
Qed.

Lemma previous_bound_same (s s' : t) (l f ts k : Z) :
  P_El_Curt s = P_El_Curt s' -> P_El_Nom s = P_El_Nom s' ->
  P_El_Schedule s = P_El_Schedule s' ->
  previous_bound s l f ts k = previous_bound s' l f ts k.
Proof.
  intros H1 H2 H3. unfold previous_bound. rewrite H1, H2, H3. reflexivity.
Qed.

(** The loop over the energy constraints does not read their bounds. *)
Lemma update_previous_same (s s' : t) (l f ts : Z) :
  P_El_Curt s = P_El_Curt s' -> P_El_Nom s = P_El_Nom s' ->
  P_El_Schedule s = P_El_Schedule s' ->
  forall cs cs' k, map shape cs = map shape cs' ->
    update_previous s l f ts k cs = update_previous s' l f ts k cs'.
Proof.
  intros H1 H2 H3.
  induction cs as [|c cs IH]; intros [|c' cs'] k H; try discriminate H;
    [reflexivity|].
  cbn [map] in H.
  assert (Hc : shape c = shape c') by congruence.
  assert (Hl : map shape cs = map shape cs') by congruence.
  cbn [update_previous].
  rewrite (@previous_bound_same s s' l f ts k H1 H2 H3).
  destruct (previous_bound s' l f ts k); cbn [Py.bind]; try reflexivity.
  rewrite (IH cs' (k + 1) Hl).
  destruct (update_previous s' l f ts (k + 1) cs'); cbn [Py.bind];
    try reflexivity.
  do 2 f_equal. apply set_RHS_same_shape, Hc.
Qed.

Lemma update_previous_shape (s : t) (l f ts : Z) :
  forall cs k cs', update_previous s l f ts k cs = Py.Ok cs' ->
    map shape cs' = map shape cs.
Proof.
  induction cs as [|c cs IH]; intros k cs' H; cbn [update_previous] in H.
  - inversion H. reflexivity.
  - destruct (previous_bound s l f ts k); cbn [Py.bind] in H;
      try discriminate H.
    destruct (update_previous s l f ts (k + 1) cs) eqn:E; cbn [Py.bind] in H;
      try discriminate H.
    inversion H. cbn [map]. f_equal. apply (IH _ _ E).
Qed.

(** The second block of [update_model] gives the same result on two loads
    that differ in the bounds of the energy constraints. *)
Lemma convex_block_same (s : t) (cp cp' : list Constr) (ts : Z) :
  map shape cp = map shape cp' ->
  (let s1 := with_model s (P_El_vars s) (P_State_vars s) (constrs s)
               (constr_previous_state s) cp (constr_previous_start s) in
   if 0 <? Py.len (constr_previous s1) then update_convex s1 ts
   else Py.Ok s1)
  = (let s2 := with_model s (P_El_vars s) (P_State_vars s) (constrs s)
                 (constr_previous_state s) cp' (constr_previous_start s) in
     if 0 <? Py.len (constr_previous s2) then update_convex s2 ts
     else Py.Ok s2).
Proof.
  intro H. cbv zeta. cbn [constr_previous with_model].
  rewrite (len_same_shape _ _ H).
  destruct (Z.ltb_spec 0 (Py.len cp')) as [Hlen|Hlen].
  - unfold update_convex. cbn [min_full max_low constr_previous with_model].
    destruct (min_full s) as [f|]; [|reflexivity].
    destruct (max_low s) as [l|]; [|reflexivity].
    match goal with
    | |- Py.bind (update_previous ?a _ _ _ _ _) _
         = Py.bind (update_previous ?b _ _ _ _ _) _ =>
        rewrite (@update_previous_same a b l f ts eq_refl eq_refl eq_refl
                   cp cp' 1 H)
    end.
    reflexivity.
  - destruct (empty_same_shape _ _ H Hlen) as [-> ->]. reflexivity.
Qed.

(** Takes a hypothesis on the outcome of a block of [update_model]
    apart, branch by branch. *)
Ltac crack E :=
  repeat match type of E with
         | context [Py.bind ?m _] =>
             destruct m eqn:?; cbn [Py.bind] in E; try discriminate E
         | context [match ?x with _ => _ end] =>
             destruct x eqn:?; try discriminate E
         end.

(** The bounds of the state constraints are written into the constraints
    [populate_model] created: what the first block of [update_model]
    returns has the state constraints of before, up to their bounds. *)
Lemma state_bounds_shape (cps prev : list Constr) (schedule : list bool)
    (previous : bool) (ts op : Z) (ml mf : option Z) :
  (if previous then
     full_ts <- count_full (Z.to_nat ts) schedule ts 1 ;;
     if ts - full_ts - 1 <? 0 then Py.Ok (map (set_RHS NegInfinity) cps)
     else
       match mf with
       | None => Py.TypeError
       | Some f =>
           let remaining_fulls := f - full_ts in
           if remaining_fulls <=? 0 then
             Py.Ok (map (set_RHS NegInfinity) cps)
           else if op <? remaining_fulls then
             Py.update (map (set_RHS NegInfinity) cps) (-1)
               (set_RHS (Num (IZR op)))
           else
             Py.update (map (set_RHS NegInfinity) cps) (remaining_fulls - 1)
               (set_RHS (Num (IZR remaining_fulls)))
       end
   else
     match ml with
     | None => Py.TypeError
     | Some l =>
         low_ts <- count_low (Z.to_nat ts) schedule l ts 1 ;;
         let overlap := l - low_ts + 1 in
         if overlap <=? op then
           Py.update (map (set_RHS NegInfinity) cps) (overlap - 1)
             (set_RHS (Num 1))
         else Py.Ok (map (set_RHS NegInfinity) cps)
     end) = Py.Ok prev ->
  map shape prev = map shape cps.
Proof.
  intro E. cbv zeta in E. crack E;
    first [ inversion E; apply shape_map_set_RHS
          | rewrite (shape_update _ _ _ E); apply shape_map_set_RHS ].
Qed.

(** [update_model] changes bounds only. *)
Lemma update_model_keeps_shapes (s s1 : t) (ts : Z) :
  update_model s ts = Py.Ok s1 -> same_up_to_bounds s1 s.
Proof.
  destruct s as [nom curt ml mf pc op vars sts cs cps cp start ssched psched].
  unfold update_model. cbn [constr_previous_state].
  assert (Hblock : forall (prev : list Constr) (start' : option Constr),
    map shape prev = map shape cps ->
    option_map shape start' = option_map shape start ->
    (prev = [] -> start' = start) ->
    (let s' := mk nom curt ml mf pc op vars sts cs prev cp start'
                  ssched psched in
     if 0 <? Py.len (constr_previous s') then update_convex s' ts
     else Py.Ok s') = Py.Ok s1 ->
    same_up_to_bounds s1
      (mk nom curt ml mf pc op vars sts cs cps cp start ssched psched)).
  { intros prev start' Hprev Hstart Hempty H. cbv zeta in H.
    cbn [constr_previous] in H.
    destruct (0 <? Py.len cp).
    - unfold update_convex in H. cbn [min_full max_low constr_previous] in H.
      destruct mf as [f|]; [|discriminate H].
      destruct ml as [l|]; [|discriminate H].
      destruct (update_previous _ l f ts 1 cp) as [cp'| | | | |] eqn:E;
        cbn [Py.bind] in H; try discriminate H.
      inversion H. subst s1. unfold same_up_to_bounds, with_model.
      cbn [P_El_Nom max_curt max_low min_full P_El_Curt op_horizon P_El_vars
           P_State_vars constrs constr_previous_state constr_previous
           constr_previous_start P_State_Schedule P_El_Schedule].
      repeat (split; [reflexivity|]).
      split; [exact Hprev|].
      split; [exact (update_previous_shape _ _ _ _ _ _ E)|].
      split; [exact Hstart|exact Hempty].
    - inversion H. subst s1. unfold same_up_to_bounds.
      cbn [P_El_Nom max_curt max_low min_full P_El_Curt op_horizon P_El_vars
           P_State_vars constrs constr_previous_state constr_previous
           constr_previous_start P_State_Schedule P_El_Schedule].
      repeat (split; [reflexivity|]).
      split; [exact Hprev|].
      split; [reflexivity|].
      split; [exact Hstart|exact Hempty]. }
  destruct (negb (ts =? 0) && (0 <? Py.len cps))%bool eqn:Hrun.
  - apply andb_prop in Hrun. destruct Hrun as [_ Hlen].
    apply Z.ltb_lt in Hlen.
    unfold update_integer.
    cbn [P_State_Schedule constr_previous_state constr_previous_start
         min_full max_low op_horizon P_El_vars P_State_vars constrs
         constr_previous with_model P_El_Nom max_curt P_El_Curt
         P_El_Schedule].
    destruct (Py.index ssched (ts - 1)) as [previous| | | | |];
      cbn [Py.bind]; try discriminate.
    match goal with
    | |- Py.bind (Py.bind ?X _) _ = _ -> _ => destruct X as [prev| | | | |] eqn:E
    end; cbn [Py.bind]; try discriminate.
    apply Hblock.
    + exact (state_bounds_shape _ _ _ _ _ _ _ E).
    + destruct start; [destruct previous|]; reflexivity.
    + intros ->. apply state_bounds_shape in E.
      destruct cps; [unfold Py.len in Hlen; cbn [length] in Hlen; lia|].
      discriminate E.
  - cbn [Py.bind]. apply Hblock; auto.
Qed.

(** On two loads that differ at most in the bounds it rewrites,
    [update_model] at a time step other than 0 has the same outcome. *)
Lemma update_model_same (s s' : t) (ts : Z) :
  same_up_to_bounds s s' -> ts <> 0 -> update_model s ts = update_model s' ts.
Proof.
  destruct s as [nom curt ml mf pc op vars sts cs cps cp start ssched psched].
  destruct s' as [nom' curt' ml' mf' pc' op' vars' sts' cs' cps' cp' start'
                    ssched' psched'].
  unfold same_up_to_bounds.
  cbn [P_El_Nom max_curt max_low min_full P_El_Curt op_horizon P_El_vars
       P_State_vars constrs constr_previous_state constr_previous
       constr_previous_start P_State_Schedule P_El_Schedule].
  intros [<- [<- [<- [<- [<- [<- [<- [<- [<- [<- [<- [Hcps [Hcp [Hstart
          Hempty]]]]]]]]]]]]]] Hts.
  unfold update_model. cbn [constr_previous_state].
  rewrite (len_same_shape _ _ Hcps).
  destruct (Z.eqb_spec ts 0) as [|_]; [contradiction|].
  cbn [negb andb].
  destruct (Z.ltb_spec 0 (Py.len cps')) as [Hlen|Hlen].
  - unfold update_integer.
    cbn [P_State_Schedule constr_previous_state constr_previous_start
         min_full max_low op_horizon P_El_vars P_State_vars constrs
         constr_previous with_model P_El_Nom max_curt P_El_Curt
         P_El_Schedule].
    rewrite (map_set_RHS_same_shape NegInfinity _ _ Hcps).
    destruct (Py.index ssched (ts - 1)) as [previous| | | | |];
      cbn [Py.bind]; try reflexivity.
    assert (Hs : match start with
                 | Some c => Some (if previous then set_RHS Infinity c
                                   else set_RHS (Num 0) c)
                 | None => None
                 end
                 = match start' with
                   | Some c => Some (if previous then set_RHS Infinity c
                                     else set_RHS (Num 0) c)
                   | None => None
                   end).
    { destruct start as [c|], start' as [c'|]; try discriminate Hstart;
        [|reflexivity].
      cbn [option_map] in Hstart.
      assert (Hc : shape c = shape c') by congruence.
      destruct previous; f_equal; apply set_RHS_same_shape, Hc. }
    rewrite Hs.
    match goal with
    | |- Py.bind (Py.bind ?X _) _ = _ => destruct X as [prev| | | | |]
    end; cbn [Py.bind]; try reflexivity.
    match goal with
    | |- (if 0 <? Py.len (constr_previous ?S) then _ else _) = _ =>
        exact (@convex_block_same S cp cp' ts Hcp)
    end.
  - destruct (empty_same_shape _ _ Hcps Hlen) as [-> ->].
    rewrite (Hempty eq_refl). cbn [Py.bind].
    match goal with
    | |- (if 0 <? Py.len (constr_previous ?S) then _ else _) = _ =>
        exact (@convex_block_same S cp cp' ts Hcp)
    end.
Qed.

(** X16.  [update_model] rewrites every bound an earlier call may have
    written: at a time step other than 0, the outcome on a model that was
    updated before is the outcome on the model as it was before that
    update.  In particular a second call at the same time step changes
    nothing.  At time step 0 the state constraints are not reset: a model
    without energy constraints is returned as the earlier update left
    it. *)
Theorem update_model_overwrites (self self1 : t) (t1 t2 : Z) :
  update_model self t1 = Py.Ok self1 -> t2 <> 0 ->
  update_model self1 t2 = update_model self t2
  /\ (t1 <> 0 -> update_model self1 t1 = Py.Ok self1)
  /\ (constr_previous self = [] -> update_model self1 0 = Py.Ok self1).
Proof.
  intros H Ht2.
  pose proof (update_model_keeps_shapes _ _ H) as Hsame.
  split; [apply update_model_same; assumption|]. split.
  - intro Ht1. rewrite <- H. apply update_model_same; assumption.
  - intro Hcp. unfold update_model.
    cbn [Z.eqb negb andb Py.bind].
    destruct Hsame as [_ [_ [_ [_ [_ [_ [_ [_ [_ [_ [_ [_ [Hshape _]]]]]]]]]]]]].
    rewrite Hcp in Hshape. destruct (constr_previous self1);
      [reflexivity|discriminate Hshape].
Qed.

Lemma update_model_overwrites_witness :
  exists self1,
    update_model
      (with_schedule (integer_model 6 12 10 (2 / 10) 2 2 [])
         Examples.one_low_step Examples.some_powers) 1 = Py.Ok self1
    /\ update_model self1 2
       = update_model
           (with_schedule (integer_model 6 12 10 (2 / 10) 2 2 [])
              Examples.one_low_step Examples.some_powers) 2.
Proof.
  eexists. split; [vm_compute; reflexivity|].
  apply (@update_model_overwrites
           (with_schedule (integer_model 6 12 10 (2 / 10) 2 2 [])
              Examples.one_low_step Examples.some_powers) _ 1 2).
  - vm_compute. reflexivity.
  - lia.
Defined.

End OverwriteProofs.

(* ================================================================= *)
(** ** The state recorded from the power *)

Module RecordedStateProofs.

Import Gurobi CurtailableLoadSpec RollingHorizon.
Import IndicatorLemmas IntegerModelProofs WindowRuleProofs.
Import CurtailableLoad.
Local Open Scope Z_scope.

Lemma nominal_power_recorded (nominal : R) (x : nat -> R) (k : nat) :
  (0 < nominal)%R -> x k = nominal -> P_State_func nominal x k = true.
Proof.
  intros Hpos E. unfold P_State_func. rewrite E.
  destruct (Rlt_dec (99 / 100 * nominal) nominal) as [_|H];
    [reflexivity|exfalso; apply H; lra].
Qed.

Lemma full_unnoticed_binary (nominal : R) (start n : nat) :
  binary_on (Examples.full_unnoticed nominal) start n.
Proof.
  intros k _. destruct k; [left|right]; reflexivity.
Qed.

(** Nominal power in every step with the indicator of step 0 at 0
    satisfies the constraints of the window. *)
Lemma full_unnoticed_in_window (op_horizon simu_horizon : Z)
    (nominal max_curtailment : R) (l f : Z) (cs : list Constr) :
  integer_constraints nominal l f (Z.to_nat op_horizon) cs ->
  1 <= l -> (0 < nominal)%R -> (nominal * max_curtailment <= nominal)%R ->
  feasible_in_window
    (integer_model op_horizon simu_horizon nominal max_curtailment l f cs)
    (Examples.full_unnoticed nominal).
Proof.
  intros [_ [_ [_ Hshape]]] Hl Hpos Hcurt.
  split; [|split].
  - intros k lb ub E. unfold integer_model in E. cbn [P_El_vars] in E.
    rewrite nth_error_map in E.
    destruct (nth_error _ k); [|discriminate E].
    inversion E; subst. cbn [Examples.full_unnoticed ge_bound le_bound].
    split; lra.
  - intros v Hv. unfold integer_model in Hv. cbn [P_State_vars] in Hv.
    unfold indicators in Hv. apply in_map_iff in Hv.
    destruct Hv as [k [<- _]]. apply (@full_unnoticed_binary nominal k 1).
    lia.
  - apply Forall_forall. intros c Hc. unfold integer_model in Hc.
    cbn [constrs] in Hc.
    destruct (Hshape c Hc) as [[k ->]|[[k ->]|[k [j ->]]]].
    + apply satisfies_coupling.
      destruct k; cbn [Examples.full_unnoticed]; lra.
    + apply satisfies_one_full_among.
      apply some_indicator_enough; [apply full_unnoticed_binary|].
      exists (S k). split; [lia|reflexivity].
    + apply satisfies_stay_full_after.
      destruct k as [|k].
      * cbn [Examples.full_unnoticed].
        assert (INR j
                <= NumPy.total (map (Examples.full_unnoticed nominal)
                                  (indicators (0 + 2) j)))%R.
        { apply all_indicators_enough. intros i Hi.
          destruct i; [lia|reflexivity]. }
        lra.
      * cbn [Examples.full_unnoticed].
        pose proof (@indicators_lower (Examples.full_unnoticed nominal) j
                      (S k + 2) (@full_unnoticed_binary nominal (S k + 2) j)).
        lra.
Qed.

(** X17.  The state recorded in the schedule is read off the power
    ([P_El > 0.99 * P_El_Nom]), not off the indicator.  In the integer
    model of a load with positive nominal power, an indicator at 1 in an
    allowed assignment is always recorded as full output; the converse
    fails: nominal power in step 0 with the indicator of step 0 at 0 is
    allowed, and is recorded as full output. *)
Theorem indicator_and_recorded_state (op_horizon simu_horizon : Z)
    (nominal max_curtailment : R) (l f : Z) :
  1 <= op_horizon -> 1 <= l -> 1 <= f ->
  (0 < nominal)%R -> (nominal * max_curtailment <= nominal)%R ->
  exists self,
    populated op_horizon simu_horizon nominal max_curtailment
      (Some l) (Some f) "integer" = Py.Ok self
    /\ (forall a, feasible_in_window self a ->
          forall k, (k < Z.to_nat op_horizon)%nat -> a (P_State k) = 1%R ->
            P_State_func nominal (fun t => a (P_El t)) k = true)
    /\ (exists a,
          feasible_in_window self a /\ a (P_State 0) = 0%R
          /\ P_State_func nominal (fun t => a (P_El t)) 0 = true).
Proof.
  intros Hop Hl Hf Hpos Hcurt.
  destruct (@populated_integer op_horizon simu_horizon nominal
              max_curtailment l f Hop Hl Hf) as [cs [E Hcs]].
  eexists. split; [exact E|]. split.
  - intros a Ha k Hk Ek.
    apply nominal_power_recorded; [exact Hpos|].
    exact (full_state_full_power Hcs Ha Hk Ek).
  - exists (Examples.full_unnoticed nominal).
    split; [apply full_unnoticed_in_window; assumption|].
    split; [reflexivity|].
    apply nominal_power_recorded; [exact Hpos|reflexivity].
Qed.

Lemma indicator_and_recorded_state_witness :
  exists self,
    populated 6 12 10 (2 / 10) (Some 2) (Some 2) "integer" = Py.Ok self
    /\ (forall a, feasible_in_window self a ->
          forall k, (k < Z.to_nat 6)%nat -> a (P_State k) = 1%R ->
            P_State_func 10 (fun t => a (P_El t)) k = true)
    /\ (exists a,
          feasible_in_window self a /\ a (P_State 0) = 0%R
          /\ P_State_func 10 (fun t => a (P_El t)) 0 = true).
Proof.
  apply (@indicator_and_recorded_state 6 12 10 (2 / 10)%R 2 2);
    try lia; lra.
Defined.

End RecordedStateProofs.

(* ================================================================= *)
(** ** The first [update_model], on the model as [populate_model] built it *)

Module FirstUpdateProofs.

Import Gurobi CurtailableLoadSpec SliceLemmas PopulateProofs StartProofs.
Import RollingHorizon ConvexUpdateProofs OverwriteProofs.
Import CurtailableLoad.
Local Open Scope Z_scope.



Section Convex.

Variable self : t.
Variable l f : Z.
Variable windows : list Constr.

Hypothesis vars_created :
  length (P_El_vars self) = Z.to_nat (op_horizon self).
Hypothesis max_low_set : max_low self = Some l.
Hypothesis min_full_set : min_full self = Some f.
Hypothesis no_history : history_constraints self = [].
Hypothesis l_positive : 1 <= l.
Hypothesis f_positive : 1 <= f.

Let m := Z.to_nat (Z.min (l + f - 1) (op_horizon self)).


End Convex.




End FirstUpdateProofs.
